(** * Discord analyzer: the analysis pipeline of [analyzers/llm_analyzer.py]

    A shallow embedding of [LLMAnalyzer]: message batching under a token
    budget, parsing of the model reply, per-author aggregation, the merge
    into stored customer profiles, the channel snapshot and the customer
    report.

    Around it: the text limit of [utils/formatters.py], the configuration
    check and start-up of [config/settings.py] and [main.py], and the
    message intake and status of [bot/discord_bot.py] and
    [bot/commands.py] over a session of the same database.

    Modelling conventions.
    - Scores are Python floats in the source.  In the model of the whole
      pipeline they are exact rationals ([Q]); the literals 0.5, 0.6 and
      0.8 are the rationals 5/10, 6/10 and 8/10, and rounding is left out.
      Module [Binary64] replays the sample points with the kernel's
      binary64 floats, and module [F64] embeds the aggregation and the
      merge once more with binary64 scores: what depends on the rounding
      of the average (who passes the threshold, the stored score) is
      stated there.
    - A Python [dict] is an association list in insertion order; a Python
      [set] of strings is a duplicate-free list (the iteration order of a
      set is unspecified in Python, the model fixes one).
    - The SQLAlchemy session is an in-memory record of tables ([World])
      whose writes succeed and are committed at once; the tokenizer, the
      model client and [json.loads] are parameters of the development.
    - An entry of the model reply is a JSON object whose present fields are
      well typed; an absent key is [None].
    - [datetime.utcnow()] is the argument [now] of the functions that read
      the clock; logging and the pause between requests have no effect on
      the modelled state and are left out. *)

From Stdlib Require Import List Bool Arith ZArith QArith Lia String Ascii.
From Stdlib Require Import Permutation Sorted DecimalString.
From Stdlib Require Floats Uint63 DecimalZ.
From Stdlib Require Import Lqa.
Import ListNotations.

Local Open Scope string_scope.
Local Open Scope list_scope.
Local Open Scope nat_scope.

Set Implicit Arguments.

(** ** Stored entities ([models/database.py]) *)

Record Message := mkMessage {
  msg_id : Z;
  msg_discord_id : string;
  msg_channel_id : Z;
  msg_author_id : string;
  msg_author_name : string;
  msg_content : string;
  msg_created_at : nat
}.

(** ** Batching ([LLMAnalyzer._create_message_batches]) *)

Section Batching.

(** [self.encoding.encode]: the tokenizer of the target model. *)
Variable encode : string -> list nat.

Definition msg_tokens (msg : Message) : nat :=
  List.length (encode (msg_content msg)).

(** Total token count of a batch. *)
Definition batch_tokens (batch : list Message) : nat :=
  list_sum (map msg_tokens batch).

Definition nonempty {A} (l : list A) : bool :=
  match l with [] => false | _ :: _ => true end.

(** The [for msg in messages] loop with its three accumulators, followed
    by the final flush. *)
Fixpoint batch_loop (max_tokens : nat) (messages : list Message)
    (batches : list (list Message)) (current_batch : list Message)
    (current_tokens : nat) : list (list Message) :=
  match messages with
  | [] =>
      if nonempty current_batch then batches ++ [current_batch] else batches
  | msg :: rest =>
      if (max_tokens <? current_tokens + msg_tokens msg)
         && nonempty current_batch
      then batch_loop max_tokens rest (batches ++ [current_batch])
             ([] ++ [msg]) (0 + msg_tokens msg)
      else batch_loop max_tokens rest batches
             (current_batch ++ [msg]) (current_tokens + msg_tokens msg)
  end.

Definition create_batches (max_tokens : nat) (messages : list Message) :=
  batch_loop max_tokens messages [] [] 0.

(** The budget is the local constant [max_tokens = 3000]. *)
Definition _create_message_batches (messages : list Message) :=
  create_batches 3000 messages.

(** A batch respects the budget, or is a lone oversized message. *)
Definition batch_ok (max_tokens : nat) (batch : list Message) : Prop :=
  batch_tokens batch <= max_tokens
  \/ exists msg, batch = [msg] /\ max_tokens < msg_tokens msg.

End Batching.

(** ** Scores and engagement ([LLMAnalyzer._calculate_engagement_level]) *)

(** [x > y] on scores. *)
Definition Qgtb (x y : Q) : bool := negb (Qle_bool x y).

Definition _calculate_engagement_level (score : Q) (message_count : nat)
  : string :=
  if Qgtb score 0.8 && (5 <? message_count) then "high"
  else if Qgtb score 0.6 || (3 <? message_count) then "medium"
  else "low".

(** ** Remaining tables *)

Record MessageAnalysis := mkMessageAnalysis {
  ma_message_id : Z;
  ma_intent_score : Q;
  ma_intent_type : string;
  ma_sentiment : string;
  ma_keywords : list string;
  ma_insights : string
}.

Record PotentialCustomer := mkPotentialCustomer {
  pc_discord_user_id : string;
  pc_username : string;
  pc_score : Q;
  pc_pain_points : list string;
  pc_interests : list string;
  pc_engagement_level : string;
  pc_first_seen : nat;
  pc_last_seen : nat;
  pc_message_count : nat;
  pc_updated_at : nat
}.

Record Insights := mkInsights {
  in_potential_customers_count : nat;
  in_messages_analyzed : nat;
  in_top_customers : list (string * Q)
}.

Record ChannelAnalysis := mkChannelAnalysis {
  ca_channel_id : Z;
  ca_analysis_type : string;
  ca_summary : string;
  ca_insights : Insights
}.

(** The persistent store together with the number of requests sent to the
    model so far. *)
Record World := mkWorld {
  messages : list Message;
  message_analyses : list MessageAnalysis;
  potential_customers : list PotentialCustomer;
  channel_analyses : list ChannelAnalysis;
  llm_calls : nat
}.

(** ** Exceptions and state *)

Inductive exn :=
| KeyError (key : string)
| AttributeError
| JSONDecodeError
| APIError
| ZeroDivisionError.

Inductive outcome (A : Type) :=
| Ok (a : A)
| Raise (e : exn).
Arguments Ok {A} a.
Arguments Raise {A} e.

(** A computation reads and writes the world and returns or raises; writes
    made before a raise stay (every write is committed at once). *)
Definition M (A : Type) := World -> outcome A * World.

Definition ret {A} (a : A) : M A := fun w => (Ok a, w).
Definition raise {A} (e : exn) : M A := fun w => (Raise e, w).
Definition bind {A B} (c : M A) (k : A -> M B) : M B :=
  fun w => match c w with
           | (Ok a, w') => k a w'
           | (Raise e, w') => (Raise e, w')
           end.
Definition try_except {A} (body : M A) (handler : exn -> M A) : M A :=
  fun w => match body w with
           | (Ok a, w') => (Ok a, w')
           | (Raise e, w') => handler e w'
           end.
Definition modify (f : World -> World) : M unit := fun w => (Ok tt, f w).

Notation "x <- c ;; k" := (bind c (fun x => k))
  (at level 61, c at next level, right associativity).
Notation "c ;;; k" := (bind c (fun _ => k))
  (at level 61, right associativity).

(** ** Python containers *)

(** [d.get(key, default)] on an optional field. *)
Definition get {A} (field : option A) (default : A) : A :=
  match field with Some v => v | None => default end.

(** [set(l)]: duplicates collapse. *)
Definition set_of_list (l : list string) : list string :=
  nodup string_dec l.

(** [s.update(l)] on a set [s]. *)
Definition set_update (s l : list string) : list string :=
  set_of_list (s ++ l).

Section Dict.
Variable V : Type.

Definition dict := list (string * V).

Fixpoint dict_get (d : dict) (key : string) : option V :=
  match d with
  | [] => None
  | (k, v) :: d' => if String.eqb k key then Some v else dict_get d' key
  end.

Definition dict_mem (d : dict) (key : string) : bool :=
  match dict_get d key with Some _ => true | None => false end.

(** [d[key] = v]: an existing key keeps its position, a new key goes last. *)
Fixpoint dict_set (d : dict) (key : string) (v : V) : dict :=
  match d with
  | [] => [(key, v)]
  | (k, v') :: d' =>
      if String.eqb k key then (k, v) :: d'
      else (k, v') :: dict_set d' key v
  end.
End Dict.

Section SortedReverse.
Variable A : Type.
(** [key_gt y x]: the key of [y] is greater than the key of [x]. *)
Variable key_gt : A -> A -> bool.

Fixpoint insert_desc (x : A) (l : list A) : list A :=
  match l with
  | [] => [x]
  | y :: l' => if key_gt y x then y :: insert_desc x l' else x :: y :: l'
  end.

(** [sorted(l, key=..., reverse=True)]: stable, descending. *)
Fixpoint sorted_reverse (l : list A) : list A :=
  match l with
  | [] => []
  | x :: l' => insert_desc x (sorted_reverse l')
  end.
End SortedReverse.

Definition string_of_nat (n : nat) : string :=
  NilEmpty.string_of_uint (Nat.to_uint n).

(** ** The model reply *)

(** One entry of the reply: a JSON object; [None] is an absent key. *)
Record Analysis := mkAnalysis {
  a_message_id : option Z;
  a_author : option string;
  a_intent_score : option Q;
  a_intent_type : option string;
  a_pain_points : option (list string);
  a_interests : option (list string);
  a_keywords : option (list string);
  a_explanation : option string
}.

(** What [json.loads] returns on a well-formed reply: a bare array, an
    object (with the value of its ['analyses'] key, if it has one), or a
    scalar. *)
Inductive reply :=
| ReplyArray (entries : list Analysis)
| ReplyObject (analyses : option (list Analysis))
| ReplyScalar.

(** The per-author accumulator of [_aggregate_analyses]. *)
Record AuthorData := mkAuthorData {
  ad_analyses : list Analysis;
  ad_pain_points : list string;
  ad_interests : list string;
  ad_total_score : Q;
  ad_message_count : nat
}.

(** An element of the result's ['potential_customers']. *)
Record Candidate := mkCandidate {
  c_username : string;
  c_score : Q;
  c_pain_points : list string;
  c_interests : list string;
  c_message_count : nat;
  c_engagement_level : string
}.

(** The dictionary returned by [analyze_channel]; the ['no_messages'] result
    has only two of the four keys. *)
Record AnalysisResult := mkAnalysisResult {
  r_status : string;
  r_total_messages_analyzed : option nat;
  r_potential_customers : list Candidate;
  r_summary : option string
}.

(** ** Merge into stored profiles ([LLMAnalyzer._update_potential_customer]) *)

(** Replace the first row that satisfies [p]. *)
Fixpoint update_first {A} (p : A -> bool) (f : A -> A) (rows : list A)
  : list A :=
  match rows with
  | [] => []
  | r :: rows' => if p r then f r :: rows' else r :: update_first p f rows'
  end.

Definition by_username (username : string) (c : PotentialCustomer) : bool :=
  String.eqb (pc_username c) username.

Definition _update_potential_customer (username : string) (data : AuthorData)
    (score : Q) (now : nat) (w : World) : World :=
  match find (by_username username) (potential_customers w) with
  | None =>
      let customer := {|
        pc_discord_user_id := username;
        pc_username := username;
        pc_score := score;
        pc_pain_points := ad_pain_points data;
        pc_interests := ad_interests data;
        pc_engagement_level :=
          _calculate_engagement_level score (ad_message_count data);
        pc_first_seen := now;
        pc_last_seen := now;
        pc_message_count := ad_message_count data;
        pc_updated_at := now |} in
      {| messages := messages w;
         message_analyses := message_analyses w;
         potential_customers := potential_customers w ++ [customer];
         channel_analyses := channel_analyses w;
         llm_calls := llm_calls w |}
  | Some _ =>
      let merge customer :=
        let new_score := ((pc_score customer + score) / 2)%Q in
        let new_count := pc_message_count customer + ad_message_count data in
        {| pc_discord_user_id := pc_discord_user_id customer;
           pc_username := pc_username customer;
           pc_score := new_score;
           pc_pain_points :=
             set_of_list (pc_pain_points customer ++ ad_pain_points data);
           pc_interests :=
             set_of_list (pc_interests customer ++ ad_interests data);
           pc_engagement_level :=
             _calculate_engagement_level new_score new_count;
           pc_first_seen := pc_first_seen customer;
           pc_last_seen := now;
           pc_message_count := new_count;
           pc_updated_at := now |} in
      {| messages := messages w;
         message_analyses := message_analyses w;
         potential_customers :=
           update_first (by_username username) merge (potential_customers w);
         channel_analyses := channel_analyses w;
         llm_calls := llm_calls w |}
  end.

(** ** Summary and snapshot *)

(** [d[key] = d.get(key, 0) + 1] for every pain point of every list. *)
Definition count_one (d : dict nat) (pain_point : string) : dict nat :=
  dict_set d pain_point (get (dict_get d pain_point) 0 + 1).

Definition count_pain_points (lists : list (list string)) : dict nat :=
  fold_left (fun d pain_points => fold_left count_one pain_points d) lists [].

Definition count_gt (y x : string * nat) : bool := snd x <? snd y.

Definition _generate_summary (potential_customers : list Candidate) : string :=
  match potential_customers with
  | [] => "No potential customers identified in this analysis."
  | _ =>
      let top_pain_points :=
        count_pain_points (map c_pain_points potential_customers) in
      let sorted_pain_points := sorted_reverse count_gt top_pain_points in
      let high :=
        List.length
          (filter (fun c => String.eqb (c_engagement_level c) "high")
             potential_customers) in
      ("Identified " ++ string_of_nat (List.length potential_customers)
       ++ " potential customers. "
       ++ "Top pain points: "
       ++ String.concat ", " (map fst (firstn 3 sorted_pain_points)) ++ ". "
       ++ "High engagement users: " ++ string_of_nat high)%string
  end.

Definition _save_channel_analysis (channel_id : Z) (results : AnalysisResult)
    (w : World) : World :=
  let analysis := {|
    ca_channel_id := channel_id;
    ca_analysis_type := "customer_intent";
    ca_summary := get (r_summary results) "";
    ca_insights := {|
      in_potential_customers_count :=
        List.length (r_potential_customers results);
      in_messages_analyzed := get (r_total_messages_analyzed results) 0;
      in_top_customers :=
        map (fun c => (c_username c, c_score c))
          (firstn 5 (r_potential_customers results)) |} |} in
  {| messages := messages w;
     message_analyses := message_analyses w;
     potential_customers := potential_customers w;
     channel_analyses := channel_analyses w ++ [analysis];
     llm_calls := llm_calls w |}.

(** ** Aggregation ([LLMAnalyzer._aggregate_analyses]) *)

Definition empty_author_data : AuthorData :=
  {| ad_analyses := [];
     ad_pain_points := set_of_list [];
     ad_interests := set_of_list [];
     ad_total_score := 0;
     ad_message_count := 0 |}.

(** The five updates of [author_data[author]] for one entry. *)
Definition add_analysis (analysis : Analysis) (data : AuthorData)
  : AuthorData :=
  {| ad_analyses := ad_analyses data ++ [analysis];
     ad_pain_points :=
       set_update (ad_pain_points data) (get (a_pain_points analysis) []);
     ad_interests :=
       set_update (ad_interests data) (get (a_interests analysis) []);
     ad_total_score :=
       (ad_total_score data + get (a_intent_score analysis) 0)%Q;
     ad_message_count := ad_message_count data + 1 |}.

(** The grouping loop; [analysis['author']] raises on an absent key. *)
Fixpoint group_by_author (analyses : list Analysis)
    (author_data : dict AuthorData) : outcome (dict AuthorData) :=
  match analyses with
  | [] => Ok author_data
  | analysis :: rest =>
      match a_author analysis with
      | None => Raise (KeyError "author")
      | Some author =>
          let data := get (dict_get author_data author) empty_author_data in
          group_by_author rest
            (dict_set author_data author (add_analysis analysis data))
      end
  end.

Definition Q_of_nat (n : nat) : Q := inject_Z (Z.of_nat n).

(** The loop over [author_data.items()]: averages, threshold, merge. *)
Fixpoint select_candidates (now : nat) (items : dict AuthorData)
    (potential_customers : list Candidate) : M (list Candidate) :=
  match items with
  | [] => ret potential_customers
  | (author, data) :: rest =>
      match ad_message_count data with
      | O => raise ZeroDivisionError
      | S _ =>
          let avg_score :=
            (ad_total_score data / Q_of_nat (ad_message_count data))%Q in
          if Qgtb avg_score 0.5 then
            modify (_update_potential_customer author data avg_score now) ;;;
            select_candidates now rest
              (potential_customers ++
               [{| c_username := author;
                   c_score := avg_score;
                   c_pain_points := ad_pain_points data;
                   c_interests := ad_interests data;
                   c_message_count := ad_message_count data;
                   c_engagement_level :=
                     _calculate_engagement_level avg_score
                       (ad_message_count data) |}])
          else select_candidates now rest potential_customers
      end
  end.

Definition score_gt (y x : Candidate) : bool := Qgtb (c_score y) (c_score x).

Definition _aggregate_analyses (now : nat) (analyses : list Analysis)
  : M AnalysisResult :=
  match group_by_author analyses [] with
  | Raise e => raise e
  | Ok author_data =>
      potential_customers <- select_candidates now author_data [] ;;
      let potential_customers := sorted_reverse score_gt potential_customers in
      ret {| r_status := "success";
             r_total_messages_analyzed := Some (List.length analyses);
             r_potential_customers := potential_customers;
             r_summary := Some (_generate_summary potential_customers) |}
  end.

(** ** Per-message persistence ([LLMAnalyzer._save_message_analysis]) *)

Definition _save_message_analysis (message : Message) (analysis : Analysis)
    (w : World) : World :=
  match find (fun ma => Z.eqb (ma_message_id ma) (msg_id message))
          (message_analyses w) with
  | Some _ => w
  | None =>
      let msg_analysis := {|
        ma_message_id := msg_id message;
        ma_intent_score := get (a_intent_score analysis) 0%Q;
        ma_intent_type := get (a_intent_type analysis) "";
        ma_sentiment := "neutral";
        ma_keywords := get (a_keywords analysis) [];
        ma_insights := get (a_explanation analysis) "" |} in
      {| messages := messages w;
         message_analyses := message_analyses w ++ [msg_analysis];
         potential_customers := potential_customers w;
         channel_analyses := channel_analyses w;
         llm_calls := llm_calls w |}
  end.

(** ** One batch and one run *)

Section Pipeline.

(** The tokenizer, as in section [Batching]. *)
Variable encode : string -> list nat.

(** [self.client.chat.completions.create]: the text of the reply to the
    request number [n] for a batch, or [None] when the call raises.  The
    prompt is a function of the batch and of the settings. *)
Variable llm : nat -> list Message -> option string.

(** [json.loads]; [None] when it raises. *)
Variable json_loads : string -> option reply.

Definition chat_completions_create (batch : list Message) : M string :=
  fun w =>
    let w' := {| messages := messages w;
                 message_analyses := message_analyses w;
                 potential_customers := potential_customers w;
                 channel_analyses := channel_analyses w;
                 llm_calls := llm_calls w + 1 |} in
    match llm (llm_calls w) batch with
    | Some content => (Ok content, w')
    | None => (Raise APIError, w')
    end.

(** [for analysis in analyses]: look the message up, save when found. *)
Fixpoint save_analyses (batch : list Message) (analyses : list Analysis)
  : M unit :=
  match analyses with
  | [] => ret tt
  | analysis :: rest =>
      match a_message_id analysis with
      | None => raise (KeyError "message_id")
      | Some message_id =>
          match find (fun m => Z.eqb (msg_id m) message_id) batch with
          | Some msg =>
              modify (_save_message_analysis msg analysis) ;;;
              save_analyses batch rest
          | None => save_analyses batch rest
          end
      end
  end.

Definition _analyze_message_batch (batch : list Message)
  : M (list Analysis) :=
  try_except
    (content <- chat_completions_create batch ;;
     result <- match json_loads content with
               | Some r => ret r
               | None => raise JSONDecodeError
               end ;;
     analyses <- match result with
                 | ReplyArray entries => ret entries
                 | ReplyObject field => ret (get field [])
                 | ReplyScalar => raise AttributeError
                 end ;;
     save_analyses batch analyses ;;;
     ret analyses)
    (fun _ => ret []).

(** [for i, batch in enumerate(batches)] with [all_analyses.extend]. *)
Fixpoint analyze_batches (batches : list (list Message))
    (all_analyses : list Analysis) : M (list Analysis) :=
  match batches with
  | [] => ret all_analyses
  | batch :: rest =>
      batch_analysis <- _analyze_message_batch batch ;;
      analyze_batches rest (all_analyses ++ batch_analysis)
  end.

Definition analyze_channel (channel_id : Z) (now : nat)
  : M AnalysisResult :=
  fun w =>
    let msgs :=
      filter (fun m => Z.eqb (msg_channel_id m) channel_id) (messages w) in
    match msgs with
    | [] => (Ok {| r_status := "no_messages";
                   r_total_messages_analyzed := None;
                   r_potential_customers := [];
                   r_summary := None |}, w)
    | _ =>
        (let batches := _create_message_batches encode msgs in
         all_analyses <- analyze_batches batches [] ;;
         aggregated_results <- _aggregate_analyses now all_analyses ;;
         modify (_save_channel_analysis channel_id aggregated_results) ;;;
         ret aggregated_results) w
    end.

End Pipeline.

(** ** Report ([LLMAnalyzer.generate_customer_report]) *)

Record CustomerRow := mkCustomerRow {
  cr_username : string;
  cr_score : Q;
  cr_engagement_level : string;
  cr_pain_points : list string;
  cr_interests : list string
}.

(** The report dictionary; the empty report has no ['customers'] key. *)
Record Report := mkReport {
  total_customers : nat;
  high_priority_count : nat;
  total_messages : nat;
  top_pain_points : list (string * nat);
  customers : option (list CustomerRow)
}.

Definition pc_score_gt (y x : PotentialCustomer) : bool :=
  Qgtb (pc_score y) (pc_score x).

Definition generate_customer_report (w : World) : Report :=
  match potential_customers w with
  | [] => {| total_customers := 0;
             high_priority_count := 0;
             total_messages := 0;
             top_pain_points := [];
             customers := None |}
  | _ =>
      let customers := potential_customers w in
      let all_pain_points := count_pain_points (map pc_pain_points customers) in
      let sorted_pain_points := sorted_reverse count_gt all_pain_points in
      {| total_customers := List.length customers;
         high_priority_count :=
           List.length
             (filter (fun c => String.eqb (pc_engagement_level c) "high")
                customers);
         total_messages := list_sum (map pc_message_count customers);
         top_pain_points := firstn 10 sorted_pain_points;
         customers :=
           Some (map (fun c => {| cr_username := pc_username c;
                                  cr_score := pc_score c;
                                  cr_engagement_level := pc_engagement_level c;
                                  cr_pain_points := firstn 5 (pc_pain_points c);
                                  cr_interests := firstn 5 (pc_interests c) |})
                   (firstn 20 (sorted_reverse pc_score_gt customers))) |}
  end.

(** ** Text limits ([utils/formatters.py]) *)

(** The first [n] characters of [s]. *)
Fixpoint take (n : nat) (s : string) : string :=
  match n, s with
  | S n', String c s' => String c (take n' s')
  | _, _ => ""
  end.

(** [text[:stop]]: a negative [stop] counts from the end of the text and
    is clamped at its start. *)
Definition slice_to (text : string) (stop : Z) : string :=
  if (stop <? 0)%Z
  then take (Z.to_nat (Z.of_nat (String.length text) + stop)) text
  else take (Z.to_nat stop) text.

Definition truncate_text (text : string) (max_length : Z) : string :=
  if (Z.of_nat (String.length text) <=? max_length)%Z then text
  else (slice_to text (max_length - 3) ++ "...")%string.

(** ** Configuration and start-up ([config/settings.py], [main.py]) *)

Record Settings := mkSettings {
  DISCORD_BOT_TOKEN : string;
  OPENAI_API_KEY : string
}.

(** [not s] on a string. *)
Definition is_empty (s : string) : bool :=
  match s with EmptyString => true | String _ _ => false end.

Definition validate (settings : Settings) : list string :=
  let errors := [] in
  let errors :=
    if is_empty (DISCORD_BOT_TOKEN settings)
    then errors ++ ["DISCORD_BOT_TOKEN is required"]
    else errors in
  let errors :=
    if is_empty (OPENAI_API_KEY settings)
    then errors ++ ["OPENAI_API_KEY is required"]
    else errors in
  errors.

(** What [main] does to the outside, in order; console output is the
    [Print] of a configuration error, the other lines are left out. *)
Inductive action :=
| PrintError (error : string)
| InitDb
| StartBot (token : string)
| CloseBot.

(** [main]: the result of [bot.start] (it returns or raises) does not
    change what follows, [bot.close] runs in the [finally] clause. *)
Definition main (settings : Settings) : list action :=
  let errors := validate settings in
  if nonempty errors then map PrintError errors
  else [InitDb; StartBot (DISCORD_BOT_TOKEN settings); CloseBot].

(** ** Message intake ([bot/discord_bot.py]) and status ([bot/commands.py]) *)

Record Channel := mkChannel {
  ch_id : Z;
  ch_discord_id : string;
  ch_guild_id : Z;
  ch_name : string;
  ch_type : string;
  ch_last_analyzed : option nat
}.

(** What the code reads of a [discord.Message]. *)
Record DiscordMessage := mkDiscordMessage {
  dm_id : Z;
  dm_channel_id : Z;
  dm_author_id : Z;
  dm_author_name : string;
  dm_author_bot : bool;
  dm_content : string;
  dm_created_at : nat
}.

(** A [Message] object that was added to the session and is not inserted
    yet; the insert assigns its primary key. *)
Record NewMessage := mkNewMessage {
  nm_discord_id : string;
  nm_channel_id : Z;
  nm_author_id : string;
  nm_author_name : string;
  nm_content : string;
  nm_created_at : nat
}.

(** A session of [SessionLocal] (autoflush is off): the rows of the
    database and the objects added since the last commit, which queries do
    not see. *)
Record Session := mkSession {
  s_channels : list Channel;
  s_messages : list Message;
  s_pending : list NewMessage
}.

Inductive db_result :=
| DbOk
| IntegrityError.

(** [str] of an integer. *)
Definition str (z : Z) : string := NilEmpty.string_of_int (Z.to_int z).

(** The key of the next inserted row: one more than the largest key. *)
Definition next_id (table : list Message) : Z :=
  (1 + fold_right Z.max 0 (map msg_id table))%Z.

Definition insert_message (table : list Message) (row : NewMessage)
  : list Message :=
  table ++ [{| msg_id := next_id table;
               msg_discord_id := nm_discord_id row;
               msg_channel_id := nm_channel_id row;
               msg_author_id := nm_author_id row;
               msg_author_name := nm_author_name row;
               msg_content := nm_content row;
               msg_created_at := nm_created_at row |}].

(** The inserts of a flush, in the order of [db.add]; [None] when a row
    repeats a stored [discord_id], which the column declares unique. *)
Fixpoint flush (table : list Message) (pending : list NewMessage)
  : option (list Message) :=
  match pending with
  | [] => Some table
  | row :: rest =>
      if existsb (fun m => String.eqb (msg_discord_id m) (nm_discord_id row))
           table
      then None
      else flush (insert_message table row) rest
  end.

(** [db.commit()]: all pending rows are stored, or none is and the call
    raises. *)
Definition commit (s : Session) : db_result * Session :=
  match flush (s_messages s) (s_pending s) with
  | Some table =>
      (DbOk, {| s_channels := s_channels s;
                s_messages := table;
                s_pending := [] |})
  | None =>
      (IntegrityError, {| s_channels := s_channels s;
                          s_messages := s_messages s;
                          s_pending := [] |})
  end.

(** [db.add(obj)]. *)
Definition add (row : NewMessage) (s : Session) : Session :=
  {| s_channels := s_channels s;
     s_messages := s_messages s;
     s_pending := s_pending s ++ [row] |}.

(** The [Message(...)] both intake paths build. *)
Definition new_message (db_channel : Channel) (msg : DiscordMessage)
  : NewMessage :=
  {| nm_discord_id := str (dm_id msg);
     nm_channel_id := ch_id db_channel;
     nm_author_id := str (dm_author_id msg);
     nm_author_name := dm_author_name msg;
     nm_content := dm_content msg;
     nm_created_at := dm_created_at msg |}.

(** [db.query(Channel).filter_by(discord_id=str(channel_id)).first()]. *)
Definition find_channel (channel_id : Z) (s : Session) : option Channel :=
  find (fun c => String.eqb (ch_discord_id c) (str channel_id))
    (s_channels s).

(** The [for msg in messages] loop of [save_messages_to_db]. *)
Fixpoint save_loop (db_channel : Channel) (msgs : list DiscordMessage)
    (saved_count : nat) (s : Session) : db_result * Session :=
  match msgs with
  | [] => (DbOk, s)
  | msg :: rest =>
      if dm_author_bot msg then save_loop db_channel rest saved_count s
      else
        match find (fun m => String.eqb (msg_discord_id m) (str (dm_id msg)))
                (s_messages s) with
        | Some _ => save_loop db_channel rest saved_count s
        | None =>
            let s1 := add (new_message db_channel msg) s in
            let saved_count := saved_count + 1 in
            if saved_count mod 100 =? 0 then
              match commit s1 with
              | (DbOk, s2) => save_loop db_channel rest saved_count s2
              | (IntegrityError, s2) => (IntegrityError, s2)
              end
            else save_loop db_channel rest saved_count s1
        end
  end.

Definition set_last_analyzed (db_channel : Channel) (now : nat) (s : Session)
  : Session :=
  {| s_channels :=
       update_first (fun c => Z.eqb (ch_id c) (ch_id db_channel))
         (fun c => {| ch_id := ch_id c;
                      ch_discord_id := ch_discord_id c;
                      ch_guild_id := ch_guild_id c;
                      ch_name := ch_name c;
                      ch_type := ch_type c;
                      ch_last_analyzed := Some now |})
         (s_channels s);
     s_messages := s_messages s;
     s_pending := s_pending s |}.

Definition save_messages_to_db (channel_id : Z) (msgs : list DiscordMessage)
    (now : nat) (s : Session) : db_result * Session :=
  match find_channel channel_id s with
  | None => (DbOk, s)
  | Some db_channel =>
      match save_loop db_channel msgs 0 s with
      | (IntegrityError, s1) => (IntegrityError, s1)
      | (DbOk, s1) =>
          match commit s1 with
          | (IntegrityError, s2) => (IntegrityError, s2)
          | (DbOk, s2) => commit (set_last_analyzed db_channel now s2)
          end
      end
  end.

(** [save_single_message], the path of [on_message]: no look-up of the
    message before the insert. *)
Definition save_single_message (message : DiscordMessage) (s : Session)
  : db_result * Session :=
  match find_channel (dm_channel_id message) s with
  | Some db_channel => commit (add (new_message db_channel message) s)
  | None => (DbOk, s)
  end.

(** The two fields of the embed of [analyze_status]. *)
Record Status := mkStatus {
  st_analyzed : nat;
  st_total : nat;
  st_most_recent : option nat
}.

(** [max(..., default=None)] over the timestamps that are set. *)
Definition most_recent (channels : list Channel) : option nat :=
  fold_left (fun best c =>
               match ch_last_analyzed c, best with
               | Some t, Some b => Some (Nat.max b t)
               | Some t, None => Some t
               | None, _ => best
               end) channels None.

Definition analyze_status (guild_id : Z) (s : Session) : Status :=
  let channels :=
    filter (fun c => String.eqb (ch_discord_id c) (str guild_id))
      (s_channels s) in
  {| st_analyzed :=
       List.length
         (filter (fun c => match ch_last_analyzed c with
                           | Some _ => true
                           | None => false
                           end) channels);
     st_total := List.length channels;
     st_most_recent := most_recent channels |}.

(** * Reference definitions and sample data

    What the properties below are stated with: the quantities the
    specification names, and concrete inputs to run the model on. *)

Unset Implicit Arguments.

(** A tokenizer for concrete runs: one token per character. *)
Definition char_encode (s : string) : list nat :=
  map (fun c => nat_of_ascii c) (list_ascii_of_string s).

Definition sample_message (id : Z) (author content : string) : Message :=
  {| msg_id := id;
     msg_discord_id := "d";
     msg_channel_id := 7;
     msg_author_id := author;
     msg_author_name := author;
     msg_content := content;
     msg_created_at := 0 |}.

Definition sample_messages : list Message :=
  [ sample_message 1 "alice" "abc";
    sample_message 2 "bob" "de";
    sample_message 3 "alice" "abcdefgh";
    sample_message 4 "carol" "";
    sample_message 5 "bob" "abcde";
    sample_message 6 "alice" "a" ].

(** [db.query(PotentialCustomer).filter_by(username=...).first()]. *)
Definition find_customer (username : string) (w : World)
  : option PotentialCustomer :=
  find (by_username username) (potential_customers w).


Definition empty_world : World :=
  {| messages := [];
     message_analyses := [];
     potential_customers := [];
     channel_analyses := [];
     llm_calls := 0 |}.

(** The records of one author, in reply order. *)
Definition records_of (author : string) (analyses : list Analysis)
  : list Analysis :=
  filter (fun a => match a_author a with
                   | Some x => String.eqb x author
                   | None => false
                   end) analyses.

Definition score_sum (records : list Analysis) : Q :=
  fold_left (fun acc a => (acc + get (a_intent_score a) 0)%Q) records 0%Q.

(** Sum of the author's scores divided by the number of their records. *)
Definition average_score (author : string) (analyses : list Analysis) : Q :=
  (score_sum (records_of author analyses)
   / Q_of_nat (List.length (records_of author analyses)))%Q.

(** The accumulator after the given records of one author. *)
Definition data_of (records : list Analysis) : AuthorData :=
  fold_left (fun data a => add_analysis a data) records empty_author_data.

(** [author_data] after the loop has consumed [seen]. *)
Definition grouped (seen : list Analysis) (d : dict AuthorData) : Prop :=
  NoDup (map fst d)
  /\ forall author,
       dict_get d author
       = match records_of author seen with
         | [] => None
         | _ :: _ => Some (data_of (records_of author seen))
         end.

Definition sample_entry (id : Z) (author : string) (score : Q) : Analysis :=
  {| a_message_id := Some id;
     a_author := Some author;
     a_intent_score := Some score;
     a_intent_type := None;
     a_pain_points := Some ["slow builds"];
     a_interests := None;
     a_keywords := None;
     a_explanation := None |}.

Definition sample_entries : list Analysis :=
  [ sample_entry 1 "alice" 0.9;
    sample_entry 2 "bob" 0.1;
    sample_entry 3 "alice" 0.8;
    sample_entry 5 "bob" 0.2;
    sample_entry 6 "alice" 0.85 ].

(** The world after one more request to the model; the store is the same. *)
Definition called (w : World) : World :=
  {| messages := messages w;
     message_analyses := message_analyses w;
     potential_customers := potential_customers w;
     channel_analyses := channel_analyses w;
     llm_calls := llm_calls w + 1 |}.

Definition sample_llm (n : nat) (batch : list Message) : option string :=
  Some (match n with
        | 1 => "I could not find any customer intent."
        | _ => "[...]"
        end).

Definition sample_json_loads (content : string) : option reply :=
  if String.eqb content "[...]"
  then Some (ReplyObject (Some sample_entries))
  else None.



Definition after_first_batch : World :=
  snd (analyze_batches sample_llm sample_json_loads
         [[sample_message 1 "alice" "abc"; sample_message 2 "bob" "de"]]
         [] empty_world).

Definition other_channel_world : World :=
  {| messages := sample_messages;
     message_analyses := [];
     potential_customers := [];
     channel_analyses := [];
     llm_calls := 3 |}.

(** The entry with every optional field that [.get] reads made explicit. *)
Definition with_defaults (a : Analysis) : Analysis :=
  {| a_message_id := a_message_id a;
     a_author := a_author a;
     a_intent_score := Some (get (a_intent_score a) 0%Q);
     a_intent_type := Some (get (a_intent_type a) "");
     a_pain_points := Some (get (a_pain_points a) []);
     a_interests := Some (get (a_interests a) []);
     a_keywords := Some (get (a_keywords a) []);
     a_explanation := Some (get (a_explanation a) "") |}.

(** An entry that has a [message_id] and nothing else. *)
Definition anonymous_entry : Analysis :=
  {| a_message_id := Some 1%Z;
     a_author := None;
     a_intent_score := None;
     a_intent_type := None;
     a_pain_points := None;
     a_interests := None;
     a_keywords := None;
     a_explanation := None |}.

(** Two accumulators that agree on everything the selection loop reads. *)
Definition same_totals (x y : AuthorData) : Prop :=
  ad_pain_points x = ad_pain_points y
  /\ ad_interests x = ad_interests y
  /\ ad_total_score x = ad_total_score y
  /\ ad_message_count x = ad_message_count y.

Definition dict_same (d1 d2 : dict AuthorData) : Prop :=
  Forall2 (fun p q => fst p = fst q /\ same_totals (snd p) (snd q)) d1 d2.

(** The number of profiles (given by their pain-point lists) that name [p]. *)
Definition profiles_with (p : string) (lists : list (list string)) : nat :=
  List.length (filter (fun l => existsb (String.eqb p) l) lists).

(** The count the dictionary holds for [p], 0 when [p] is not a key. *)
Definition tally (d : dict nat) (p : string) : nat := get (dict_get d p) 0.

Definition positive_counts (d : dict nat) : Prop :=
  Forall (fun kv => 1 <= snd kv) d.

Definition by_count_desc (x y : string * nat) : Prop := snd y <= snd x.

Definition sample_profile (name : string) (pain_points : list string)
  : PotentialCustomer :=
  {| pc_discord_user_id := name;
     pc_username := name;
     pc_score := 0.9;
     pc_pain_points := pain_points;
     pc_interests := [];
     pc_engagement_level := "medium";
     pc_first_seen := 1;
     pc_last_seen := 1;
     pc_message_count := 2;
     pc_updated_at := 1 |}.

Definition sample_store : World :=
  {| messages := [];
     message_analyses := [];
     potential_customers :=
       [ sample_profile "alice" ["A"; "B"];
         sample_profile "bob" ["A"];
         sample_profile "carol" ["C"] ];
     channel_analyses := [];
     llm_calls := 0 |}.

(** Two batches that the greedy scan could not have merged: the first
    message of the second does not fit after the first. *)
Definition cannot_merge (encode : string -> list nat) (max_tokens : nat)
    (b1 b2 : list Message) : Prop :=
  exists msg rest,
    b2 = msg :: rest
    /\ max_tokens < batch_tokens encode b1 + msg_tokens encode msg.

(** The message ids that have a stored analysis. *)
Definition analysis_ids (w : World) : list Z :=
  map ma_message_id (message_analyses w).


(** What the analysis of batches may do to the world: send [n] requests
    and append message analyses, keeping their message ids distinct. *)
Definition batch_frame (n : nat) (w w' : World) : Prop :=
  messages w' = messages w
  /\ potential_customers w' = potential_customers w
  /\ channel_analyses w' = channel_analyses w
  /\ llm_calls w' = llm_calls w + n
  /\ (exists added, message_analyses w' = message_analyses w ++ added)
  /\ (NoDup (analysis_ids w) -> NoDup (analysis_ids w')).

(** What aggregation may do to the world: write profiles, nothing else. *)
Definition profile_frame (w w' : World) : Prop :=
  messages w' = messages w
  /\ message_analyses w' = message_analyses w
  /\ channel_analyses w' = channel_analyses w
  /\ llm_calls w' = llm_calls w.




Definition scalar_json_loads (content : string) : option reply :=
  Some ReplyScalar.

(** A store that holds the sample messages (all of channel 7). *)
Definition sample_world : World :=
  {| messages := sample_messages;
     message_analyses := [];
     potential_customers := [];
     channel_analyses := [];
     llm_calls := 0 |}.

Definition anonymous_json_loads (content : string) : option reply :=
  Some (ReplyArray [sample_entry 1 "alice" 0.9; anonymous_entry]).

(** The test of the selection loop on one item of [author_data]. *)
Definition qualifies (item : string * AuthorData) : bool :=
  Qgtb (ad_total_score (snd item) / Q_of_nat (ad_message_count (snd item)))
    0.5.

(** The candidate the selection loop appends for an item. *)
Definition candidate_of (item : string * AuthorData) : Candidate :=
  let avg_score :=
    (ad_total_score (snd item) / Q_of_nat (ad_message_count (snd item)))%Q in
  {| c_username := fst item;
     c_score := avg_score;
     c_pain_points := ad_pain_points (snd item);
     c_interests := ad_interests (snd item);
     c_message_count := ad_message_count (snd item);
     c_engagement_level :=
       _calculate_engagement_level avg_score (ad_message_count (snd item)) |}.

Definition by_score_desc (x y : Candidate) : Prop :=
  (c_score y <= c_score x)%Q.

(** The stored level is the level of the stored score and count. *)
Definition consistent (p : PotentialCustomer) : Prop :=
  pc_engagement_level p
  = _calculate_engagement_level (pc_score p) (pc_message_count p).

(** A profile and what a later state of the store holds in its place. *)
Definition grows (old new : PotentialCustomer) : Prop :=
  pc_username new = pc_username old
  /\ pc_discord_user_id new = pc_discord_user_id old
  /\ pc_first_seen new = pc_first_seen old
  /\ pc_message_count old <= pc_message_count new
  /\ (forall p, In p (pc_pain_points old) -> In p (pc_pain_points new))
  /\ (forall p, In p (pc_interests old) -> In p (pc_interests new)).

(** Every row is still there, in place and grown; new rows come last. *)
Definition store_grows (rows rows' : list PotentialCustomer) : Prop :=
  exists kept added, rows' = kept ++ added /\ Forall2 grows rows kept.

Definition unit_score (q : Q) : Prop := (0 <= q)%Q /\ (q <= 1)%Q.

(** A store with one profile, for alice. *)
Definition alice_store : World :=
  {| messages := [];
     message_analyses := [];
     potential_customers := [sample_profile "alice" ["A"; "B"]];
     channel_analyses := [];
     llm_calls := 0 |}.

(** The order of the three levels. *)
Definition level_rank (level : string) : nat :=
  if String.eqb level "high" then 2
  else if String.eqb level "medium" then 1
  else 0.

Definition by_row_score_desc (x y : CustomerRow) : Prop :=
  (cr_score y <= cr_score x)%Q.

Definition sample_settings : Settings :=
  {| DISCORD_BOT_TOKEN := "token"; OPENAI_API_KEY := "" |}.

(** The [discord_id]s of a table and of the pending rows. *)
Definition table_ids (table : list Message) : list string :=
  map msg_discord_id table.

Definition pending_ids (pending : list NewMessage) : list string :=
  map nm_discord_id pending.

Definition insert_all (table : list Message) (rows : list NewMessage)
  : list Message :=
  fold_left insert_message rows table.

(** The table as the next flush leaves it. *)
Definition flushed (s : Session) : list Message :=
  insert_all (s_messages s) (s_pending s).

(** The messages of a fetch that an intake has to store: written by a
    person and not under one of the given ids yet. *)
Definition to_save (ids : list string) (msgs : list DiscordMessage)
  : list DiscordMessage :=
  filter (fun msg =>
            negb (dm_author_bot msg)
            && negb (existsb (String.eqb (str (dm_id msg))) ids)) msgs.

Definition by_person (msgs : list DiscordMessage) : list DiscordMessage :=
  filter (fun msg => negb (dm_author_bot msg)) msgs.

Definition sample_channel : Channel :=
  {| ch_id := 7;
     ch_discord_id := str 700;
     ch_guild_id := 1;
     ch_name := "general";
     ch_type := "text";
     ch_last_analyzed := None |}.

Definition sample_discord_message (id : Z) (bot : bool) (content : string)
  : DiscordMessage :=
  {| dm_id := id;
     dm_channel_id := 700;
     dm_author_id := 42;
     dm_author_name := "alice";
     dm_author_bot := bot;
     dm_content := content;
     dm_created_at := 3 |}.

Definition sample_fetch : list DiscordMessage :=
  [ sample_discord_message 1001 false "need help with billing";
    sample_discord_message 1002 true "welcome";
    sample_discord_message 1003 false "any recommendation?" ].

(** A session whose table already holds message 1001. *)
Definition sample_session : Session :=
  {| s_channels := [sample_channel];
     s_messages :=
       insert_message []
         (new_message sample_channel
            (sample_discord_message 1001 false "need help with billing"));
     s_pending := [] |}.

(** A guild (discord id 900) with two text channels of its own. *)
Definition guild_session : Session :=
  {| s_channels :=
       [ {| ch_id := 1; ch_discord_id := str 901; ch_guild_id := 1;
            ch_name := "general"; ch_type := "text";
            ch_last_analyzed := Some 5 |};
         {| ch_id := 2; ch_discord_id := str 902; ch_guild_id := 1;
            ch_name := "support"; ch_type := "text";
            ch_last_analyzed := Some 9 |} ];
     s_messages := [];
     s_pending := [] |}.

(** The score arithmetic of the sample points of the specification with
    IEEE binary64 numbers, as Python evaluates it. *)

Set Warnings "-inexact-float".

Module Binary64.
Import PrimFloat.

Definition _calculate_engagement_level (score : float) (message_count : nat)
  : string :=
  if ltb 0.8%float score && (5 <? message_count) then "high"
  else if ltb 0.6%float score || (3 <? message_count) then "medium"
  else "low".

(** [(customer.score + score) / 2]. *)
Definition merged_score (old_score score : float) : float :=
  div (add old_score score) 2%float.

(** [total_score / message_count] for scores added to the integer 0. *)
Definition average (scores : list float) : float :=
  div (fold_left add scores 0%float)
      (of_uint63 (Uint63.of_Z (Z.of_nat (List.length scores)))).

End Binary64.

(** * Aggregation in binary64

    [_aggregate_analyses] and [_update_potential_customer] once more, with
    the scores as Python has them: IEEE binary64 numbers.  [json.loads]
    reads a number as a float (an integer score stands for the float of the
    same value); the total starts at the integer 0, and each addition, the
    division by the count and the division by 2 of the merge round to the
    nearest float; the comparisons are those of the floats.

    The state is the table of profiles alone.  Its column
    [discord_user_id] is unique: [db.commit()] raises on the insert of a
    profile under an id that a row already has, the handler of
    [_update_potential_customer] rolls the session back and the table is
    as before.  No other write fails, and no column read is NULL.

    With a NaN among the scores the order [list.sort] leaves is not the
    one of [sorted_reverse]; which candidates are returned, and with which
    fields, does not depend on the order. *)

Module F64.
Import PrimFloat.

Record PotentialCustomer := mkPotentialCustomer {
  pc_discord_user_id : string;
  pc_username : string;
  pc_score : float;
  pc_pain_points : list string;
  pc_interests : list string;
  pc_engagement_level : string;
  pc_first_seen : nat;
  pc_last_seen : nat;
  pc_message_count : nat;
  pc_updated_at : nat
}.

(** One entry of the reply; [None] is an absent key. *)
Record Analysis := mkAnalysis {
  a_message_id : option Z;
  a_author : option string;
  a_intent_score : option float;
  a_intent_type : option string;
  a_pain_points : option (list string);
  a_interests : option (list string);
  a_keywords : option (list string);
  a_explanation : option string
}.

Record AuthorData := mkAuthorData {
  ad_analyses : list Analysis;
  ad_pain_points : list string;
  ad_interests : list string;
  ad_total_score : float;
  ad_message_count : nat
}.

Record Candidate := mkCandidate {
  c_username : string;
  c_score : float;
  c_pain_points : list string;
  c_interests : list string;
  c_message_count : nat;
  c_engagement_level : string
}.

Record AnalysisResult := mkAnalysisResult {
  r_status : string;
  r_total_messages_analyzed : option nat;
  r_potential_customers : list Candidate;
  r_summary : option string
}.

(** The float of a count; a Python list has fewer than 2^63 elements. *)
Definition of_int (n : nat) : float := of_uint63 (Uint63.of_Z (Z.of_nat n)).

Definition _calculate_engagement_level (score : float) (message_count : nat)
  : string :=
  if ltb 0.8%float score && (5 <? message_count) then "high"
  else if ltb 0.6%float score || (3 <? message_count) then "medium"
  else "low".

Definition by_username (username : string) (c : PotentialCustomer) : bool :=
  String.eqb (pc_username c) username.

Definition _update_potential_customer (username : string) (data : AuthorData)
    (score : float) (now : nat) (rows : list PotentialCustomer)
  : list PotentialCustomer :=
  match find (by_username username) rows with
  | None =>
      let customer := {|
        pc_discord_user_id := username;
        pc_username := username;
        pc_score := score;
        pc_pain_points := ad_pain_points data;
        pc_interests := ad_interests data;
        pc_engagement_level :=
          _calculate_engagement_level score (ad_message_count data);
        pc_first_seen := now;
        pc_last_seen := now;
        pc_message_count := ad_message_count data;
        pc_updated_at := now |} in
      (* db.add(customer); db.commit(), or the rollback of the handler *)
      if existsb (fun r => String.eqb (pc_discord_user_id r) username) rows
      then rows
      else rows ++ [customer]
  | Some _ =>
      let merge customer :=
        let new_score := div (add (pc_score customer) score) 2%float in
        let new_count := pc_message_count customer + ad_message_count data in
        {| pc_discord_user_id := pc_discord_user_id customer;
           pc_username := pc_username customer;
           pc_score := new_score;
           pc_pain_points :=
             set_of_list (pc_pain_points customer ++ ad_pain_points data);
           pc_interests :=
             set_of_list (pc_interests customer ++ ad_interests data);
           pc_engagement_level :=
             _calculate_engagement_level new_score new_count;
           pc_first_seen := pc_first_seen customer;
           pc_last_seen := now;
           pc_message_count := new_count;
           pc_updated_at := now |} in
      update_first (by_username username) merge rows
  end.

Definition _generate_summary (potential_customers : list Candidate) : string :=
  match potential_customers with
  | [] => "No potential customers identified in this analysis."
  | _ =>
      let top_pain_points :=
        count_pain_points (map c_pain_points potential_customers) in
      let sorted_pain_points := sorted_reverse count_gt top_pain_points in
      let high :=
        List.length
          (filter (fun c => String.eqb (c_engagement_level c) "high")
             potential_customers) in
      ("Identified " ++ string_of_nat (List.length potential_customers)
       ++ " potential customers. "
       ++ "Top pain points: "
       ++ String.concat ", " (map fst (firstn 3 sorted_pain_points)) ++ ". "
       ++ "High engagement users: " ++ string_of_nat high)%string
  end.

Definition empty_author_data : AuthorData :=
  {| ad_analyses := [];
     ad_pain_points := set_of_list [];
     ad_interests := set_of_list [];
     ad_total_score := 0%float;
     ad_message_count := 0 |}.

Definition add_analysis (analysis : Analysis) (data : AuthorData)
  : AuthorData :=
  {| ad_analyses := ad_analyses data ++ [analysis];
     ad_pain_points :=
       set_update (ad_pain_points data) (get (a_pain_points analysis) []);
     ad_interests :=
       set_update (ad_interests data) (get (a_interests analysis) []);
     ad_total_score :=
       add (ad_total_score data) (get (a_intent_score analysis) 0%float);
     ad_message_count := ad_message_count data + 1 |}.

Fixpoint group_by_author (analyses : list Analysis)
    (author_data : dict AuthorData) : outcome (dict AuthorData) :=
  match analyses with
  | [] => Ok author_data
  | analysis :: rest =>
      match a_author analysis with
      | None => Raise (KeyError "author")
      | Some author =>
          let data := get (dict_get author_data author) empty_author_data in
          group_by_author rest
            (dict_set author_data author (add_analysis analysis data))
      end
  end.

(** The loop over [author_data.items()], threading the table of profiles. *)
Fixpoint select_candidates (now : nat) (items : dict AuthorData)
    (potential_customers : list Candidate) (rows : list PotentialCustomer)
  : outcome (list Candidate) * list PotentialCustomer :=
  match items with
  | [] => (Ok potential_customers, rows)
  | (author, data) :: rest =>
      match ad_message_count data with
      | O => (Raise ZeroDivisionError, rows)
      | S _ =>
          let avg_score :=
            div (ad_total_score data) (of_int (ad_message_count data)) in
          if ltb 0.5%float avg_score then
            select_candidates now rest
              (potential_customers ++
               [{| c_username := author;
                   c_score := avg_score;
                   c_pain_points := ad_pain_points data;
                   c_interests := ad_interests data;
                   c_message_count := ad_message_count data;
                   c_engagement_level :=
                     _calculate_engagement_level avg_score
                       (ad_message_count data) |}])
              (_update_potential_customer author data avg_score now rows)
          else select_candidates now rest potential_customers rows
      end
  end.

Definition score_gt (y x : Candidate) : bool := ltb (c_score x) (c_score y).

Definition _aggregate_analyses (now : nat) (analyses : list Analysis)
    (rows : list PotentialCustomer)
  : outcome AnalysisResult * list PotentialCustomer :=
  match group_by_author analyses [] with
  | Raise e => (Raise e, rows)
  | Ok author_data =>
      match select_candidates now author_data [] rows with
      | (Raise e, rows') => (Raise e, rows')
      | (Ok potential_customers, rows') =>
          let potential_customers :=
            sorted_reverse score_gt potential_customers in
          (Ok {| r_status := "success";
                 r_total_messages_analyzed := Some (List.length analyses);
                 r_potential_customers := potential_customers;
                 r_summary := Some (_generate_summary potential_customers) |},
           rows')
      end
  end.

(** ** Reference definitions and sample data *)

Definition find_customer (username : string) (rows : list PotentialCustomer)
  : option PotentialCustomer :=
  find (by_username username) rows.

(** The records of one author, in reply order. *)
Definition records_of (author : string) (analyses : list Analysis)
  : list Analysis :=
  filter (fun a => match a_author a with
                   | Some x => String.eqb x author
                   | None => false
                   end) analyses.

(** The scores added one after the other to 0, each sum rounded. *)
Definition score_sum (records : list Analysis) : float :=
  fold_left (fun acc a => add acc (get (a_intent_score a) 0%float)) records
    0%float.

(** The average as the code computes it: the rounded sum of the author's
    scores divided by the number of their records, rounded. *)
Definition average_score (author : string) (analyses : list Analysis)
  : float :=
  div (score_sum (records_of author analyses))
      (of_int (List.length (records_of author analyses))).

(** The rational a finite float stands for (0 for the others). *)
Definition Q_of_float (f : float) : Q :=
  match FloatOps.Prim2SF f with
  | SpecFloat.S754_finite s m e =>
      let v := (inject_Z (Z.pos m) * Qpower 2 e)%Q in
      if s then Qopp v else v
  | _ => 0%Q
  end.

(** The average of the same scores without rounding. *)
Definition exact_average (author : string) (analyses : list Analysis) : Q :=
  (fold_left Qplus
     (map (fun a => Q_of_float (get (a_intent_score a) 0%float))
        (records_of author analyses)) 0
   / Q_of_nat (List.length (records_of author analyses)))%Q.

Definition data_of (records : list Analysis) : AuthorData :=
  fold_left (fun data a => add_analysis a data) records empty_author_data.

Definition grouped (seen : list Analysis) (d : dict AuthorData) : Prop :=
  NoDup (map fst d)
  /\ forall author,
       dict_get d author
       = match records_of author seen with
         | [] => None
         | _ :: _ => Some (data_of (records_of author seen))
         end.

Definition qualifies (item : string * AuthorData) : bool :=
  ltb 0.5%float (div (ad_total_score (snd item))
             (of_int (ad_message_count (snd item)))).

Definition candidate_of (item : string * AuthorData) : Candidate :=
  let avg_score :=
    div (ad_total_score (snd item)) (of_int (ad_message_count (snd item))) in
  {| c_username := fst item;
     c_score := avg_score;
     c_pain_points := ad_pain_points (snd item);
     c_interests := ad_interests (snd item);
     c_message_count := ad_message_count (snd item);
     c_engagement_level :=
       _calculate_engagement_level avg_score (ad_message_count (snd item)) |}.

(** The profile was created by [_update_potential_customer], which uses
    the username as the Discord id. *)
Definition own_id (p : PotentialCustomer) : Prop :=
  pc_discord_user_id p = pc_username p.



Definition sample_entry (id : Z) (author : string) (score : float)
  : Analysis :=
  {| a_message_id := Some id;
     a_author := Some author;
     a_intent_score := Some score;
     a_intent_type := None;
     a_pain_points := Some ["slow builds"];
     a_interests := None;
     a_keywords := None;
     a_explanation := None |}.

Definition sample_entries : list Analysis :=
  [ sample_entry 1 "alice" 0.9%float;
    sample_entry 2 "bob" 0.1%float;
    sample_entry 3 "alice" 0.8%float;
    sample_entry 5 "bob" 0.2%float;
    sample_entry 6 "alice" 0.85%float ].

(** Five records of one author whose scores have the exact mean 1/2. *)
Definition eve_entries : list Analysis :=
  [ sample_entry 1 "eve" 0.29%float;
    sample_entry 2 "eve" 0.81%float;
    sample_entry 3 "eve" 0.85%float;
    sample_entry 4 "eve" 0.37%float;
    sample_entry 5 "eve" 0.18%float ].

Definition sample_profile (name : string) (pain_points : list string)
  : PotentialCustomer :=
  {| pc_discord_user_id := name;
     pc_username := name;
     pc_score := 0.9%float;
     pc_pain_points := pain_points;
     pc_interests := [];
     pc_engagement_level := "medium";
     pc_first_seen := 1;
     pc_last_seen := 1;
     pc_message_count := 2;
     pc_updated_at := 1 |}.


(** The candidates of an outcome, none when it is a raise. *)
Definition candidates (out : outcome AnalysisResult) : list Candidate :=
  match out with
  | Ok res => r_potential_customers res
  | Raise _ => []
  end.

(** The merges of the selection loop, as a fold over the items that pass
    the threshold. *)
Definition merged_rows (now : nat) (items : dict AuthorData)
    (rows : list PotentialCustomer) : list PotentialCustomer :=
  fold_left
    (fun rows0 item =>
       _update_potential_customer (fst item) (snd item)
         (c_score (candidate_of item)) now rows0)
    items rows.

End F64.

(** * Properties *)

(** ** Batching invariants *)

Section BatchingFacts.
Variable encode : string -> list nat.

Lemma batch_tokens_snoc (batch : list Message) (msg : Message) :
  batch_tokens encode (batch ++ [msg])
  = batch_tokens encode batch + msg_tokens encode msg.
Proof.
  unfold batch_tokens. rewrite map_app, list_sum_app. simpl. lia.
Qed.

Lemma nonempty_false {A} (l : list A) : nonempty l = false -> l = [].
Proof. destruct l; [reflexivity | discriminate]. Qed.

Lemma batch_loop_ok (max_tokens : nat) (messages : list Message) :
  forall batches current_batch current_tokens,
    Forall (batch_ok encode max_tokens) batches ->
    current_tokens = batch_tokens encode current_batch ->
    current_batch = [] \/ batch_ok encode max_tokens current_batch ->
    Forall (batch_ok encode max_tokens)
      (batch_loop encode max_tokens messages batches current_batch
         current_tokens).
Proof.
  induction messages as [|msg rest IH]; intros batches cur toks Hb Ht Hc;
    subst toks; simpl.
  - destruct (nonempty cur) eqn:Hne; [|exact Hb].
    apply Forall_app; split; [exact Hb|].
    constructor; [|constructor].
    destruct Hc as [->|Hc]; [discriminate|exact Hc].
  - destruct (max_tokens <? batch_tokens encode cur + msg_tokens encode msg)
      eqn:Hlt; simpl.
    + destruct (nonempty cur) eqn:Hne.
      * apply IH.
        -- apply Forall_app; split; [exact Hb|].
           constructor; [|constructor].
           destruct Hc as [->|Hc]; [discriminate|exact Hc].
        -- unfold batch_tokens; simpl; lia.
        -- right. apply Nat.ltb_lt in Hlt.
           destruct (le_lt_dec (msg_tokens encode msg) max_tokens) as [Hle|Hgt].
           ++ left. unfold batch_tokens; simpl; lia.
           ++ right. exists msg. split; [reflexivity|exact Hgt].
      * apply nonempty_false in Hne. subst cur.
        apply IH; [exact Hb| |].
        -- rewrite batch_tokens_snoc. reflexivity.
        -- right. right. exists msg. split; [reflexivity|].
           apply Nat.ltb_lt in Hlt. unfold batch_tokens in Hlt. simpl in Hlt.
           lia.
    + apply IH; [exact Hb| |].
      * rewrite batch_tokens_snoc; lia.
      * right. left. apply Nat.ltb_ge in Hlt.
        rewrite batch_tokens_snoc. lia.
Qed.

Lemma batch_loop_concat (max_tokens : nat) (messages : list Message) :
  forall batches current_batch current_tokens,
    List.concat
      (batch_loop encode max_tokens messages batches current_batch
         current_tokens)
    = List.concat batches ++ current_batch ++ messages.
Proof.
  induction messages as [|msg rest IH]; intros batches cur toks; simpl.
  - destruct cur as [|m cur']; simpl.
    + rewrite app_nil_r. reflexivity.
    + rewrite concat_app. simpl. rewrite !app_nil_r. reflexivity.
  - destruct ((max_tokens <? toks + msg_tokens encode msg) && nonempty cur).
    + rewrite IH, concat_app. simpl. rewrite app_nil_r, <- app_assoc.
      reflexivity.
    + rewrite IH, <- app_assoc. reflexivity.
Qed.

End BatchingFacts.

(** ** Batching *)

(** C1. For every message sequence and positive budget, each batch the
    batcher returns has a total token count of at most the budget, unless
    the batch is exactly one message whose own token count exceeds the
    budget. *)
Theorem batching_bound
    (encode : string -> list nat) (max_tokens : nat)
    (msgs : list Message) (batch : list Message) :
  0 < max_tokens ->
  In batch (create_batches encode max_tokens msgs) ->
  batch_tokens encode batch <= max_tokens
  \/ exists msg, batch = [msg] /\ max_tokens < msg_tokens encode msg.
Proof.
  intros _ Hin.
  assert (H : Forall (batch_ok encode max_tokens)
                (create_batches encode max_tokens msgs)).
  { apply batch_loop_ok; [constructor | reflexivity | left; reflexivity]. }
  rewrite Forall_forall in H. exact (H batch Hin).
Qed.

Lemma batching_bound_witness :
  0 < 5
  /\ In [sample_message 3 "alice" "abcdefgh"]
       (create_batches char_encode 5 sample_messages)
  /\ (batch_tokens char_encode [sample_message 3 "alice" "abcdefgh"] <= 5
      \/ exists msg,
           [sample_message 3 "alice" "abcdefgh"] = [msg]
           /\ 5 < msg_tokens char_encode msg).
Proof.
  assert (H5 : 0 < 5) by lia.
  assert (Hin : In [sample_message 3 "alice" "abcdefgh"]
                  (create_batches char_encode 5 sample_messages)).
  { vm_compute. right. left. reflexivity. }
  split; [exact H5|]. split; [exact Hin|].
  exact (batching_bound char_encode 5 sample_messages _ H5 Hin).
Defined.

(** C2. Concatenating the batches in order gives back the input sequence:
    nothing is dropped, duplicated or reordered. *)
Theorem batching_complete
    (encode : string -> list nat) (max_tokens : nat) (msgs : list Message) :
  List.concat (create_batches encode max_tokens msgs) = msgs.
Proof.
  unfold create_batches. rewrite batch_loop_concat. reflexivity.
Qed.

(** ** Engagement levels *)

Lemma Qgtb_true (x y : Q) : Qgtb x y = true <-> (y < x)%Q.
Proof.
  unfold Qgtb. rewrite negb_true_iff. split.
  - intros H. apply Qnot_le_lt. intros Hle.
    apply Qle_bool_iff in Hle. congruence.
  - intros H. destruct (Qle_bool x y) eqn:E; [|reflexivity].
    apply Qle_bool_iff in E. exfalso. exact (Qlt_not_le _ _ H E).
Qed.

Lemma Qgtb_false (x y : Q) : Qgtb x y = false <-> (x <= y)%Q.
Proof.
  unfold Qgtb. rewrite negb_false_iff. apply Qle_bool_iff.
Qed.

Lemma Qgtb_spec (x y : Q) : BoolSpec (y < x)%Q (x <= y)%Q (Qgtb x y).
Proof.
  destruct (Qgtb x y) eqn:E; constructor.
  - apply Qgtb_true. exact E.
  - apply Qgtb_false. exact E.
Qed.

Ltac q_contra :=
  match goal with
  | H1 : (?a < ?b)%Q, H2 : (?b <= ?a)%Q |- _ =>
      exact (False_ind _ (Qlt_not_le _ _ H1 H2))
  end.

(** C4. The classifier depends on (score, message_count) only and tries
    high, then medium, then low: score > 0.8 and count > 5 give high;
    otherwise score > 0.6 or count > 3 give medium; otherwise low.  The
    four sample points of the specification are classified as it says. *)
Theorem engagement_classifier :
  (forall (score : Q) (message_count : nat),
     ((0.8 < score)%Q /\ 5 < message_count ->
      _calculate_engagement_level score message_count = "high")
     /\ (~ ((0.8 < score)%Q /\ 5 < message_count) ->
         (0.6 < score)%Q \/ 3 < message_count ->
         _calculate_engagement_level score message_count = "medium")
     /\ (~ ((0.8 < score)%Q /\ 5 < message_count) ->
         ~ ((0.6 < score)%Q \/ 3 < message_count) ->
         _calculate_engagement_level score message_count = "low"))
  /\ _calculate_engagement_level 0.85 6 = "high"
  /\ _calculate_engagement_level 0.7 2 = "medium"
  /\ _calculate_engagement_level 0.4 1 = "low"
  /\ _calculate_engagement_level 0.6 4 = "medium".
Proof.
  split; [|repeat split; reflexivity].
  intros score n. unfold _calculate_engagement_level.
  destruct (Qgtb_spec score 0.8) as [E8|E8];
    destruct (Nat.ltb_spec 5 n) as [E5|E5];
    destruct (Qgtb_spec score 0.6) as [E6|E6];
    destruct (Nat.ltb_spec 3 n) as [E3|E3]; simpl;
    (split; [|split]); intros;
    first
      [ reflexivity
      | exfalso;
        repeat match goal with
               | H : _ /\ _ |- _ => destruct H
               end;
        first
          [ q_contra
          | lia
          | match goal with
            | H : ~ (_ /\ _) |- _ => apply H; split; assumption
            end
          | match goal with
            | H : ~ (_ \/ _) |- _ =>
                apply H; first [left; assumption | right; assumption]
            end
          | match goal with
            | H : _ \/ _ |- _ => destruct H; first [q_contra | lia]
            end ] ].
Qed.

(** ** Merge into stored profiles *)



Lemma set_of_list_spec (l : list string) :
  NoDup (set_of_list l) /\ forall x, In x (set_of_list l) <-> In x l.
Proof.
  unfold set_of_list. split; [apply NoDup_nodup|].
  intros x. apply nodup_In.
Qed.

Lemma set_of_list_union (old new : list string) (x : string) :
  In x (set_of_list (old ++ new)) <-> In x old \/ In x new.
Proof.
  rewrite (proj2 (set_of_list_spec (old ++ new)) x). apply in_app_iff.
Qed.



(** ** Dictionaries and sorting *)

Section DictFacts.
Variable V : Type.
Implicit Types (d : dict V) (k : string) (v : V).

Lemma dict_get_set d k v k' :
  dict_get (dict_set d k v) k'
  = if String.eqb k k' then Some v else dict_get d k'.
Proof.
  induction d as [|[k0 v0] d IH]; simpl.
  - reflexivity.
  - destruct (String.eqb k0 k) eqn:E0; simpl.
    + apply String.eqb_eq in E0. subst k0.
      destruct (String.eqb k k'); reflexivity.
    + rewrite IH. destruct (String.eqb k0 k') eqn:E1; [|reflexivity].
      apply String.eqb_eq in E1. subst k0. rewrite String.eqb_sym, E0.
      reflexivity.
Qed.

Lemma dict_get_None d k : dict_get d k = None <-> ~ In k (map fst d).
Proof.
  induction d as [|[k0 v0] d IH]; simpl.
  - tauto.
  - destruct (String.eqb k0 k) eqn:E.
    + apply String.eqb_eq in E. split; [discriminate|]. tauto.
    + apply String.eqb_neq in E. rewrite IH. tauto.
Qed.

Lemma dict_set_keys d k v :
  map fst (dict_set d k v)
  = if dict_mem d k then map fst d else map fst d ++ [k].
Proof.
  unfold dict_mem. induction d as [|[k0 v0] d IH]; simpl.
  - reflexivity.
  - destruct (String.eqb k0 k) eqn:E; simpl; [reflexivity|].
    rewrite IH. destruct (dict_get d k); reflexivity.
Qed.

Lemma dict_set_NoDup d k v :
  NoDup (map fst d) -> NoDup (map fst (dict_set d k v)).
Proof.
  intros Hnd. rewrite dict_set_keys. unfold dict_mem.
  destruct (dict_get d k) eqn:E; [exact Hnd|].
  apply dict_get_None in E.
  apply NoDup_app; [exact Hnd | repeat constructor; simpl; tauto |].
  intros x Hx [<-|[]]. exact (E Hx).
Qed.

Lemma dict_get_In d k v :
  NoDup (map fst d) -> In (k, v) d -> dict_get d k = Some v.
Proof.
  induction d as [|[k0 v0] d IH]; simpl; intros Hnd Hin; [contradiction|].
  inversion Hnd as [|? ? Hk0 Hnd']; subst.
  destruct Hin as [Heq|Hin].
  - injection Heq as -> ->. rewrite String.eqb_refl. reflexivity.
  - destruct (String.eqb k0 k) eqn:E.
    + apply String.eqb_eq in E. subst k0. exfalso. apply Hk0.
      apply (in_map fst) in Hin. exact Hin.
    + apply IH; assumption.
Qed.

Lemma dict_get_Some_In d k v : dict_get d k = Some v -> In (k, v) d.
Proof.
  induction d as [|[k0 v0] d IH]; simpl; [discriminate|].
  destruct (String.eqb k0 k) eqn:E.
  - apply String.eqb_eq in E. subst k0. intros [= ->]. left. reflexivity.
  - intros H. right. apply IH. exact H.
Qed.
End DictFacts.

Section SortedReverseFacts.
Variable A : Type.
Variable key_gt : A -> A -> bool.

Lemma insert_desc_perm (x : A) (l : list A) :
  Permutation (insert_desc key_gt x l) (x :: l).
Proof.
  induction l as [|y l IH]; simpl; [apply Permutation_refl|].
  destruct (key_gt y x); [|apply Permutation_refl].
  apply perm_trans with (y :: x :: l);
    [apply perm_skip; exact IH | apply perm_swap].
Qed.

Lemma sorted_reverse_perm (l : list A) :
  Permutation (sorted_reverse key_gt l) l.
Proof.
  induction l as [|x l IH]; simpl; [apply perm_nil|].
  apply perm_trans with (x :: sorted_reverse key_gt l);
    [apply insert_desc_perm | apply perm_skip; exact IH].
Qed.

Lemma sorted_reverse_In (x : A) (l : list A) :
  In x (sorted_reverse key_gt l) <-> In x l.
Proof.
  split; apply Permutation_in;
    [|apply Permutation_sym]; apply sorted_reverse_perm.
Qed.
End SortedReverseFacts.

(** ** Aggregation *)

Lemma data_of_snoc (records : list Analysis) (a : Analysis) :
  data_of (records ++ [a]) = add_analysis a (data_of records).
Proof. unfold data_of. rewrite fold_left_app. reflexivity. Qed.

Lemma data_of_total (records : list Analysis) :
  ad_total_score (data_of records) = score_sum records.
Proof.
  induction records as [|a records IH] using rev_ind; [reflexivity|].
  rewrite data_of_snoc. unfold score_sum. rewrite fold_left_app. simpl.
  fold (score_sum records). rewrite <- IH. reflexivity.
Qed.

Lemma data_of_count (records : list Analysis) :
  ad_message_count (data_of records) = List.length records.
Proof.
  induction records as [|a records IH] using rev_ind; [reflexivity|].
  rewrite data_of_snoc, length_app. simpl. rewrite IH. reflexivity.
Qed.

Lemma records_of_snoc (author : string) (seen : list Analysis) (a : Analysis) :
  records_of author (seen ++ [a])
  = records_of author seen
    ++ match a_author a with
       | Some x => if String.eqb x author then [a] else []
       | None => []
       end.
Proof.
  unfold records_of. rewrite filter_app. simpl.
  destruct (a_author a) as [x|]; [|reflexivity].
  destruct (String.eqb x author); reflexivity.
Qed.

Lemma grouped_step (seen : list Analysis) (d : dict AuthorData)
    (a : Analysis) (author : string) :
  grouped seen d -> a_author a = Some author ->
  grouped (seen ++ [a])
    (dict_set d author
       (add_analysis a (get (dict_get d author) empty_author_data))).
Proof.
  intros [Hnd Hget] Ha. split; [apply dict_set_NoDup; exact Hnd|].
  intros y. rewrite dict_get_set, records_of_snoc, Ha.
  destruct (String.eqb author y) eqn:E.
  - apply String.eqb_eq in E. subst y.
    rewrite Hget.
    destruct (records_of author seen) as [|r rs] eqn:Hr; simpl.
    + reflexivity.
    + rewrite <- data_of_snoc. reflexivity.
  - rewrite app_nil_r. apply Hget.
Qed.

Lemma group_by_author_grouped (rest : list Analysis) :
  forall seen d d',
    grouped seen d -> group_by_author rest d = Ok d' ->
    grouped (seen ++ rest) d'.
Proof.
  induction rest as [|a rest IH]; simpl; intros seen d d' Hg Hrun.
  - injection Hrun as <-. rewrite app_nil_r. exact Hg.
  - destruct (a_author a) as [author|] eqn:Ha; [|discriminate].
    replace (seen ++ a :: rest) with ((seen ++ [a]) ++ rest)
      by (rewrite <- app_assoc; reflexivity).
    eapply IH; [|exact Hrun]. apply grouped_step; assumption.
Qed.

Lemma grouped_nil : grouped [] [].
Proof. split; [constructor|]. intros author. reflexivity. Qed.

(** ** One batch and one run *)

Section PipelineFacts.
Variable llm : nat -> list Message -> option string.
Variable json_loads : string -> option reply.



Lemma analyze_message_batch_returns (batch : list Message) (w : World) :
  exists analyses w',
    _analyze_message_batch llm json_loads batch w = (Ok analyses, w').
Proof.
  unfold _analyze_message_batch, try_except.
  match goal with
  | |- context [match ?body w with _ => _ end] =>
      destruct (body w) as [[analyses|e] w1]
  end.
  - exists analyses, w1. reflexivity.
  - exists [], w1. reflexivity.
Qed.

Lemma analyze_batches_app (pre rest : list (list Message)) :
  forall acc w,
    analyze_batches llm json_loads (pre ++ rest) acc w
    = match analyze_batches llm json_loads pre acc w with
      | (Ok collected, w1) => analyze_batches llm json_loads rest collected w1
      | (Raise e, w1) => (Raise e, w1)
      end.
Proof.
  induction pre as [|batch pre IH]; simpl; intros acc w; [reflexivity|].
  unfold bind.
  destruct (_analyze_message_batch llm json_loads batch w) as [[l|e] w1];
    [apply IH | reflexivity].
Qed.

Lemma analyze_batches_returns (batches : list (list Message)) :
  forall acc w,
    exists all w', analyze_batches llm json_loads batches acc w = (Ok all, w').
Proof.
  induction batches as [|batch batches IH]; simpl; intros acc w.
  - exists acc, w. reflexivity.
  - unfold bind.
    destruct (analyze_message_batch_returns batch w) as (l & w1 & ->).
    apply IH.
Qed.

End PipelineFacts.






(** C7. When the raw reply for a batch does not parse, the batch analysis
    returns the empty sequence without raising and leaves the store as it
    was; the loop goes on with the remaining batches, and what the run
    collects is what the other batches contribute. *)
Theorem unparseable_batch_skipped
    (llm : nat -> list Message -> option string)
    (json_loads : string -> option reply)
    (pre post : list (list Message)) (bad : list Message)
    (acc collected : list Analysis) (w w1 : World) (content : string) :
  analyze_batches llm json_loads pre acc w = (Ok collected, w1) ->
  llm (llm_calls w1) bad = Some content ->
  json_loads content = None ->
  _analyze_message_batch llm json_loads bad w1 = (Ok [], called w1)
  /\ analyze_batches llm json_loads (pre ++ bad :: post) acc w
     = analyze_batches llm json_loads post collected (called w1)
  /\ exists all w2,
       analyze_batches llm json_loads (pre ++ bad :: post) acc w
       = (Ok all, w2).
Proof.
  intros Hpre Hllm Hjson.
  assert (Hbad : _analyze_message_batch llm json_loads bad w1
                 = (Ok [], called w1)).
  { unfold _analyze_message_batch, try_except, bind, chat_completions_create.
    rewrite Hllm, Hjson. reflexivity. }
  split; [exact Hbad|].
  assert (Hall : analyze_batches llm json_loads (pre ++ bad :: post) acc w
                 = analyze_batches llm json_loads post collected (called w1)).
  { rewrite analyze_batches_app, Hpre. simpl. unfold bind at 1.
    rewrite Hbad, app_nil_r. reflexivity. }
  split; [exact Hall|]. rewrite Hall. apply analyze_batches_returns.
Qed.

Lemma unparseable_batch_skipped_witness :
  _analyze_message_batch sample_llm sample_json_loads
    [sample_message 3 "alice" "abcdefgh"] after_first_batch
  = (Ok [], called after_first_batch)
  /\ analyze_batches sample_llm sample_json_loads
       ([[sample_message 1 "alice" "abc"; sample_message 2 "bob" "de"]]
        ++ [sample_message 3 "alice" "abcdefgh"]
        :: [[sample_message 6 "alice" "a"]]) [] empty_world
     = analyze_batches sample_llm sample_json_loads
         [[sample_message 6 "alice" "a"]] sample_entries
         (called after_first_batch)
  /\ exists all w2,
       analyze_batches sample_llm sample_json_loads
         ([[sample_message 1 "alice" "abc"; sample_message 2 "bob" "de"]]
          ++ [sample_message 3 "alice" "abcdefgh"]
          :: [[sample_message 6 "alice" "a"]]) [] empty_world
       = (Ok all, w2).
Proof.
  apply (unparseable_batch_skipped sample_llm sample_json_loads
           [[sample_message 1 "alice" "abc"; sample_message 2 "bob" "de"]]
           [[sample_message 6 "alice" "a"]]
           [sample_message 3 "alice" "abcdefgh"]
           [] sample_entries empty_world after_first_batch
           "I could not find any customer intent.").
  - reflexivity.
  - reflexivity.
  - reflexivity.
Defined.

(** C10. On a channel without stored messages [analyze_channel] returns
    status no_messages with an empty candidate list, and the world is the
    one it started from: no request to the model, no message analysis, no
    profile, no snapshot. *)
Theorem no_messages_no_effect
    (encode : string -> list nat)
    (llm : nat -> list Message -> option string)
    (json_loads : string -> option reply)
    (channel_id : Z) (now : nat) (w : World) :
  filter (fun m => Z.eqb (msg_channel_id m) channel_id) (messages w) = [] ->
  analyze_channel encode llm json_loads channel_id now w
  = (Ok {| r_status := "no_messages";
           r_total_messages_analyzed := None;
           r_potential_customers := [];
           r_summary := None |}, w).
Proof.
  intros Hnone. unfold analyze_channel. rewrite Hnone. reflexivity.
Qed.

Lemma no_messages_no_effect_witness :
  filter (fun m => Z.eqb (msg_channel_id m) 8) (messages other_channel_world)
  = []
  /\ analyze_channel char_encode sample_llm sample_json_loads 8 1
       other_channel_world
     = (Ok {| r_status := "no_messages";
              r_total_messages_analyzed := None;
              r_potential_customers := [];
              r_summary := None |}, other_channel_world).
Proof.
  assert (H : filter (fun m => Z.eqb (msg_channel_id m) 8)
                (messages other_channel_world) = []) by reflexivity.
  split; [exact H|].
  exact (no_messages_no_effect char_encode sample_llm sample_json_loads 8 1
           other_channel_world H).
Defined.

(** ** Optional fields *)

Lemma same_totals_refl (x : AuthorData) : same_totals x x.
Proof. repeat split. Qed.

Lemma add_analysis_same (a : Analysis) (x y : AuthorData) :
  same_totals x y ->
  same_totals (add_analysis (with_defaults a) x) (add_analysis a y).
Proof.
  intros (Hp & Hi & Ht & Hc). unfold same_totals, add_analysis. cbn.
  rewrite Hp, Hi, Ht, Hc. repeat split.
Qed.

Lemma dict_same_get (d1 d2 : dict AuthorData) (k : string) :
  dict_same d1 d2 ->
  same_totals (get (dict_get d1 k) empty_author_data)
    (get (dict_get d2 k) empty_author_data).
Proof.
  induction 1 as [|[k1 v1] [k2 v2] d1 d2 [Hk Hv] _ IH]; simpl.
  - apply same_totals_refl.
  - simpl in Hk, Hv. subst k2. destruct (String.eqb k1 k); [exact Hv|exact IH].
Qed.

Lemma dict_same_set (d1 d2 : dict AuthorData) (k : string)
    (v1 v2 : AuthorData) :
  dict_same d1 d2 -> same_totals v1 v2 ->
  dict_same (dict_set d1 k v1) (dict_set d2 k v2).
Proof.
  intros Hd Hv.
  induction Hd as [|[k1 x1] [k2 x2] d1 d2 [Hk Hx] Hd IH]; simpl.
  - constructor; [split; [reflexivity|exact Hv] | constructor].
  - simpl in Hk, Hx. subst k2. destruct (String.eqb k1 k).
    + constructor; [split; [reflexivity|exact Hv] | exact Hd].
    + constructor; [split; [reflexivity|exact Hx] | exact IH].
Qed.

Lemma group_by_author_same (analyses : list Analysis) :
  forall d1 d2,
    dict_same d1 d2 ->
    match group_by_author (map with_defaults analyses) d1,
          group_by_author analyses d2 with
    | Ok d1', Ok d2' => dict_same d1' d2'
    | Raise e1, Raise e2 => e1 = e2
    | _, _ => False
    end.
Proof.
  induction analyses as [|a analyses IH]; simpl; intros d1 d2 Hd.
  - exact Hd.
  - destruct (a_author a) as [author|]; [|reflexivity].
    apply IH. apply dict_same_set; [exact Hd|].
    apply add_analysis_same. apply dict_same_get. exact Hd.
Qed.

Lemma update_potential_customer_same (author : string) (x y : AuthorData)
    (score : Q) (now : nat) (w : World) :
  same_totals x y ->
  _update_potential_customer author x score now w
  = _update_potential_customer author y score now w.
Proof.
  intros (Hp & Hi & _ & Hc). unfold _update_potential_customer.
  rewrite Hp, Hi, Hc. reflexivity.
Qed.

Lemma select_candidates_same (now : nat) (d1 d2 : dict AuthorData) :
  dict_same d1 d2 ->
  forall acc w,
    select_candidates now d1 acc w = select_candidates now d2 acc w.
Proof.
  induction 1 as [|[k1 x] [k2 y] d1 d2 [Hk Hxy] _ IH]; simpl; intros acc w;
    [reflexivity|].
  simpl in Hk, Hxy. subst k2.
  pose proof Hxy as (Hp & Hi & Ht & Hc). rewrite Hp, Hi, Ht, Hc.
  destruct (ad_message_count y); [reflexivity|].
  destruct (Qgtb _ 0.5); [|apply IH].
  unfold bind, modify.
  rewrite (update_potential_customer_same k1 x y _ now w Hxy). apply IH.
Qed.

Lemma group_by_author_returns (analyses : list Analysis) :
  (forall a, In a analyses -> a_author a <> None) ->
  forall d, exists d', group_by_author analyses d = Ok d'.
Proof.
  induction analyses as [|a analyses IH]; simpl; intros Hauthors d.
  - exists d. reflexivity.
  - destruct (a_author a) as [author|] eqn:Ha;
      [|exfalso; exact (Hauthors a (or_introl eq_refl) Ha)].
    apply IH. intros b Hb. apply Hauthors. right. exact Hb.
Qed.

Lemma select_candidates_returns (now : nat) (items : dict AuthorData) :
  Forall (fun kv => ad_message_count (snd kv) <> 0) items ->
  forall acc w,
    exists cands w', select_candidates now items acc w = (Ok cands, w').
Proof.
  induction 1 as [|[author data] items Hcount _ IH]; simpl; intros acc w.
  - exists acc, w. reflexivity.
  - simpl in Hcount. destruct (ad_message_count data); [contradiction|].
    destruct (Qgtb _ 0.5); [|apply IH].
    unfold bind, modify. apply IH.
Qed.

Lemma grouped_counts (seen : list Analysis) (d : dict AuthorData) :
  grouped seen d -> Forall (fun kv => ad_message_count (snd kv) <> 0) d.
Proof.
  intros [Hnd Hget]. apply Forall_forall. intros [k data] Hin. simpl.
  apply dict_get_In in Hin; [|exact Hnd]. rewrite Hget in Hin.
  destruct (records_of k seen) as [|r rs]; [discriminate|].
  injection Hin as <-. rewrite data_of_count. discriminate.
Qed.

(** C8 as stated fails on [author]: aggregation reads it with a plain
    subscript, so an entry without it raises. *)
Lemma missing_author_raises :
  a_author anonymous_entry = None
  /\ fst (_aggregate_analyses 1 [anonymous_entry] empty_world)
     = Raise (KeyError "author").
Proof. split; reflexivity. Qed.

(** C8, amended.  For entries that all name their author, aggregation
    returns without raising, and an entry that omits intent_score,
    pain_points, interests, keywords, intent_type or explanation is
    aggregated and persisted exactly as the same entry with score 0, empty
    collections and empty strings in their place.  The author key is
    required, not defaulted. *)
Theorem optional_fields_default
    (now : nat) (analyses : list Analysis) (w : World) :
  (forall a, In a analyses -> a_author a <> None) ->
  (exists res w', _aggregate_analyses now analyses w = (Ok res, w'))
  /\ _aggregate_analyses now (map with_defaults analyses) w
     = _aggregate_analyses now analyses w
  /\ forall msg a,
       _save_message_analysis msg (with_defaults a) w
       = _save_message_analysis msg a w.
Proof.
  intros Hauthors.
  destruct (group_by_author_returns analyses Hauthors []) as [d Hd].
  pose proof (group_by_author_same analyses [] [] (Forall2_nil _)) as Hsame.
  rewrite Hd in Hsame.
  destruct (group_by_author (map with_defaults analyses) [])
    as [d0|e] eqn:Hd0; [|contradiction].
  split; [|split].
  - pose proof (group_by_author_grouped analyses [] [] d grouped_nil Hd)
      as Hgrouped.
    destruct (select_candidates_returns now d
                (grouped_counts _ _ Hgrouped) [] w) as (cands & w' & Hsel).
    unfold _aggregate_analyses. rewrite Hd. unfold bind, ret. rewrite Hsel.
    eexists. eexists. reflexivity.
  - unfold _aggregate_analyses. rewrite Hd, Hd0. unfold bind, ret.
    rewrite (select_candidates_same now d0 d Hsame [] w).
    rewrite length_map. reflexivity.
  - intros msg a. unfold _save_message_analysis. reflexivity.
Qed.

Lemma optional_fields_default_witness :
  (exists res w',
     _aggregate_analyses 1 sample_entries empty_world = (Ok res, w'))
  /\ _aggregate_analyses 1 (map with_defaults sample_entries) empty_world
     = _aggregate_analyses 1 sample_entries empty_world
  /\ forall msg a,
       _save_message_analysis msg (with_defaults a) empty_world
       = _save_message_analysis msg a empty_world.
Proof.
  apply (optional_fields_default 1 sample_entries empty_world).
  intros a Ha. simpl in Ha.
  repeat (destruct Ha as [<-|Ha]; [discriminate|]). contradiction.
Defined.

(** ** Report *)

Lemma tally_count_one (d : dict nat) (q p : string) :
  tally (count_one d q) p = tally d p + (if String.eqb q p then 1 else 0).
Proof.
  unfold tally, count_one. rewrite dict_get_set.
  destruct (String.eqb q p) eqn:E; [|lia].
  apply String.eqb_eq in E. subst q. reflexivity.
Qed.

Lemma dict_set_Forall {V} (P : string * V -> Prop) (d : dict V)
    (k : string) (v : V) :
  Forall P d -> (forall k', P (k', v)) -> Forall P (dict_set d k v).
Proof.
  intros Hd Hv. induction Hd as [|[k0 v0] d H0 Hd IH]; simpl.
  - constructor; [apply Hv | constructor].
  - destruct (String.eqb k0 k); constructor; auto.
Qed.

Lemma fold_count_one (l : list string) :
  forall d,
    NoDup (map fst d) -> positive_counts d ->
    NoDup (map fst (fold_left count_one l d))
    /\ positive_counts (fold_left count_one l d)
    /\ forall p, tally (fold_left count_one l d) p
                 = tally d p + count_occ string_dec l p.
Proof.
  induction l as [|q l IH]; simpl; intros d Hnd Hpos.
  - split; [exact Hnd|]. split; [exact Hpos|]. intros p. lia.
  - destruct (IH (count_one d q)) as (Hnd' & Hpos' & Htally).
    + apply dict_set_NoDup. exact Hnd.
    + apply dict_set_Forall; [exact Hpos|]. intros k'. simpl. lia.
    + split; [exact Hnd'|]. split; [exact Hpos'|].
      intros p. rewrite Htally, tally_count_one.
      destruct (string_dec q p) as [->|Hne].
      * rewrite String.eqb_refl. lia.
      * apply String.eqb_neq in Hne. rewrite Hne. lia.
Qed.

Lemma count_pain_points_concat (lists : list (list string)) :
  count_pain_points lists = fold_left count_one (List.concat lists) [].
Proof.
  unfold count_pain_points. generalize (@nil (string * nat)).
  induction lists as [|l lists IH]; simpl; intros d; [reflexivity|].
  rewrite fold_left_app. apply IH.
Qed.

Lemma count_occ_NoDup (l : list string) (p : string) :
  NoDup l ->
  count_occ string_dec l p = if existsb (String.eqb p) l then 1 else 0.
Proof.
  induction 1 as [|x l Hx Hnd IH]; simpl; [reflexivity|].
  destruct (string_dec x p) as [->|Hne].
  - rewrite String.eqb_refl. simpl.
    apply (count_occ_not_In string_dec) in Hx. rewrite Hx. reflexivity.
  - rewrite IH. replace (String.eqb p x) with false; [reflexivity|].
    symmetry. apply String.eqb_neq. congruence.
Qed.

Lemma count_occ_profiles (lists : list (list string)) (p : string) :
  Forall (@NoDup string) lists ->
  count_occ string_dec (List.concat lists) p = profiles_with p lists.
Proof.
  unfold profiles_with.
  induction 1 as [|l lists Hl _ IH]; simpl; [reflexivity|].
  rewrite count_occ_app, IH, (count_occ_NoDup l p Hl).
  destruct (existsb (String.eqb p) l); reflexivity.
Qed.

Lemma insert_desc_sorted (x : string * nat) (l : list (string * nat)) :
  StronglySorted by_count_desc l ->
  StronglySorted by_count_desc (insert_desc count_gt x l).
Proof.
  induction 1 as [|y l Hl IH Hy]; simpl.
  - constructor; constructor.
  - unfold count_gt at 1. destruct (Nat.ltb_spec (snd x) (snd y)) as [Hlt|Hge].
    + constructor; [exact IH|].
      apply (Permutation_Forall
               (Permutation_sym (insert_desc_perm _ count_gt x l))).
      constructor; [unfold by_count_desc; lia | exact Hy].
    + constructor; [constructor; assumption|].
      constructor; [exact Hge|].
      apply Forall_forall. intros z Hz. rewrite Forall_forall in Hy.
      specialize (Hy z Hz). unfold by_count_desc in *. lia.
Qed.

Lemma sorted_reverse_sorted (l : list (string * nat)) :
  StronglySorted by_count_desc (sorted_reverse count_gt l).
Proof.
  induction l as [|x l IH]; simpl; [constructor|].
  apply insert_desc_sorted. exact IH.
Qed.

(** The merge keeps every stored pain-point list free of duplicates. *)
Lemma update_potential_customer_sets (username : string) (data : AuthorData)
    (score : Q) (now : nat) (w : World) :
  NoDup (ad_pain_points data) ->
  Forall (fun c => NoDup (pc_pain_points c)) (potential_customers w) ->
  Forall (fun c => NoDup (pc_pain_points c))
    (potential_customers
       (_update_potential_customer username data score now w)).
Proof.
  intros Hdata Hrows. unfold _update_potential_customer.
  destruct (find (by_username username) (potential_customers w));
    cbn [potential_customers].
  - clear Hdata. induction Hrows as [|c rows Hc Hrows IH]; simpl;
      [constructor|].
    destruct (by_username username c); constructor;
      try assumption; cbn; apply NoDup_nodup.
  - apply Forall_app. split; [exact Hrows|]. constructor; [|constructor].
    exact Hdata.
Qed.

Lemma data_of_sets (records : list Analysis) :
  NoDup (ad_pain_points (data_of records)).
Proof.
  destruct records as [|a records] using rev_ind; [constructor|].
  rewrite data_of_snoc. cbn. apply NoDup_nodup.
Qed.

Lemma select_candidates_sets (now : nat) (items : dict AuthorData) :
  Forall (fun kv => NoDup (ad_pain_points (snd kv))) items ->
  forall acc w cands w',
    select_candidates now items acc w = (Ok cands, w') ->
    Forall (fun c => NoDup (pc_pain_points c)) (potential_customers w) ->
    Forall (fun c => NoDup (pc_pain_points c)) (potential_customers w').
Proof.
  induction 1 as [|[author data] items Hdata _ IH]; simpl;
    intros acc w cands w' Hrun Hrows.
  - injection Hrun as _ <-. exact Hrows.
  - simpl in Hdata. destruct (ad_message_count data); [discriminate|].
    destruct (Qgtb _ 0.5); [|exact (IH _ _ _ _ Hrun Hrows)].
    unfold bind, modify in Hrun. apply (IH _ _ _ _ Hrun).
    apply update_potential_customer_sets; assumption.
Qed.

(** Every store that aggregation produces from a store of duplicate-free
    pain-point lists has duplicate-free pain-point lists. *)
Lemma aggregate_analyses_sets (now : nat) (analyses : list Analysis)
    (w w' : World) (res : AnalysisResult) :
  _aggregate_analyses now analyses w = (Ok res, w') ->
  Forall (fun c => NoDup (pc_pain_points c)) (potential_customers w) ->
  Forall (fun c => NoDup (pc_pain_points c)) (potential_customers w').
Proof.
  unfold _aggregate_analyses. intros Hrun Hrows.
  destruct (group_by_author analyses []) as [d|e] eqn:Hgroup;
    [|discriminate].
  pose proof (group_by_author_grouped analyses [] [] d grouped_nil Hgroup)
    as [Hnd Hget].
  unfold bind, ret in Hrun.
  destruct (select_candidates now d [] w) as [[cands|e] w1] eqn:Hsel;
    [|discriminate].
  injection Hrun as _ <-.
  apply (select_candidates_sets now d) with (acc := []) (w := w)
                                            (cands := cands);
    [|exact Hsel|exact Hrows].
  apply Forall_forall. intros [k data] Hin. simpl.
  apply dict_get_In in Hin; [|exact Hnd]. rewrite Hget in Hin.
  destruct (records_of k ([] ++ analyses)); [discriminate|].
  injection Hin as <-. apply data_of_sets.
Qed.

(** C9. The report's pain-point histogram counts, for each distinct pain
    point, the number of profiles that name it (once per profile), lists
    the entries by descending count and keeps the first ten; for three
    profiles with pain points {A,B}, {A} and {C} it is A:2, B:1, C:1. *)
Theorem report_histogram :
  (forall w,
     Forall (fun c => NoDup (pc_pain_points c)) (potential_customers w) ->
     exists hist,
       top_pain_points (generate_customer_report w) = firstn 10 hist
       /\ StronglySorted by_count_desc hist
       /\ NoDup (map fst hist)
       /\ forall p n,
            In (p, n) hist <->
            n = profiles_with p (map pc_pain_points (potential_customers w))
            /\ 1 <= n)
  /\ top_pain_points (generate_customer_report sample_store)
     = [("A", 2); ("B", 1); ("C", 1)].
Proof.
  split; [|reflexivity].
  intros w Hsets.
  set (lists := map pc_pain_points (potential_customers w)).
  set (d := count_pain_points lists).
  exists (sorted_reverse count_gt d).
  assert (Hlists : Forall (@NoDup string) lists).
  { subst lists. apply Forall_map. exact Hsets. }
  destruct (fold_count_one (List.concat lists) [] (NoDup_nil _)
              (Forall_nil _)) as (Hnd & Hpos & Htally).
  rewrite <- count_pain_points_concat in Hnd, Hpos, Htally.
  fold d in Hnd, Hpos, Htally.
  split; [|split; [|split]].
  - unfold generate_customer_report. subst d lists.
    destruct (potential_customers w); reflexivity.
  - apply sorted_reverse_sorted.
  - apply (Permutation_NoDup
             (Permutation_map fst
                (Permutation_sym (sorted_reverse_perm _ count_gt d)))).
    exact Hnd.
  - intros p n. rewrite sorted_reverse_In.
    specialize (Htally p).
    rewrite (count_occ_profiles lists p Hlists) in Htally.
    unfold tally in Htally. simpl in Htally. split.
    + intros Hin. unfold positive_counts in Hpos. rewrite Forall_forall in Hpos.
      pose proof (Hpos _ Hin) as Hn. simpl in Hn.
      apply dict_get_In in Hin; [|exact Hnd]. rewrite Hin in Htally.
      simpl in Htally. split; [exact Htally | exact Hn].
    + intros [Hn Hge]. apply dict_get_Some_In.
      destruct (dict_get d p) as [m|]; simpl in Htally; [congruence | lia].
Qed.

Lemma report_histogram_witness :
  Forall (fun c => NoDup (pc_pain_points c)) (potential_customers sample_store)
  /\ exists hist,
       top_pain_points (generate_customer_report sample_store)
       = firstn 10 hist
       /\ StronglySorted by_count_desc hist
       /\ NoDup (map fst hist)
       /\ forall p n,
            In (p, n) hist <->
            n = profiles_with p
                  (map pc_pain_points (potential_customers sample_store))
            /\ 1 <= n.
Proof.
  assert (H : Forall (fun c => NoDup (pc_pain_points c))
                (potential_customers sample_store)).
  { repeat constructor; simpl; intros Hin;
      repeat (destruct Hin as [Hin|Hin]; [discriminate|]); exact Hin. }
  split; [exact H|]. exact (proj1 report_histogram sample_store H).
Defined.

(** ** The sample points in binary64 *)

Section Binary64Samples.
Import PrimFloat.

Lemma binary64_engagement_samples :
  Binary64._calculate_engagement_level 0.85%float 6 = "high"
  /\ Binary64._calculate_engagement_level 0.7%float 2 = "medium"
  /\ Binary64._calculate_engagement_level 0.4%float 1 = "low"
  /\ Binary64._calculate_engagement_level 0.6%float 4 = "medium".
Proof. repeat split; vm_compute; reflexivity. Qed.

Lemma binary64_merged_score_sample :
  Binary64.merged_score 0.9%float 0.9%float = 0.9%float.
Proof. vm_compute. reflexivity. Qed.

(** The end-to-end scenario: alice (0.9, 0.8, 0.85) is a candidate of
    medium engagement, bob (0.1, 0.2) is not a candidate. *)
Lemma binary64_average_samples :
  ltb 0.5%float (Binary64.average [0.9; 0.8; 0.85]%float) = true
  /\ Binary64._calculate_engagement_level
       (Binary64.average [0.9; 0.8; 0.85]%float) 3 = "medium"
  /\ ltb 0.5%float (Binary64.average [0.1; 0.2]%float) = false.
Proof. repeat split; vm_compute; reflexivity. Qed.

End Binary64Samples.

(** * Further properties of the analyzer *)

(** ** Batching: shape of the result *)

Section BatchingShape.
Variable encode : string -> list nat.

Lemma nonempty_true {A} (l : list A) : nonempty l = true -> l <> [].
Proof. destruct l; [discriminate|]. intros _ H. discriminate. Qed.

Lemma batch_loop_nonempty (max_tokens : nat) (messages : list Message) :
  forall batches current_batch current_tokens,
    Forall (fun b => b <> []) batches ->
    Forall (fun b => b <> [])
      (batch_loop encode max_tokens messages batches current_batch
         current_tokens).
Proof.
  induction messages as [|msg rest IH]; simpl; intros batches cur toks Hb.
  - destruct (nonempty cur) eqn:Hne; [|exact Hb].
    apply Forall_app. split; [exact Hb|].
    constructor; [apply nonempty_true; exact Hne | constructor].
  - destruct (max_tokens <? toks + msg_tokens encode msg); simpl;
      [|apply IH; exact Hb].
    destruct (nonempty cur) eqn:Hne; [|apply IH; exact Hb].
    apply IH. apply Forall_app. split; [exact Hb|].
    constructor; [apply nonempty_true; exact Hne | constructor].
Qed.

Lemma concat_length_nonempty {A} (l : list (list A)) :
  Forall (fun b => b <> []) l -> List.length l <= List.length (List.concat l).
Proof.
  induction 1 as [|b l Hb _ IH]; simpl; [lia|].
  rewrite length_app. destruct b; [contradiction|]. simpl. lia.
Qed.

(** Splitting [l ++ [c]] around two neighbours. *)
Lemma snoc_neighbours {A} (l pre post : list A) (c b1 b2 : A) :
  l ++ [c] = pre ++ b1 :: b2 :: post ->
  (post = [] /\ c = b2 /\ l = pre ++ [b1])
  \/ exists post', post = post' ++ [c] /\ l = pre ++ b1 :: b2 :: post'.
Proof.
  intros H. destruct post as [|x post] using rev_ind.
  - left. replace (pre ++ [b1; b2]) with ((pre ++ [b1]) ++ [b2]) in H
      by (rewrite <- app_assoc; reflexivity).
    apply app_inj_tail in H. destruct H as [-> ->]. auto.
  - right. exists post.
    replace (pre ++ b1 :: b2 :: post ++ [x])
      with ((pre ++ b1 :: b2 :: post) ++ [x]) in H
      by (rewrite <- app_assoc; reflexivity).
    apply app_inj_tail in H. destruct H as [-> ->]. auto.
Qed.

Lemma batch_loop_greedy (max_tokens : nat) (messages : list Message) :
  forall batches cur toks,
    toks = batch_tokens encode cur ->
    (forall pre b1 b2 post,
        batches = pre ++ b1 :: b2 :: post ->
        cannot_merge encode max_tokens b1 b2) ->
    (forall pre b1,
        batches = pre ++ [b1] ->
        exists msg rest,
          cur = msg :: rest
          /\ max_tokens < batch_tokens encode b1 + msg_tokens encode msg) ->
    forall pre b1 b2 post,
      batch_loop encode max_tokens messages batches cur toks
      = pre ++ b1 :: b2 :: post ->
      cannot_merge encode max_tokens b1 b2.
Proof.
  assert (Hsnoc : forall batches cur,
    (forall pre b1 b2 post,
        batches = pre ++ b1 :: b2 :: post ->
        cannot_merge encode max_tokens b1 b2) ->
    (forall pre b1,
        batches = pre ++ [b1] ->
        exists msg rest,
          cur = msg :: rest
          /\ max_tokens < batch_tokens encode b1 + msg_tokens encode msg) ->
    forall pre b1 b2 post,
      batches ++ [cur] = pre ++ b1 :: b2 :: post ->
      cannot_merge encode max_tokens b1 b2).
  { intros batches cur Hadj Hlast pre b1 b2 post Heq.
    apply snoc_neighbours in Heq.
    destruct Heq as [(_ & -> & Hl) | (post' & _ & Hl)].
    - exact (Hlast pre b1 Hl).
    - exact (Hadj pre b1 b2 post' Hl). }
  induction messages as [|msg rest IH]; simpl;
    intros batches cur toks Htoks Hadj Hlast pre b1 b2 post Hrun.
  - destruct (nonempty cur); [|exact (Hadj _ _ _ _ Hrun)].
    exact (Hsnoc batches cur Hadj Hlast _ _ _ _ Hrun).
  - subst toks.
    destruct (max_tokens <? batch_tokens encode cur + msg_tokens encode msg)
      eqn:Hlt; simpl in Hrun.
    + destruct (nonempty cur) eqn:Hne.
      * refine (IH _ _ _ _ _ _ pre b1 b2 post Hrun).
        -- unfold batch_tokens. simpl. lia.
        -- exact (Hsnoc batches cur Hadj Hlast).
        -- intros pre' b Heq. apply app_inj_tail in Heq.
           destruct Heq as [_ <-]. exists msg, [].
           split; [reflexivity|]. apply Nat.ltb_lt. exact Hlt.
      * apply nonempty_false in Hne. subst cur.
        refine (IH _ _ _ _ Hadj _ pre b1 b2 post Hrun);
          [rewrite batch_tokens_snoc; reflexivity|].
        intros pre' b Heq. destruct (Hlast pre' b Heq) as (m & r & Hm & _).
        discriminate.
    + refine (IH _ _ _ _ Hadj _ pre b1 b2 post Hrun);
        [rewrite batch_tokens_snoc; reflexivity|].
      intros pre' b Heq. destruct (Hlast pre' b Heq) as (m & r & -> & Hm).
      exists m, (r ++ [msg]). split; [reflexivity | exact Hm].
Qed.

End BatchingShape.

(** X1. The batcher returns no empty batch, and so never more batches than
    messages; an empty input gives no batch at all. *)
Theorem batches_nonempty
    (encode : string -> list nat) (max_tokens : nat) (msgs : list Message) :
  Forall (fun batch => batch <> []) (create_batches encode max_tokens msgs)
  /\ List.length (create_batches encode max_tokens msgs) <= List.length msgs
  /\ create_batches encode max_tokens [] = [].
Proof.
  assert (H : Forall (fun batch => batch <> [])
                (create_batches encode max_tokens msgs)).
  { apply batch_loop_nonempty. constructor. }
  split; [exact H|]. split; [|reflexivity].
  assert (Hcat : List.concat (create_batches encode max_tokens msgs) = msgs)
    by (unfold create_batches; rewrite batch_loop_concat; reflexivity).
  rewrite <- Hcat at 2. apply concat_length_nonempty. exact H.
Qed.

(** X2. The scan is greedy: of two neighbouring batches, the first message
    of the later one did not fit into the earlier one, so no two
    neighbours could have been merged within the budget. *)
Theorem batches_greedy
    (encode : string -> list nat) (max_tokens : nat) (msgs : list Message)
    (pre post : list (list Message)) (b1 b2 : list Message) :
  create_batches encode max_tokens msgs = pre ++ b1 :: b2 :: post ->
  cannot_merge encode max_tokens b1 b2
  /\ max_tokens < batch_tokens encode b1 + batch_tokens encode b2.
Proof.
  intros Hrun.
  assert (H : cannot_merge encode max_tokens b1 b2).
  { refine (batch_loop_greedy encode max_tokens msgs [] [] 0 eq_refl _ _
              pre b1 b2 post Hrun).
    - intros p x y q Heq. destruct p; discriminate.
    - intros p x Heq. destruct p; discriminate. }
  split; [exact H|].
  destruct H as (msg & rest & -> & Hlt).
  unfold batch_tokens in *. simpl. lia.
Qed.

Lemma batches_greedy_witness :
  create_batches char_encode 5 sample_messages
  = [[sample_message 1 "alice" "abc"; sample_message 2 "bob" "de"]]
    ++ [sample_message 3 "alice" "abcdefgh"]
    :: [sample_message 4 "carol" ""; sample_message 5 "bob" "abcde"]
    :: [[sample_message 6 "alice" "a"]]
  /\ cannot_merge char_encode 5
       [sample_message 3 "alice" "abcdefgh"]
       [sample_message 4 "carol" ""; sample_message 5 "bob" "abcde"]
  /\ 5 < batch_tokens char_encode [sample_message 3 "alice" "abcdefgh"]
         + batch_tokens char_encode
             [sample_message 4 "carol" ""; sample_message 5 "bob" "abcde"].
Proof.
  assert (H : create_batches char_encode 5 sample_messages
    = [[sample_message 1 "alice" "abc"; sample_message 2 "bob" "de"]]
      ++ [sample_message 3 "alice" "abcdefgh"]
      :: [sample_message 4 "carol" ""; sample_message 5 "bob" "abcde"]
      :: [[sample_message 6 "alice" "a"]]) by reflexivity.
  split; [exact H|].
  exact (batches_greedy char_encode 5 sample_messages _ _ _ _ H).
Defined.

(** ** One batch and one run: what is touched *)

Lemma batch_frame_refl (w : World) : batch_frame 0 w w.
Proof.
  unfold batch_frame. repeat split; try reflexivity; [lia | | auto].
  exists []. rewrite app_nil_r. reflexivity.
Qed.

Lemma batch_frame_trans (n m : nat) (w1 w2 w3 : World) :
  batch_frame n w1 w2 -> batch_frame m w2 w3 -> batch_frame (n + m) w1 w3.
Proof.
  intros (Hm1 & Hp1 & Hc1 & Hl1 & [a1 Ha1] & Hn1)
         (Hm2 & Hp2 & Hc2 & Hl2 & [a2 Ha2] & Hn2).
  unfold batch_frame. repeat split; try congruence; [lia | | auto].
  exists (a1 ++ a2). rewrite Ha2, Ha1, app_assoc. reflexivity.
Qed.

Lemma called_frame (w : World) : batch_frame 1 w (called w).
Proof.
  unfold batch_frame, called, analysis_ids. cbn.
  repeat split; try reflexivity; [|auto].
  exists []. rewrite app_nil_r. reflexivity.
Qed.

Lemma save_message_analysis_frame (msg : Message) (a : Analysis) (w : World) :
  batch_frame 0 w (_save_message_analysis msg a w).
Proof.
  unfold _save_message_analysis.
  destruct (find (fun ma => Z.eqb (ma_message_id ma) (msg_id msg))
              (message_analyses w)) eqn:Hfind; [apply batch_frame_refl|].
  unfold batch_frame, analysis_ids. cbn.
  repeat split; try reflexivity; [lia | eexists; reflexivity |].
  intros Hnd. rewrite map_app. simpl.
  apply NoDup_app; [exact Hnd | repeat constructor; simpl; tauto |].
  intros id Hid [<-|[]].
  apply in_map_iff in Hid. destruct Hid as (ma & Hma & Hin).
  pose proof (find_none _ _ Hfind ma Hin) as Hne. simpl in Hne.
  rewrite Hma, Z.eqb_refl in Hne. discriminate.
Qed.

Section FrameFacts.
Variable llm : nat -> list Message -> option string.
Variable json_loads : string -> option reply.

Lemma save_analyses_frame (batch : list Message) (analyses : list Analysis) :
  forall w, batch_frame 0 w (snd (save_analyses batch analyses w)).
Proof.
  induction analyses as [|a analyses IH]; simpl; intros w.
  - apply batch_frame_refl.
  - destruct (a_message_id a) as [message_id|]; [|apply batch_frame_refl].
    destruct (find (fun m => Z.eqb (msg_id m) message_id) batch) as [msg|];
      [|apply IH].
    unfold bind, modify.
    pose proof (IH (_save_message_analysis msg a w)) as Hrest.
    destruct (save_analyses batch analyses (_save_message_analysis msg a w))
      as [[[]|e] w']; simpl in *;
      exact (batch_frame_trans 0 0 _ _ _
               (save_message_analysis_frame msg a w) Hrest).
Qed.

(** The world after a batch analysis: either just the request, or the
    request followed by the saving loop over the entries of the reply. *)
Lemma analyze_message_batch_world (batch : list Message) (w : World) :
  snd (_analyze_message_batch llm json_loads batch w) = called w
  \/ exists entries,
       snd (_analyze_message_batch llm json_loads batch w)
       = snd (save_analyses batch entries (called w)).
Proof.
  unfold _analyze_message_batch, try_except, bind, chat_completions_create.
  fold (called w).
  destruct (llm (llm_calls w) batch) as [content|]; [|left; reflexivity].
  destruct (json_loads content) as [[entries|field|]|]; cbn [ret raise];
    try (left; reflexivity).
  - right. exists entries.
    destruct (save_analyses batch entries (called w)) as [[[]|e] w'];
      reflexivity.
  - right. exists (get field []).
    destruct (save_analyses batch (get field []) (called w)) as [[[]|e] w'];
      reflexivity.
Qed.

Lemma analyze_message_batch_frame (batch : list Message) (w : World) :
  batch_frame 1 w (snd (_analyze_message_batch llm json_loads batch w)).
Proof.
  destruct (analyze_message_batch_world batch w) as [-> | [entries ->]].
  - apply called_frame.
  - exact (batch_frame_trans 1 0 _ _ _ (called_frame w)
             (save_analyses_frame batch entries (called w))).
Qed.

Lemma analyze_batches_frame (batches : list (list Message)) :
  forall acc w,
    batch_frame (List.length batches) w
      (snd (analyze_batches llm json_loads batches acc w)).
Proof.
  induction batches as [|batch batches IH]; simpl; intros acc w.
  - apply batch_frame_refl.
  - unfold bind.
    pose proof (analyze_message_batch_frame batch w) as Hone.
    destruct (analyze_message_batch_returns llm json_loads batch w)
      as (l & w1 & Heq).
    rewrite Heq in Hone |- *. simpl in Hone.
    exact (batch_frame_trans 1 _ _ _ _ Hone (IH (acc ++ l) w1)).
Qed.

End FrameFacts.

Lemma profile_frame_refl (w : World) : profile_frame w w.
Proof. repeat split. Qed.

Lemma profile_frame_trans (w1 w2 w3 : World) :
  profile_frame w1 w2 -> profile_frame w2 w3 -> profile_frame w1 w3.
Proof.
  intros (? & ? & ? & ?) (? & ? & ? & ?). repeat split; congruence.
Qed.

Lemma update_potential_customer_frame (username : string) (data : AuthorData)
    (score : Q) (now : nat) (w : World) :
  profile_frame w (_update_potential_customer username data score now w).
Proof.
  unfold _update_potential_customer.
  destruct (find (by_username username) (potential_customers w));
    repeat split.
Qed.

Lemma select_candidates_frame (now : nat) (items : dict AuthorData) :
  forall acc w, profile_frame w (snd (select_candidates now items acc w)).
Proof.
  induction items as [|[author data] items IH]; simpl; intros acc w.
  - apply profile_frame_refl.
  - destruct (ad_message_count data); [apply profile_frame_refl|].
    destruct (Qgtb _ 0.5); [|apply IH].
    unfold bind, modify.
    exact (profile_frame_trans _ _ _
             (update_potential_customer_frame author data _ now w)
             (IH _ _)).
Qed.

Lemma aggregate_analyses_frame (now : nat) (analyses : list Analysis)
    (w : World) :
  profile_frame w (snd (_aggregate_analyses now analyses w)).
Proof.
  unfold _aggregate_analyses.
  destruct (group_by_author analyses []) as [d|e];
    [|apply profile_frame_refl].
  unfold bind, ret.
  pose proof (select_candidates_frame now d [] w) as H.
  destruct (select_candidates now d [] w) as [[cands|e] w1]; exact H.
Qed.

(** Aggregation raises only on an entry without author, before any write. *)
Lemma aggregate_analyses_raise (now : nat) (analyses : list Analysis)
    (w w' : World) (e : exn) :
  _aggregate_analyses now analyses w = (Raise e, w') ->
  e = KeyError "author" /\ w' = w.
Proof.
  unfold _aggregate_analyses.
  destruct (group_by_author analyses []) as [d|e0] eqn:Hgroup.
  - intros Hrun. exfalso.
    pose proof (group_by_author_grouped analyses [] [] d grouped_nil Hgroup)
      as Hgrouped.
    destruct (select_candidates_returns now d
                (grouped_counts _ _ Hgrouped) [] w) as (cands & w1 & Hsel).
    unfold bind, ret in Hrun. rewrite Hsel in Hrun. discriminate.
  - unfold raise. intros [= <- <-]. split; [|reflexivity].
    revert Hgroup. generalize (@nil (string * AuthorData)).
    induction analyses as [|a analyses IH]; simpl; intros d Hgroup;
      [discriminate|].
    destruct (a_author a); [exact (IH _ Hgroup)|].
    injection Hgroup as <-. reflexivity.
Qed.

Section RunFacts.
Variable encode : string -> list nat.
Variable llm : nat -> list Message -> option string.
Variable json_loads : string -> option reply.

Lemma analyze_channel_empty (channel_id : Z) (now : nat) (w : World) :
  filter (fun m => Z.eqb (msg_channel_id m) channel_id) (messages w) = [] ->
  analyze_channel encode llm json_loads channel_id now w
  = (Ok {| r_status := "no_messages";
           r_total_messages_analyzed := None;
           r_potential_customers := [];
           r_summary := None |}, w).
Proof.
  intros Hnone. unfold analyze_channel. rewrite Hnone. reflexivity.
Qed.

(** A run on a channel that has messages: the batches, then aggregation,
    then the snapshot when aggregation returned. *)
Lemma analyze_channel_run (channel_id : Z) (now : nat) (w : World) :
  filter (fun m => Z.eqb (msg_channel_id m) channel_id) (messages w) <> [] ->
  exists all w1,
    analyze_batches llm json_loads
      (_create_message_batches encode
         (filter (fun m => Z.eqb (msg_channel_id m) channel_id) (messages w)))
      [] w = (Ok all, w1)
    /\ analyze_channel encode llm json_loads channel_id now w
       = match _aggregate_analyses now all w1 with
         | (Ok res, w2) => (Ok res, _save_channel_analysis channel_id res w2)
         | (Raise e, w2) => (Raise e, w2)
         end.
Proof.
  intros Hsome. unfold analyze_channel.
  destruct (filter (fun m => Z.eqb (msg_channel_id m) channel_id)
              (messages w)) as [|m msgs] eqn:Hmsgs; [contradiction|].
  destruct (analyze_batches_returns llm json_loads
              (_create_message_batches encode (m :: msgs)) [] w)
    as (all & w1 & Hbatches).
  exists all, w1. split; [exact Hbatches|].
  unfold bind at 1. rewrite Hbatches. unfold bind, modify, ret.
  destruct (_aggregate_analyses now all w1) as [[res|e] w2]; reflexivity.
Qed.

Lemma analyze_channel_batch_frame (channel_id : Z) (now : nat) (w : World) :
  let w' := snd (analyze_channel encode llm json_loads channel_id now w) in
  messages w' = messages w
  /\ llm_calls w'
     = llm_calls w
       + List.length
           (_create_message_batches encode
              (filter (fun m => Z.eqb (msg_channel_id m) channel_id)
                 (messages w)))
  /\ (exists added, message_analyses w' = message_analyses w ++ added)
  /\ (NoDup (analysis_ids w) -> NoDup (analysis_ids w')).
Proof.
  destruct (filter (fun m => Z.eqb (msg_channel_id m) channel_id)
              (messages w)) as [|m msgs] eqn:Hmsgs.
  - rewrite (analyze_channel_empty channel_id now w Hmsgs). simpl.
    repeat split; [lia | | auto]. exists []. rewrite app_nil_r. reflexivity.
  - assert (Hsome : filter (fun m => Z.eqb (msg_channel_id m) channel_id)
                      (messages w) <> [])
      by (rewrite Hmsgs; discriminate).
    destruct (analyze_channel_run channel_id now w Hsome)
      as (all & w1 & Hbatches & ->).
    rewrite Hmsgs in Hbatches.
    pose proof (analyze_batches_frame llm json_loads
                  (_create_message_batches encode (m :: msgs)) [] w) as Hf.
    rewrite Hbatches in Hf. simpl in Hf.
    destruct Hf as (Hm & _ & _ & Hl & [added Ha] & Hn).
    pose proof (aggregate_analyses_frame now all w1) as Hg.
    destruct (_aggregate_analyses now all w1) as [[res|e] w2];
      simpl in Hg; destruct Hg as (Hm2 & Ha2 & _ & Hl2);
      unfold analysis_ids in *; cbn [snd _save_channel_analysis messages
        message_analyses llm_calls];
      rewrite Hm2, Ha2, Hl2;
      (split; [exact Hm|]); (split; [exact Hl|]);
      (split; [exists added; exact Ha | exact Hn]).
Qed.

End RunFacts.

(** X3. A run never rewrites or removes a stored message analysis: the
    table only grows at its end, and when no message had two analyses
    before the run, none has two after it, whatever the model replies and
    whether or not the run raises. *)
Theorem analysis_rows_kept
    (encode : string -> list nat)
    (llm : nat -> list Message -> option string)
    (json_loads : string -> option reply)
    (channel_id : Z) (now : nat) (w : World) :
  NoDup (analysis_ids w) ->
  NoDup (analysis_ids
           (snd (analyze_channel encode llm json_loads channel_id now w)))
  /\ exists added,
       message_analyses
         (snd (analyze_channel encode llm json_loads channel_id now w))
       = message_analyses w ++ added.
Proof.
  intros Hnd.
  destruct (analyze_channel_batch_frame encode llm json_loads channel_id
              now w) as (_ & _ & Hadded & Hkeep).
  split; [exact (Hkeep Hnd) | exact Hadded].
Qed.

Lemma analysis_rows_kept_witness :
  NoDup (analysis_ids
           (snd (analyze_channel char_encode sample_llm sample_json_loads
                   7 1 sample_world)))
  /\ exists added,
       message_analyses
         (snd (analyze_channel char_encode sample_llm sample_json_loads
                 7 1 sample_world))
       = message_analyses sample_world ++ added.
Proof.
  apply (analysis_rows_kept char_encode sample_llm sample_json_loads 7 1
           sample_world).
  constructor.
Defined.

(** X4. A run sends exactly one request to the model per batch, whatever
    the replies are and whether or not it raises, and it never changes the
    messages table. *)
Theorem one_request_per_batch
    (encode : string -> list nat)
    (llm : nat -> list Message -> option string)
    (json_loads : string -> option reply)
    (channel_id : Z) (now : nat) (w : World) :
  llm_calls (snd (analyze_channel encode llm json_loads channel_id now w))
  = llm_calls w
    + List.length
        (_create_message_batches encode
           (filter (fun m => Z.eqb (msg_channel_id m) channel_id)
              (messages w)))
  /\ messages (snd (analyze_channel encode llm json_loads channel_id now w))
     = messages w.
Proof.
  destruct (analyze_channel_batch_frame encode llm json_loads channel_id
              now w) as (Hm & Hl & _ & _).
  split; [exact Hl | exact Hm].
Qed.




(** X6. When the request itself fails, or the reply parses to a scalar, or
    to an object without an ['analyses'] key, the batch yields the empty
    sequence without raising and the store is left as it was; only the
    request is counted. *)
Theorem reply_without_entries
    (llm : nat -> list Message -> option string)
    (json_loads : string -> option reply)
    (batch : list Message) (w : World) :
  llm (llm_calls w) batch = None
  \/ (exists content,
        llm (llm_calls w) batch = Some content
        /\ (json_loads content = Some ReplyScalar
            \/ json_loads content = Some (ReplyObject None))) ->
  _analyze_message_batch llm json_loads batch w = (Ok [], called w).
Proof.
  unfold _analyze_message_batch, try_except, bind, chat_completions_create.
  fold (called w).
  intros [-> | (content & -> & [-> | ->])]; reflexivity.
Qed.

Lemma reply_without_entries_witness :
  _analyze_message_batch sample_llm scalar_json_loads
    [sample_message 1 "alice" "abc"] sample_world
  = (Ok [], called sample_world).
Proof.
  apply (reply_without_entries sample_llm scalar_json_loads
           [sample_message 1 "alice" "abc"] sample_world).
  right. exists "[...]". split; [reflexivity|]. left. reflexivity.
Defined.

Lemma group_by_author_missing (analyses : list Analysis) :
  (exists a, In a analyses /\ a_author a = None) ->
  forall d, group_by_author analyses d = Raise (KeyError "author").
Proof.
  induction analyses as [|a analyses IH]; simpl;
    intros (b & Hin & Hb) d; [contradiction|].
  destruct (a_author a) as [author|] eqn:Ha; [|reflexivity].
  apply IH. destruct Hin as [->|Hin]; [congruence|].
  exists b. split; assumption.
Qed.

(** X7. One entry without author anywhere in the sequence makes
    aggregation raise KeyError before it writes anything: no profile is
    created or merged, not even for the authors that would qualify. *)
Theorem missing_author_aborts_aggregation
    (now : nat) (analyses : list Analysis) (w : World) :
  (exists a, In a analyses /\ a_author a = None) ->
  _aggregate_analyses now analyses w = (Raise (KeyError "author"), w).
Proof.
  intros Hmissing. unfold _aggregate_analyses.
  rewrite (group_by_author_missing analyses Hmissing). reflexivity.
Qed.

Lemma missing_author_aborts_aggregation_witness :
  (0.5 < average_score "alice" (sample_entries ++ [anonymous_entry]))%Q
  /\ _aggregate_analyses 1 (sample_entries ++ [anonymous_entry]) sample_world
     = (Raise (KeyError "author"), sample_world).
Proof.
  split; [reflexivity|].
  apply (missing_author_aborts_aggregation 1
           (sample_entries ++ [anonymous_entry]) sample_world).
  exists anonymous_entry. split; [|reflexivity].
  apply in_or_app. right. left. reflexivity.
Defined.

(** ** One run: snapshot and failure *)

(** X8. A run that returns with status success has appended exactly one
    snapshot to the channel's analyses and changed none of the earlier
    ones; the snapshot names the channel, counts the candidates of the
    result, and lists the first five of them (at most) by name and score. *)
Theorem successful_run_appends_snapshot
    (encode : string -> list nat)
    (llm : nat -> list Message -> option string)
    (json_loads : string -> option reply)
    (channel_id : Z) (now : nat) (w w' : World) (res : AnalysisResult) :
  analyze_channel encode llm json_loads channel_id now w = (Ok res, w') ->
  r_status res = "success" ->
  exists snapshot,
    channel_analyses w' = channel_analyses w ++ [snapshot]
    /\ ca_channel_id snapshot = channel_id
    /\ ca_analysis_type snapshot = "customer_intent"
    /\ Some (ca_summary snapshot) = r_summary res
    /\ in_potential_customers_count (ca_insights snapshot)
       = List.length (r_potential_customers res)
    /\ Some (in_messages_analyzed (ca_insights snapshot))
       = r_total_messages_analyzed res
    /\ in_top_customers (ca_insights snapshot)
       = map (fun c => (c_username c, c_score c))
           (firstn 5 (r_potential_customers res))
    /\ List.length (in_top_customers (ca_insights snapshot)) <= 5.
Proof.
  intros Hrun Hstatus.
  destruct (filter (fun m => Z.eqb (msg_channel_id m) channel_id)
              (messages w)) as [|m msgs] eqn:Hmsgs.
  - rewrite (analyze_channel_empty encode llm json_loads channel_id now w
               Hmsgs) in Hrun.
    injection Hrun as <- _. discriminate.
  - assert (Hsome : filter (fun m => Z.eqb (msg_channel_id m) channel_id)
                      (messages w) <> [])
      by (rewrite Hmsgs; discriminate).
    destruct (analyze_channel_run encode llm json_loads channel_id now w
                Hsome) as (all & w1 & Hbatches & Heq).
    rewrite Heq in Hrun. clear Heq.
    pose proof (analyze_batches_frame llm json_loads
                  (_create_message_batches encode
                     (filter (fun m => Z.eqb (msg_channel_id m) channel_id)
                        (messages w))) [] w) as Hf.
    rewrite Hbatches in Hf. simpl in Hf.
    destruct Hf as (_ & _ & Hc1 & _).
    pose proof (aggregate_analyses_frame now all w1) as Hg.
    destruct (_aggregate_analyses now all w1) as [[res2|e] w2] eqn:Hagg;
      [|discriminate].
    simpl in Hg. destruct Hg as (_ & _ & Hc2 & _).
    injection Hrun as <- <-.
    assert (Hres : r_summary res2 = Some (get (r_summary res2) "")
                   /\ r_total_messages_analyzed res2
                      = Some (get (r_total_messages_analyzed res2) 0)).
    { unfold _aggregate_analyses in Hagg.
      destruct (group_by_author all []) as [d|e0]; [|discriminate].
      unfold bind, ret in Hagg.
      destruct (select_candidates now d [] w1) as [[cands|e] w3];
        [|discriminate].
      injection Hagg as <- _. split; reflexivity. }
    destruct Hres as [Hsum Htot].
    eexists. cbn [_save_channel_analysis channel_analyses].
    rewrite Hc2, Hc1. split; [reflexivity|]. cbn -[firstn].
    repeat split; try (symmetry; assumption).
    rewrite length_map, length_firstn. apply Nat.le_min_l.
Qed.

Lemma successful_run_appends_snapshot_witness :
  r_status
    (match fst (analyze_channel char_encode sample_llm sample_json_loads
                  7 1 sample_world) with
     | Ok res => res
     | Raise _ => mkAnalysisResult "" None [] None
     end) = "success"
  /\ exists snapshot,
       channel_analyses
         (snd (analyze_channel char_encode sample_llm sample_json_loads
                 7 1 sample_world))
       = channel_analyses sample_world ++ [snapshot]
       /\ ca_channel_id snapshot = 7%Z
       /\ in_potential_customers_count (ca_insights snapshot) = 1.
Proof.
  destruct (analyze_channel char_encode sample_llm sample_json_loads
              7 1 sample_world) as [out w'] eqn:Hrun.
  assert (Hout : exists res, out = Ok res /\ r_status res = "success"
                             /\ List.length (r_potential_customers res) = 1).
  { vm_compute in Hrun. injection Hrun as <- _. eexists.
    split; [reflexivity|]. split; reflexivity. }
  destruct Hout as (res & -> & Hstatus & Hlen). simpl.
  split; [exact Hstatus|].
  destruct (successful_run_appends_snapshot char_encode sample_llm
              sample_json_loads 7 1 sample_world w' res Hrun Hstatus)
    as (snapshot & Happ & Hid & _ & _ & Hcount & _).
  exists snapshot. split; [exact Happ|]. split; [exact Hid|].
  rewrite Hcount. exact Hlen.
Defined.

(** X9. A run that raises KeyError on the author key (an entry without
    author reached aggregation) has written no profile and no snapshot,
    and the stored messages are as before: the requests it sent and the
    message analyses it saved are all that is left of it. *)
Theorem raising_run_writes_no_profile
    (encode : string -> list nat)
    (llm : nat -> list Message -> option string)
    (json_loads : string -> option reply)
    (channel_id : Z) (now : nat) (w w' : World) :
  analyze_channel encode llm json_loads channel_id now w
  = (Raise (KeyError "author"), w') ->
  potential_customers w' = potential_customers w
  /\ channel_analyses w' = channel_analyses w
  /\ messages w' = messages w.
Proof.
  intros Hrun.
  destruct (filter (fun m => Z.eqb (msg_channel_id m) channel_id)
              (messages w)) as [|m msgs] eqn:Hmsgs.
  - rewrite (analyze_channel_empty encode llm json_loads channel_id now w
               Hmsgs) in Hrun. discriminate.
  - assert (Hsome : filter (fun m => Z.eqb (msg_channel_id m) channel_id)
                      (messages w) <> [])
      by (rewrite Hmsgs; discriminate).
    destruct (analyze_channel_run encode llm json_loads channel_id now w
                Hsome) as (all & w1 & Hbatches & Heq).
    rewrite Heq in Hrun. clear Heq.
    pose proof (analyze_batches_frame llm json_loads
                  (_create_message_batches encode
                     (filter (fun m => Z.eqb (msg_channel_id m) channel_id)
                        (messages w))) [] w) as Hf.
    rewrite Hbatches in Hf. simpl in Hf.
    destruct Hf as (Hm1 & Hp1 & Hc1 & _).
    destruct (_aggregate_analyses now all w1) as [[res|e2] w2] eqn:Hagg;
      [discriminate|].
    injection Hrun as _ <-.
    destruct (aggregate_analyses_raise now all w1 w2 e2 Hagg) as [_ ->].
    repeat split; assumption.
Qed.

Lemma raising_run_writes_no_profile_witness :
  fst (analyze_channel char_encode sample_llm anonymous_json_loads
         7 1 sample_world) = Raise (KeyError "author")
  /\ potential_customers
       (snd (analyze_channel char_encode sample_llm anonymous_json_loads
               7 1 sample_world)) = potential_customers sample_world
  /\ channel_analyses
       (snd (analyze_channel char_encode sample_llm anonymous_json_loads
               7 1 sample_world)) = channel_analyses sample_world
  /\ messages
       (snd (analyze_channel char_encode sample_llm anonymous_json_loads
               7 1 sample_world)) = messages sample_world.
Proof.
  destruct (analyze_channel char_encode sample_llm anonymous_json_loads
              7 1 sample_world) as [out w'] eqn:Hrun.
  assert (Hout : out = Raise (KeyError "author")).
  { vm_compute in Hrun. injection Hrun as <- _. reflexivity. }
  subst out. simpl. split; [reflexivity|].
  exact (raising_run_writes_no_profile char_encode sample_llm
           anonymous_json_loads 7 1 sample_world w' Hrun).
Defined.

(** ** Aggregation: the candidate list *)

Section SortedReverseOrder.
Variable A : Type.
Variable key_gt : A -> A -> bool.
Variable R : A -> A -> Prop.
Hypothesis gt_R : forall y x, key_gt y x = true -> R y x.
Hypothesis not_gt_R : forall y x, key_gt y x = false -> R x y.
Hypothesis R_trans : forall x y z, R x y -> R y z -> R x z.

Lemma insert_desc_ordered (x : A) (l : list A) :
  StronglySorted R l -> StronglySorted R (insert_desc key_gt x l).
Proof.
  induction 1 as [|y l Hl IH Hy]; simpl.
  - constructor; constructor.
  - destruct (key_gt y x) eqn:E.
    + constructor; [exact IH|].
      apply (Permutation_Forall
               (Permutation_sym (insert_desc_perm _ key_gt x l))).
      constructor; [apply gt_R; exact E | exact Hy].
    + constructor; [constructor; assumption|].
      constructor; [apply not_gt_R; exact E|].
      apply Forall_forall. intros z Hz. rewrite Forall_forall in Hy.
      apply R_trans with y; [apply not_gt_R; exact E | exact (Hy z Hz)].
Qed.

Lemma sorted_reverse_ordered (l : list A) :
  StronglySorted R (sorted_reverse key_gt l).
Proof.
  induction l as [|x l IH]; simpl; [constructor|].
  apply insert_desc_ordered. exact IH.
Qed.
End SortedReverseOrder.

Lemma sorted_by_score (l : list Candidate) :
  StronglySorted by_score_desc (sorted_reverse score_gt l).
Proof.
  apply sorted_reverse_ordered; unfold score_gt, by_score_desc.
  - intros y x H. apply Qgtb_true in H. apply Qlt_le_weak. exact H.
  - intros y x H. apply Qgtb_false in H. exact H.
  - intros x y z Hxy Hyz. exact (Qle_trans _ _ _ Hyz Hxy).
Qed.

(** The selection loop appends the candidates of the qualifying items, in
    the order of the items. *)
Lemma select_candidates_result (now : nat) (items : dict AuthorData) :
  forall acc w cands w',
    select_candidates now items acc w = (Ok cands, w') ->
    cands = acc ++ map candidate_of (filter qualifies items).
Proof.
  induction items as [|[author data] items IH]; simpl;
    intros acc w cands w' Hrun.
  - injection Hrun as <- _. rewrite app_nil_r. reflexivity.
  - unfold qualifies at 1. simpl.
    destruct (ad_message_count data) as [|n] eqn:Hn; [discriminate|].
    destruct (Qgtb (ad_total_score data / Q_of_nat (S n)) 0.5).
    + unfold bind, modify in Hrun. rewrite (IH _ _ _ _ Hrun).
      rewrite <- app_assoc. simpl. unfold candidate_of at 2. simpl.
      rewrite Hn. reflexivity.
    + exact (IH _ _ _ _ Hrun).
Qed.

Lemma filter_keys_NoDup {V} (f : string * V -> bool) (d : dict V) :
  NoDup (map fst d) -> NoDup (map fst (filter f d)).
Proof.
  induction d as [|[k v] d IH]; simpl; intros Hnd; [constructor|].
  inversion Hnd as [|? ? Hk Hnd']; subst.
  destruct (f (k, v)); simpl; [|exact (IH Hnd')].
  constructor; [|exact (IH Hnd')].
  intros Hin. apply Hk. apply in_map_iff in Hin.
  destruct Hin as ([k' v'] & Hfst & Hin). simpl in Hfst. subst k'.
  apply filter_In in Hin. apply in_map_iff. exists (k, v').
  split; [reflexivity | exact (proj1 Hin)].
Qed.

(** The candidates of a returned aggregation, before sorting: one per
    group whose average is above the threshold. *)
Lemma aggregate_analyses_result (now : nat) (analyses : list Analysis)
    (w w' : World) (res : AnalysisResult) :
  _aggregate_analyses now analyses w = (Ok res, w') ->
  exists d,
    grouped analyses d
    /\ r_potential_customers res
       = sorted_reverse score_gt (map candidate_of (filter qualifies d))
    /\ r_status res = "success"
    /\ r_total_messages_analyzed res = Some (List.length analyses).
Proof.
  unfold _aggregate_analyses. intros Hrun.
  destruct (group_by_author analyses []) as [d|e] eqn:Hgroup;
    [|discriminate].
  exists d.
  split; [exact (group_by_author_grouped analyses [] [] d grouped_nil Hgroup)|].
  unfold bind, ret in Hrun.
  destruct (select_candidates now d [] w) as [[cands|e] w1] eqn:Hsel;
    [|discriminate].
  injection Hrun as <- _.
  rewrite (select_candidates_result now d [] w cands w1 Hsel).
  repeat split.
Qed.

Lemma grouped_item (analyses : list Analysis) (d : dict AuthorData)
    (author : string) (data : AuthorData) :
  grouped analyses d ->
  (In (author, data) d <->
   records_of author analyses <> []
   /\ data = data_of (records_of author analyses)).
Proof.
  intros [Hnd Hget]. split.
  - intros Hin. apply dict_get_In in Hin; [|exact Hnd].
    rewrite Hget in Hin.
    destruct (records_of author analyses) as [|r rs]; [discriminate|].
    injection Hin as <-. split; [discriminate | reflexivity].
  - intros [Hne ->]. apply dict_get_Some_In. rewrite Hget.
    destruct (records_of author analyses); [contradiction | reflexivity].
Qed.

Lemma data_of_pain_points (records : list Analysis) (p : string) :
  In p (ad_pain_points (data_of records))
  <-> exists a, In a records /\ In p (get (a_pain_points a) []).
Proof.
  induction records as [|a records IH] using rev_ind.
  - simpl. split; [contradiction | intros (a & [] & _)].
  - rewrite data_of_snoc. cbn [add_analysis ad_pain_points].
    unfold set_update. rewrite set_of_list_union, IH. split.
    + intros [(b & Hb & Hp) | Hp].
      * exists b. split; [apply in_or_app; left; exact Hb | exact Hp].
      * exists a. split; [apply in_or_app; right; left; reflexivity|exact Hp].
    + intros (b & Hb & Hp). apply in_app_or in Hb.
      destruct Hb as [Hb | [<- | []]].
      * left. exists b. split; assumption.
      * right. exact Hp.
Qed.

Lemma data_of_interests (records : list Analysis) (p : string) :
  In p (ad_interests (data_of records))
  <-> exists a, In a records /\ In p (get (a_interests a) []).
Proof.
  induction records as [|a records IH] using rev_ind.
  - simpl. split; [contradiction | intros (a & [] & _)].
  - rewrite data_of_snoc. cbn [add_analysis ad_interests].
    unfold set_update. rewrite set_of_list_union, IH. split.
    + intros [(b & Hb & Hp) | Hp].
      * exists b. split; [apply in_or_app; left; exact Hb | exact Hp].
      * exists a. split; [apply in_or_app; right; left; reflexivity|exact Hp].
    + intros (b & Hb & Hp). apply in_app_or in Hb.
      destruct Hb as [Hb | [<- | []]].
      * left. exists b. split; assumption.
      * right. exact Hp.
Qed.

(** A returned candidate is the candidate of its author's group. *)
Lemma aggregate_candidate_item (now : nat) (analyses : list Analysis)
    (w w' : World) (res : AnalysisResult) (c : Candidate) :
  _aggregate_analyses now analyses w = (Ok res, w') ->
  In c (r_potential_customers res) ->
  records_of (c_username c) analyses <> []
  /\ c = candidate_of
           (c_username c, data_of (records_of (c_username c) analyses))
  /\ qualifies (c_username c, data_of (records_of (c_username c) analyses))
     = true.
Proof.
  intros Hrun Hc.
  destruct (aggregate_analyses_result now analyses w w' res Hrun)
    as (d & Hgrouped & Heq & _).
  rewrite Heq in Hc. apply sorted_reverse_In in Hc. apply in_map_iff in Hc.
  destruct Hc as ([k data] & <- & Hitem). apply filter_In in Hitem.
  destruct Hitem as [Hitem Hq].
  apply (grouped_item analyses d k data Hgrouped) in Hitem.
  destruct Hitem as [Hne ->]. simpl. repeat split; assumption.
Qed.

(** X11. The candidates come back sorted by descending score, and no
    author appears twice among them. *)
Theorem candidates_sorted_distinct
    (now : nat) (analyses : list Analysis) (w w' : World)
    (res : AnalysisResult) :
  _aggregate_analyses now analyses w = (Ok res, w') ->
  StronglySorted by_score_desc (r_potential_customers res)
  /\ NoDup (map c_username (r_potential_customers res)).
Proof.
  intros Hrun.
  destruct (aggregate_analyses_result now analyses w w' res Hrun)
    as (d & [Hnd _] & -> & _).
  split; [apply sorted_by_score|].
  apply (Permutation_NoDup
           (Permutation_map c_username
              (Permutation_sym
                 (sorted_reverse_perm _ score_gt
                    (map candidate_of (filter qualifies d)))))).
  rewrite map_map. simpl.
  apply (filter_keys_NoDup qualifies d Hnd).
Qed.

Lemma candidates_sorted_distinct_witness :
  (exists res,
     fst (_aggregate_analyses 1 sample_entries empty_world) = Ok res)
  /\ StronglySorted by_score_desc
       (match fst (_aggregate_analyses 1 sample_entries empty_world) with
        | Ok res => r_potential_customers res
        | Raise _ => []
        end)
  /\ NoDup
       (map c_username
          (match fst (_aggregate_analyses 1 sample_entries empty_world) with
           | Ok res => r_potential_customers res
           | Raise _ => []
           end)).
Proof.
  destruct (_aggregate_analyses 1 sample_entries empty_world)
    as [out w'] eqn:Hrun.
  assert (Hout : exists res, out = Ok res).
  { vm_compute in Hrun. injection Hrun as <- _. eexists. reflexivity. }
  destruct Hout as (res & ->). simpl.
  split; [exists res; reflexivity|].
  exact (candidates_sorted_distinct 1 sample_entries empty_world w' res Hrun).
Defined.

(** X12. A candidate carries what its author's records add up to: the
    number of records as message_count, exactly the pain points and the
    interests that some record of the author lists (each once, an absent
    list counting as empty), and the engagement level of its score and
    count. *)
Theorem candidate_fields
    (now : nat) (analyses : list Analysis) (w w' : World)
    (res : AnalysisResult) (c : Candidate) :
  _aggregate_analyses now analyses w = (Ok res, w') ->
  In c (r_potential_customers res) ->
  c_message_count c = List.length (records_of (c_username c) analyses)
  /\ 1 <= c_message_count c
  /\ (forall p, In p (c_pain_points c) <->
                exists a, In a (records_of (c_username c) analyses)
                          /\ In p (get (a_pain_points a) []))
  /\ NoDup (c_pain_points c)
  /\ (forall p, In p (c_interests c) <->
                exists a, In a (records_of (c_username c) analyses)
                          /\ In p (get (a_interests a) []))
  /\ NoDup (c_interests c)
  /\ c_engagement_level c
     = _calculate_engagement_level (c_score c) (c_message_count c).
Proof.
  intros Hrun Hc.
  destruct (aggregate_candidate_item now analyses w w' res c Hrun Hc)
    as (Hne & Heq & _).
  set (records := records_of (c_username c) analyses) in *.
  rewrite Heq. cbn [candidate_of fst snd c_message_count c_pain_points
                      c_interests c_engagement_level c_score].
  rewrite data_of_count.
  split; [reflexivity|]. split.
  { destruct records; [contradiction | simpl; lia]. }
  split; [intros p; apply data_of_pain_points|].
  split.
  { destruct records as [|a l] using rev_ind; [constructor|].
    rewrite data_of_snoc. cbn. apply NoDup_nodup. }
  split; [intros p; apply data_of_interests|].
  split; [|reflexivity].
  destruct records as [|a l] using rev_ind; [constructor|].
  rewrite data_of_snoc. cbn. apply NoDup_nodup.
Qed.

Lemma candidate_fields_witness :
  In (candidate_of ("alice", data_of (records_of "alice" sample_entries)))
     (match fst (_aggregate_analyses 1 sample_entries empty_world) with
      | Ok res => r_potential_customers res
      | Raise _ => []
      end)
  /\ c_message_count
       (candidate_of ("alice", data_of (records_of "alice" sample_entries)))
     = 3
  /\ c_engagement_level
       (candidate_of ("alice", data_of (records_of "alice" sample_entries)))
     = "medium".
Proof.
  destruct (_aggregate_analyses 1 sample_entries empty_world)
    as [out w'] eqn:Hrun.
  assert (Hout : exists res, out = Ok res /\
            In (candidate_of
                  ("alice", data_of (records_of "alice" sample_entries)))
               (r_potential_customers res)).
  { vm_compute in Hrun. injection Hrun as <- _. eexists.
    split; [reflexivity|]. vm_compute. left. reflexivity. }
  destruct Hout as (res & -> & Hin). simpl. split; [exact Hin|].
  destruct (candidate_fields 1 sample_entries empty_world w' res _ Hrun Hin)
    as (Hcount & _ & _ & _ & _ & _ & Hlevel).
  split; [exact (eq_trans Hcount eq_refl) | exact (eq_trans Hlevel eq_refl)].
Defined.

(** ** Aggregation: what it writes to the store *)

Lemma find_snoc_other {A} (p : A -> bool) (l : list A) (x : A) :
  p x = false -> find p (l ++ [x]) = find p l.
Proof.
  intros Hx. induction l as [|y l IH]; simpl.
  - rewrite Hx. reflexivity.
  - destruct (p y); [reflexivity | exact IH].
Qed.

Lemma update_potential_customer_other (username other : string)
    (data : AuthorData) (score : Q) (now : nat) (w : World) :
  other <> username ->
  find_customer other (_update_potential_customer username data score now w)
  = find_customer other w.
Proof.
  intros Hne. unfold find_customer, _update_potential_customer.
  destruct (find (by_username username) (potential_customers w));
    cbn [potential_customers].
  - induction (potential_customers w) as [|r rows IH]; simpl; [reflexivity|].
    destruct (by_username username r) eqn:Hr; simpl.
    + unfold by_username in *. cbn. apply String.eqb_eq in Hr.
      rewrite Hr. replace (String.eqb username other) with false;
        [reflexivity|].
      symmetry. apply String.eqb_neq. congruence.
    + rewrite IH. reflexivity.
  - apply find_snoc_other. unfold by_username. cbn.
    apply String.eqb_neq. congruence.
Qed.

(** The selection loop as a fold of the merge over the qualifying items. *)
Lemma select_candidates_world (now : nat) (items : dict AuthorData) :
  forall acc w cands w',
    select_candidates now items acc w = (Ok cands, w') ->
    w' = fold_left
           (fun w0 item =>
              _update_potential_customer (fst item) (snd item)
                (c_score (candidate_of item)) now w0)
           (filter qualifies items) w.
Proof.
  induction items as [|[author data] items IH]; simpl;
    intros acc w cands w' Hrun.
  - injection Hrun as _ <-. reflexivity.
  - unfold qualifies at 1. simpl.
    destruct (ad_message_count data) as [|n] eqn:Hn; [discriminate|].
    destruct (Qgtb (ad_total_score data / Q_of_nat (S n)) 0.5).
    + unfold bind, modify in Hrun. rewrite (IH _ _ _ _ Hrun). simpl.
      rewrite Hn. reflexivity.
    + exact (IH _ _ _ _ Hrun).
Qed.

Lemma merge_fold_other (now : nat) (items : dict AuthorData) (other : string) :
  ~ In other (map fst items) ->
  forall w,
    find_customer other
      (fold_left
         (fun w0 item =>
            _update_potential_customer (fst item) (snd item)
              (c_score (candidate_of item)) now w0) items w)
    = find_customer other w.
Proof.
  induction items as [|[k data] items IH]; simpl; intros Hnot w;
    [reflexivity|].
  rewrite IH; [|tauto].
  apply update_potential_customer_other. intros ->. tauto.
Qed.

(** X13. Aggregation leaves the profile of every username that is not
    among the candidates it returns exactly as it was, and creates none
    for it. *)
Theorem non_candidates_untouched
    (now : nat) (analyses : list Analysis) (w w' : World)
    (res : AnalysisResult) (username : string) :
  _aggregate_analyses now analyses w = (Ok res, w') ->
  ~ In username (map c_username (r_potential_customers res)) ->
  find_customer username w' = find_customer username w.
Proof.
  unfold _aggregate_analyses. intros Hrun Hnot.
  destruct (group_by_author analyses []) as [d|e]; [|discriminate].
  unfold bind, ret in Hrun.
  destruct (select_candidates now d [] w) as [[cands|e] w1] eqn:Hsel;
    [|discriminate].
  injection Hrun as <- <-. cbn [r_potential_customers] in Hnot.
  rewrite (select_candidates_world now d [] w cands w1 Hsel).
  apply merge_fold_other. intros Hin. apply Hnot.
  rewrite (select_candidates_result now d [] w cands w1 Hsel). simpl.
  apply (Permutation_in _
           (Permutation_map c_username
              (Permutation_sym
                 (sorted_reverse_perm _ score_gt
                    (map candidate_of (filter qualifies d)))))).
  rewrite map_map. exact Hin.
Qed.

Lemma non_candidates_untouched_witness :
  (exists res,
     fst (_aggregate_analyses 1 sample_entries alice_store) = Ok res
     /\ ~ In "bob" (map c_username (r_potential_customers res)))
  /\ find_customer "bob"
       (snd (_aggregate_analyses 1 sample_entries alice_store))
     = find_customer "bob" alice_store.
Proof.
  destruct (_aggregate_analyses 1 sample_entries alice_store)
    as [out w'] eqn:Hrun.
  assert (Hout : exists res, out = Ok res
            /\ ~ In "bob" (map c_username (r_potential_customers res))).
  { vm_compute in Hrun. injection Hrun as <- _. eexists.
    split; [reflexivity|]. simpl. intros [H|[]]. discriminate. }
  destruct Hout as (res & -> & Hnot). simpl.
  split; [exists res; split; [reflexivity | exact Hnot]|].
  exact (non_candidates_untouched 1 sample_entries alice_store w' res "bob"
           Hrun Hnot).
Defined.

(** ** The store of profiles over a whole run *)

Lemma grows_refl (p : PotentialCustomer) : grows p p.
Proof. unfold grows. repeat split; auto. Qed.

Lemma grows_trans (p q r : PotentialCustomer) :
  grows p q -> grows q r -> grows p r.
Proof.
  intros (Hu1 & Hd1 & Hf1 & Hc1 & Hp1 & Hi1)
         (Hu2 & Hd2 & Hf2 & Hc2 & Hp2 & Hi2).
  unfold grows. repeat split; try congruence; [lia | auto | auto].
Qed.

Lemma store_grows_refl (rows : list PotentialCustomer) :
  store_grows rows rows.
Proof.
  exists rows, []. split; [rewrite app_nil_r; reflexivity|].
  induction rows; constructor; [apply grows_refl | assumption].
Qed.

Lemma Forall2_grows_trans (l1 l2 l3 : list PotentialCustomer) :
  Forall2 grows l1 l2 -> Forall2 grows l2 l3 -> Forall2 grows l1 l3.
Proof.
  intros H12. revert l3.
  induction H12 as [|x y l1 l2 Hxy _ IH]; intros l3 H23;
    inversion H23; subst; constructor.
  - eapply grows_trans; eassumption.
  - apply IH. assumption.
Qed.

Lemma store_grows_trans (r1 r2 r3 : list PotentialCustomer) :
  store_grows r1 r2 -> store_grows r2 r3 -> store_grows r1 r3.
Proof.
  intros (k1 & a1 & -> & H1) (k2 & a2 & -> & H2).
  apply Forall2_app_inv_l in H2.
  destruct H2 as (k2a & k2b & Ha & Hb & ->).
  exists k2a, (k2b ++ a2). split; [rewrite app_assoc; reflexivity|].
  exact (Forall2_grows_trans _ _ _ H1 Ha).
Qed.

Lemma update_potential_customer_grows (username : string) (data : AuthorData)
    (score : Q) (now : nat) (w : World) :
  store_grows (potential_customers w)
    (potential_customers
       (_update_potential_customer username data score now w)).
Proof.
  unfold _update_potential_customer.
  destruct (find (by_username username) (potential_customers w));
    cbn [potential_customers].
  - eexists. exists []. split; [rewrite app_nil_r; reflexivity|].
    induction (potential_customers w) as [|r rows IH]; simpl; [constructor|].
    destruct (by_username username r); constructor;
      try apply grows_refl; try exact IH.
    + unfold grows. cbn. repeat split; try lia;
        intros x Hx; apply set_of_list_union; left; exact Hx.
    + clear IH. induction rows; constructor;
        [apply grows_refl | assumption].
  - eexists. eexists. split; [reflexivity|].
    induction (potential_customers w); constructor;
      [apply grows_refl | assumption].
Qed.

Lemma update_potential_customer_usernames (username : string)
    (data : AuthorData) (score : Q) (now : nat) (w : World) :
  NoDup (map pc_username (potential_customers w)) ->
  NoDup (map pc_username
           (potential_customers
              (_update_potential_customer username data score now w))).
Proof.
  intros Hnd. unfold _update_potential_customer.
  destruct (find (by_username username) (potential_customers w)) eqn:Hfind;
    cbn [potential_customers].
  - replace (map pc_username (update_first _ _ (potential_customers w)))
      with (map pc_username (potential_customers w)); [exact Hnd|].
    clear. induction (potential_customers w) as [|r rows IH]; simpl;
      [reflexivity|].
    destruct (by_username username r); simpl; [reflexivity|].
    rewrite IH. reflexivity.
  - rewrite map_app. simpl.
    apply NoDup_app; [exact Hnd | repeat constructor; simpl; tauto|].
    intros u Hu [<-|[]]. apply in_map_iff in Hu.
    destruct Hu as (r & Hr & Hin).
    pose proof (find_none _ _ Hfind r Hin) as Hne.
    unfold by_username in Hne. rewrite Hr, String.eqb_refl in Hne.
    discriminate.
Qed.

Lemma update_potential_customer_consistent (username : string)
    (data : AuthorData) (score : Q) (now : nat) (w : World) :
  Forall consistent (potential_customers w) ->
  Forall consistent
    (potential_customers
       (_update_potential_customer username data score now w)).
Proof.
  intros Hrows. unfold _update_potential_customer.
  destruct (find (by_username username) (potential_customers w));
    cbn [potential_customers].
  - induction Hrows as [|r rows Hr Hrows IH]; simpl; [constructor|].
    destruct (by_username username r); constructor; try assumption.
    reflexivity.
  - apply Forall_app. split; [exact Hrows|].
    constructor; [reflexivity | constructor].
Qed.

Section RunStore.
Variable encode : string -> list nat.
Variable llm : nat -> list Message -> option string.
Variable json_loads : string -> option reply.

(** What every merge keeps, a whole run keeps. *)
Variable P : list PotentialCustomer -> Prop.
Hypothesis P_update :
  forall username data score now w,
    P (potential_customers w) ->
    P (potential_customers
         (_update_potential_customer username data score now w)).

Lemma select_candidates_keeps (now : nat) (items : dict AuthorData) :
  forall acc w,
    P (potential_customers w) ->
    P (potential_customers (snd (select_candidates now items acc w))).
Proof.
  induction items as [|[author data] items IH]; simpl; intros acc w Hw;
    [exact Hw|].
  destruct (ad_message_count data); [exact Hw|].
  destruct (Qgtb _ 0.5); [|apply IH; exact Hw].
  unfold bind, modify. apply IH. apply P_update. exact Hw.
Qed.

Lemma aggregate_analyses_keeps (now : nat) (analyses : list Analysis)
    (w : World) :
  P (potential_customers w) ->
  P (potential_customers (snd (_aggregate_analyses now analyses w))).
Proof.
  intros Hw. unfold _aggregate_analyses.
  destruct (group_by_author analyses []) as [d|e]; [|exact Hw].
  unfold bind, ret.
  pose proof (select_candidates_keeps now d [] w Hw) as H.
  destruct (select_candidates now d [] w) as [[cands|e] w1]; exact H.
Qed.

Lemma analyze_channel_keeps (channel_id : Z) (now : nat) (w : World) :
  P (potential_customers w) ->
  P (potential_customers
       (snd (analyze_channel encode llm json_loads channel_id now w))).
Proof.
  intros Hw.
  destruct (filter (fun m => Z.eqb (msg_channel_id m) channel_id)
              (messages w)) as [|m msgs] eqn:Hmsgs.
  - rewrite (analyze_channel_empty encode llm json_loads channel_id now w
               Hmsgs). exact Hw.
  - assert (Hsome : filter (fun m => Z.eqb (msg_channel_id m) channel_id)
                      (messages w) <> [])
      by (rewrite Hmsgs; discriminate).
    destruct (analyze_channel_run encode llm json_loads channel_id now w
                Hsome) as (all & w1 & Hbatches & ->).
    pose proof (analyze_batches_frame llm json_loads
                  (_create_message_batches encode
                     (filter (fun m => Z.eqb (msg_channel_id m) channel_id)
                        (messages w))) [] w) as Hf.
    rewrite Hbatches in Hf. simpl in Hf.
    destruct Hf as (_ & Hp1 & _).
    rewrite <- Hp1 in Hw.
    pose proof (aggregate_analyses_keeps now all w1 Hw) as H.
    destruct (_aggregate_analyses now all w1) as [[res|e] w2]; exact H.
Qed.

End RunStore.

(** X15. A run never deletes or renames a profile: every stored profile
    is still in its place afterwards, with the same username, user id and
    first_seen, a message_count that is no smaller, and all its pain
    points and interests; new profiles are added after the old ones.  This
    holds whatever the model replies and also when the run raises. *)
Theorem profiles_never_shrink
    (encode : string -> list nat)
    (llm : nat -> list Message -> option string)
    (json_loads : string -> option reply)
    (channel_id : Z) (now : nat) (w : World) :
  store_grows (potential_customers w)
    (potential_customers
       (snd (analyze_channel encode llm json_loads channel_id now w))).
Proof.
  apply (analyze_channel_keeps encode llm json_loads
           (store_grows (potential_customers w))).
  - intros username data score t w0 H.
    exact (store_grows_trans _ _ _ H
             (update_potential_customer_grows username data score t w0)).
  - apply store_grows_refl.
Qed.

(** X16. A run keeps the store well formed: when no two profiles share a
    username before it, none do after it, and when every stored
    engagement level is the level of the stored score and count, that is
    still so afterwards. *)
Theorem profile_invariants_kept
    (encode : string -> list nat)
    (llm : nat -> list Message -> option string)
    (json_loads : string -> option reply)
    (channel_id : Z) (now : nat) (w : World) :
  NoDup (map pc_username (potential_customers w)) ->
  Forall consistent (potential_customers w) ->
  NoDup (map pc_username
           (potential_customers
              (snd (analyze_channel encode llm json_loads channel_id now w))))
  /\ Forall consistent
       (potential_customers
          (snd (analyze_channel encode llm json_loads channel_id now w))).
Proof.
  intros Hnd Hcons. split.
  - apply (analyze_channel_keeps encode llm json_loads
             (fun rows => NoDup (map pc_username rows)));
      [|exact Hnd].
    intros. apply update_potential_customer_usernames. assumption.
  - apply (analyze_channel_keeps encode llm json_loads (Forall consistent));
      [|exact Hcons].
    intros. apply update_potential_customer_consistent. assumption.
Qed.

Lemma profile_invariants_kept_witness :
  NoDup (map pc_username
           (potential_customers
              (snd (analyze_channel char_encode sample_llm sample_json_loads
                      7 1 sample_world))))
  /\ Forall consistent
       (potential_customers
          (snd (analyze_channel char_encode sample_llm sample_json_loads
                  7 1 sample_world))).
Proof.
  apply (profile_invariants_kept char_encode sample_llm sample_json_loads
           7 1 sample_world); constructor.
Defined.

(** ** Engagement levels and score ranges *)

(** X17. The classifier only ever answers high, medium or low, and it is
    monotone: a score and a message count that are both at least as large
    never give a lower level. *)
Theorem engagement_monotone
    (score score' : Q) (message_count message_count' : nat) :
  (score <= score')%Q -> message_count <= message_count' ->
  level_rank (_calculate_engagement_level score message_count)
  <= level_rank (_calculate_engagement_level score' message_count')
  /\ In (_calculate_engagement_level score message_count)
        ["high"; "medium"; "low"].
Proof.
  intros Hs Hn. unfold _calculate_engagement_level.
  destruct (Qgtb_spec score 0.8) as [E8|E8];
    destruct (Nat.ltb_spec 5 message_count) as [E5|E5];
    destruct (Qgtb_spec score 0.6) as [E6|E6];
    destruct (Nat.ltb_spec 3 message_count) as [E3|E3];
    destruct (Qgtb_spec score' 0.8) as [F8|F8];
    destruct (Nat.ltb_spec 5 message_count') as [F5|F5];
    destruct (Qgtb_spec score' 0.6) as [F6|F6];
    destruct (Nat.ltb_spec 3 message_count') as [F3|F3];
    simpl; (split; [|auto 6]);
    first [ lia | solve [unfold level_rank; simpl; lia]
          | exfalso; first [lia | lra] ].
Qed.

Lemma engagement_monotone_witness :
  (0.7 <= 0.85)%Q /\ 2 <= 6
  /\ level_rank (_calculate_engagement_level 0.7 2)
     <= level_rank (_calculate_engagement_level 0.85 6)
  /\ In (_calculate_engagement_level 0.7 2) ["high"; "medium"; "low"].
Proof.
  assert (Hs : (0.7 <= 0.85)%Q) by (unfold Qle; simpl; lia).
  assert (Hn : 2 <= 6) by lia.
  split; [exact Hs|]. split; [exact Hn|].
  exact (engagement_monotone 0.7 0.85 2 6 Hs Hn).
Defined.

Lemma score_sum_snoc (records : list Analysis) (a : Analysis) :
  score_sum (records ++ [a])
  = (score_sum records + get (a_intent_score a) 0)%Q.
Proof. unfold score_sum. rewrite fold_left_app. reflexivity. Qed.

Lemma score_sum_bounds (records : list Analysis) :
  (forall a, In a records -> unit_score (get (a_intent_score a) 0%Q)) ->
  (0 <= score_sum records)%Q
  /\ (score_sum records <= Q_of_nat (List.length records))%Q.
Proof.
  induction records as [|a records IH] using rev_ind; intros Hunit.
  - split; unfold score_sum, Q_of_nat, Qle; simpl; lia.
  - destruct IH as [Hlo Hhi].
    { intros b Hb. apply Hunit. apply in_or_app. left. exact Hb. }
    destruct (Hunit a) as [Ha0 Ha1].
    { apply in_or_app. right. left. reflexivity. }
    rewrite score_sum_snoc, length_app. simpl.
    unfold Q_of_nat in *. rewrite Nat2Z.inj_add, inject_Z_plus. simpl.
    change (inject_Z 1) with 1%Q. split; lra.
Qed.

Lemma records_of_In (author : string) (analyses : list Analysis)
    (a : Analysis) :
  In a (records_of author analyses) -> In a analyses.
Proof. unfold records_of. intros H. apply filter_In in H. tauto. Qed.

Lemma average_score_bounds (author : string) (analyses : list Analysis) :
  (forall a, In a analyses -> unit_score (get (a_intent_score a) 0%Q)) ->
  records_of author analyses <> [] ->
  unit_score (average_score author analyses).
Proof.
  intros Hunit Hne. unfold average_score.
  destruct (score_sum_bounds (records_of author analyses)) as [Hlo Hhi].
  { intros a Ha. apply Hunit. exact (records_of_In author analyses a Ha). }
  assert (Hpos : (0 < Q_of_nat (List.length (records_of author analyses)))%Q).
  { destruct (records_of author analyses); [contradiction|].
    unfold Q_of_nat, Qlt. simpl. lia. }
  split.
  - apply Qle_shift_div_l; [exact Hpos | lra].
  - apply Qle_shift_div_r; [exact Hpos | lra].
Qed.

Lemma update_potential_customer_unit (username : string) (data : AuthorData)
    (score : Q) (now : nat) (w : World) :
  unit_score score ->
  Forall (fun p => unit_score (pc_score p)) (potential_customers w) ->
  Forall (fun p => unit_score (pc_score p))
    (potential_customers
       (_update_potential_customer username data score now w)).
Proof.
  intros [Hs0 Hs1] Hrows. unfold _update_potential_customer.
  destruct (find (by_username username) (potential_customers w));
    cbn [potential_customers].
  - induction Hrows as [|r rows Hr Hrows IH]; simpl; [constructor|].
    destruct (by_username username r); constructor; try assumption.
    destruct Hr as [Hr0 Hr1]. cbn. split.
    + apply Qle_shift_div_l; lra.
    + apply Qle_shift_div_r; lra.
  - apply Forall_app. split; [exact Hrows|].
    constructor; [split; assumption | constructor].
Qed.

Lemma merge_fold_unit (now : nat) (items : dict AuthorData) :
  Forall (fun item => unit_score (c_score (candidate_of item))) items ->
  forall w,
    Forall (fun p => unit_score (pc_score p)) (potential_customers w) ->
    Forall (fun p => unit_score (pc_score p))
      (potential_customers
         (fold_left
            (fun w0 item =>
               _update_potential_customer (fst item) (snd item)
                 (c_score (candidate_of item)) now w0) items w)).
Proof.
  induction 1 as [|item items Hitem _ IH]; simpl; intros w Hw; [exact Hw|].
  apply IH. apply update_potential_customer_unit; assumption.
Qed.

(** X18. Scores stay in range.  When every intent score of the reply lies
    in [0, 1] (an absent one counting as 0), every candidate's score lies
    in (0.5, 1], and when the stored scores lay in [0, 1] before
    aggregation they do so after it. *)
Theorem scores_stay_in_range
    (now : nat) (analyses : list Analysis) (w w' : World)
    (res : AnalysisResult) :
  (forall a, In a analyses -> unit_score (get (a_intent_score a) 0%Q)) ->
  Forall (fun p => unit_score (pc_score p)) (potential_customers w) ->
  _aggregate_analyses now analyses w = (Ok res, w') ->
  Forall (fun c => (0.5 < c_score c)%Q /\ (c_score c <= 1)%Q)
    (r_potential_customers res)
  /\ Forall (fun p => unit_score (pc_score p)) (potential_customers w').
Proof.
  intros Hunit Hstore Hrun.
  assert (Hitems : forall d, grouped analyses d ->
            Forall (fun item => (0.5 < c_score (candidate_of item))%Q
                                /\ unit_score (c_score (candidate_of item)))
              (filter qualifies d)).
  { intros d Hgrouped. apply Forall_forall. intros [k data] Hin.
    apply filter_In in Hin. destruct Hin as [Hin Hq].
    apply (grouped_item analyses d k data Hgrouped) in Hin.
    destruct Hin as [Hne ->]. unfold qualifies in Hq. simpl in *.
    rewrite data_of_total, data_of_count in *.
    split; [apply Qgtb_true; exact Hq|].
    exact (average_score_bounds k analyses Hunit Hne). }
  unfold _aggregate_analyses in Hrun.
  destruct (group_by_author analyses []) as [d|e] eqn:Hgroup;
    [|discriminate].
  pose proof (group_by_author_grouped analyses [] [] d grouped_nil Hgroup)
    as Hgrouped.
  specialize (Hitems d Hgrouped).
  unfold bind, ret in Hrun.
  destruct (select_candidates now d [] w) as [[cands|e] w1] eqn:Hsel;
    [|discriminate].
  injection Hrun as <- <-. cbn [r_potential_customers]. split.
  - apply Forall_forall. intros c Hc. apply sorted_reverse_In in Hc.
    rewrite (select_candidates_result now d [] w cands w1 Hsel) in Hc.
    simpl in Hc. apply in_map_iff in Hc. destruct Hc as (item & <- & Hin).
    rewrite Forall_forall in Hitems.
    destruct (Hitems item Hin) as [Hgt [_ Hle]]. split; assumption.
  - rewrite (select_candidates_world now d [] w cands w1 Hsel).
    apply merge_fold_unit; [|exact Hstore].
    apply Forall_forall. intros item Hin. rewrite Forall_forall in Hitems.
    exact (proj2 (Hitems item Hin)).
Qed.

Lemma scores_stay_in_range_witness :
  (forall a, In a sample_entries -> unit_score (get (a_intent_score a) 0%Q))
  /\ Forall (fun p => unit_score (pc_score p))
       (potential_customers alice_store)
  /\ (exists res,
        fst (_aggregate_analyses 1 sample_entries alice_store) = Ok res)
  /\ Forall (fun c => (0.5 < c_score c)%Q /\ (c_score c <= 1)%Q)
       (match fst (_aggregate_analyses 1 sample_entries alice_store) with
        | Ok res => r_potential_customers res
        | Raise _ => []
        end)
  /\ Forall (fun p => unit_score (pc_score p))
       (potential_customers
          (snd (_aggregate_analyses 1 sample_entries alice_store))).
Proof.
  assert (H1 : forall a, In a sample_entries ->
                 unit_score (get (a_intent_score a) 0%Q)).
  { intros a Ha. simpl in Ha.
    repeat (destruct Ha as [<-|Ha];
            [split; unfold Qle; simpl; lia|]).
    contradiction. }
  assert (H2 : Forall (fun p => unit_score (pc_score p))
                 (potential_customers alice_store)).
  { repeat constructor; unfold Qle; simpl; lia. }
  split; [exact H1|]. split; [exact H2|].
  destruct (_aggregate_analyses 1 sample_entries alice_store)
    as [out w'] eqn:Hrun.
  assert (Hout : exists res, out = Ok res).
  { vm_compute in Hrun. injection Hrun as <- _. eexists. reflexivity. }
  destruct Hout as (res & ->). simpl.
  split; [exists res; reflexivity|].
  exact (scores_stay_in_range 1 sample_entries alice_store w' res H1 H2 Hrun).
Defined.

(** ** Report: sizes and order *)

Lemma In_firstn {A} (n : nat) (l : list A) (x : A) :
  In x (firstn n l) -> In x l.
Proof.
  revert l. induction n as [|n IH]; intros [|y l]; simpl; try tauto.
  intros [->|H]; [left; reflexivity | right; exact (IH l H)].
Qed.

Lemma StronglySorted_firstn {A} (R : A -> A -> Prop) (n : nat) (l : list A) :
  StronglySorted R l -> StronglySorted R (firstn n l).
Proof.
  intros Hl. revert n.
  induction Hl as [|x l Hl IH Hx]; intros [|n]; simpl; try constructor.
  - apply IH.
  - apply Forall_forall. intros y Hy. rewrite Forall_forall in Hx.
    apply Hx. exact (In_firstn _ _ _ Hy).
Qed.

Lemma StronglySorted_map {A B} (f : A -> B) (R : A -> A -> Prop)
    (S : B -> B -> Prop) (l : list A) :
  (forall x y, R x y -> S (f x) (f y)) ->
  StronglySorted R l -> StronglySorted S (map f l).
Proof.
  intros HRS. induction 1 as [|x l Hl IH Hx]; simpl; constructor.
  - exact IH.
  - apply Forall_map. apply Forall_forall. intros y Hy.
    rewrite Forall_forall in Hx. apply HRS. exact (Hx y Hy).
Qed.

Lemma sorted_by_profile_score (l : list PotentialCustomer) :
  StronglySorted (fun x y => (pc_score y <= pc_score x)%Q)
    (sorted_reverse pc_score_gt l).
Proof.
  apply sorted_reverse_ordered; unfold pc_score_gt.
  - intros y x H. apply Qgtb_true in H. apply Qlt_le_weak. exact H.
  - intros y x H. apply Qgtb_false in H. exact H.
  - intros x y z Hxy Hyz. exact (Qle_trans _ _ _ Hyz Hxy).
Qed.

(** X19. The report is bounded and ordered: it counts every stored
    profile, the high-priority count never exceeds that total, at most ten
    pain points are listed, and the customer rows are at most twenty, in
    descending order of score, each the row of a stored profile cut to its
    first five pain points and interests; the rows are missing only when
    the store has no profile. *)
Theorem report_bounds (w : World) :
  total_customers (generate_customer_report w)
  = List.length (potential_customers w)
  /\ high_priority_count (generate_customer_report w)
     <= total_customers (generate_customer_report w)
  /\ total_messages (generate_customer_report w)
     = list_sum (map pc_message_count (potential_customers w))
  /\ List.length (top_pain_points (generate_customer_report w)) <= 10
  /\ match customers (generate_customer_report w) with
     | None => potential_customers w = []
     | Some rows =>
         List.length rows = Nat.min 20 (List.length (potential_customers w))
         /\ StronglySorted by_row_score_desc rows
         /\ Forall (fun row =>
                      exists p,
                        In p (potential_customers w)
                        /\ cr_username row = pc_username p
                        /\ cr_score row = pc_score p
                        /\ cr_engagement_level row = pc_engagement_level p
                        /\ cr_pain_points row = firstn 5 (pc_pain_points p)
                        /\ cr_interests row = firstn 5 (pc_interests p))
              rows
     end.
Proof.
  unfold generate_customer_report.
  destruct (potential_customers w) as [|p rows] eqn:Hrows.
  - simpl. repeat split; lia.
  - cbn [total_customers high_priority_count total_messages top_pain_points
         customers].
    split; [reflexivity|]. split; [apply filter_length_le|].
    split; [reflexivity|].
    split; [rewrite length_firstn; apply Nat.le_min_l|].
    split; [|split].
    + rewrite length_map, length_firstn.
      rewrite (Permutation_length (sorted_reverse_perm _ pc_score_gt _)).
      reflexivity.
    + apply (StronglySorted_map _
               (fun x y => (pc_score y <= pc_score x)%Q));
        [intros x y H; exact H|].
      apply StronglySorted_firstn. apply sorted_by_profile_score.
    + apply Forall_map. apply Forall_forall. intros q Hq.
      apply In_firstn in Hq. apply sorted_reverse_In in Hq.
      exists q. cbn. repeat split. exact Hq.
Qed.

(** * Text limits and start-up *)

Lemma length_take (n : nat) (s : string) :
  String.length (take n s) = Nat.min n (String.length s).
Proof.
  revert s. induction n as [|n IH]; intros [|c s]; simpl; try reflexivity.
  rewrite IH. reflexivity.
Qed.

Lemma length_string_app (s1 s2 : string) :
  String.length (s1 ++ s2)%string = String.length s1 + String.length s2.
Proof.
  induction s1 as [|c s1 IH]; simpl; [reflexivity|]. rewrite IH. reflexivity.
Qed.

(** X20. With a limit of at least 3, [truncate_text] returns a text that
    fits the limit: the text itself when it fits, and otherwise its first
    [max_length - 3] characters followed by three dots, [max_length]
    characters in all. *)
Theorem truncate_text_fits (text : string) (max_length : Z) :
  (3 <= max_length)%Z ->
  (Z.of_nat (String.length (truncate_text text max_length)) <= max_length)%Z
  /\ ((Z.of_nat (String.length text) <= max_length)%Z ->
      truncate_text text max_length = text)
  /\ ((max_length < Z.of_nat (String.length text))%Z ->
      truncate_text text max_length
      = (take (Z.to_nat (max_length - 3)) text ++ "...")%string
      /\ Z.of_nat (String.length (truncate_text text max_length))
         = max_length).
Proof.
  intros Hmax. unfold truncate_text, slice_to.
  destruct (Z.leb_spec (Z.of_nat (String.length text)) max_length)
    as [Hfit|Hlong].
  - split; [exact Hfit|]. split; [reflexivity | lia].
  - destruct (Z.ltb_spec (max_length - 3) 0) as [Hneg|Hpos]; [lia|].
    assert (Hlen : Z.of_nat
                     (String.length
                        (take (Z.to_nat (max_length - 3)) text ++ "...")%string)
                   = max_length).
    { rewrite length_string_app, length_take. simpl. lia. }
    split; [lia|]. split; [lia|]. intros _. split; [reflexivity|exact Hlen].
Qed.

Lemma truncate_text_fits_witness :
  (3 <= 8)%Z
  /\ truncate_text "potential customer" 8 = "poten..."
  /\ (Z.of_nat (String.length (truncate_text "potential customer" 8)) <= 8)%Z.
Proof.
  assert (H : (3 <= 8)%Z) by lia.
  split; [exact H|]. split; [reflexivity|].
  exact (proj1 (truncate_text_fits "potential customer" 8 H)).
Defined.

(** X21. A limit below 3 is not honoured: a text longer than such a limit
    comes back longer than the limit (the slice bound goes negative and
    counts from the end of the text), with at least the three dots. *)
Theorem truncate_text_small_limit (text : string) (max_length : Z) :
  (max_length < 3)%Z ->
  (max_length < Z.of_nat (String.length text))%Z ->
  (max_length
   < Z.of_nat (String.length (truncate_text text max_length)))%Z
  /\ Z.of_nat (String.length (truncate_text text max_length))
     = (Z.max 0 (Z.of_nat (String.length text) + max_length - 3) + 3)%Z.
Proof.
  intros Hsmall Hlong. unfold truncate_text, slice_to.
  destruct (Z.leb_spec (Z.of_nat (String.length text)) max_length);
    [lia|].
  destruct (Z.ltb_spec (max_length - 3) 0); [|lia].
  rewrite length_string_app, length_take. simpl. lia.
Qed.

Lemma truncate_text_small_limit_witness :
  (2 < 3)%Z /\ (2 < Z.of_nat (String.length "abcdef"))%Z
  /\ truncate_text "abcdef" 2 = "abcde..."
  /\ (2 < Z.of_nat (String.length (truncate_text "abcdef" 2)))%Z.
Proof.
  assert (H1 : (2 < 3)%Z) by lia.
  assert (H2 : (2 < Z.of_nat (String.length "abcdef"))%Z) by (simpl; lia).
  split; [exact H1|]. split; [exact H2|]. split; [reflexivity|].
  exact (proj1 (truncate_text_small_limit "abcdef" 2 H1 H2)).
Defined.

(** X22. Start-up is gated by the two credentials: [main] initialises the
    database and starts the bot, with the configured token and followed by
    its shutdown, exactly when the bot token and the API key are both
    non-empty; otherwise it only reports one error per missing credential
    and touches neither the database nor the bot. *)
Theorem startup_gate (settings : Settings) :
  (validate settings = []
   <-> DISCORD_BOT_TOKEN settings <> "" /\ OPENAI_API_KEY settings <> "")
  /\ (validate settings = [] ->
      main settings
      = [InitDb; StartBot (DISCORD_BOT_TOKEN settings); CloseBot])
  /\ (validate settings <> [] ->
      main settings = map PrintError (validate settings)
      /\ ~ In InitDb (main settings)
      /\ forall token, ~ In (StartBot token) (main settings))
  /\ List.length (validate settings)
     = (if is_empty (DISCORD_BOT_TOKEN settings) then 1 else 0)
       + (if is_empty (OPENAI_API_KEY settings) then 1 else 0).
Proof.
  unfold main, validate.
  destruct settings as [[|c1 t1] [|c2 t2]]; simpl;
    repeat match goal with
           | |- _ /\ _ => split
           | |- _ <-> _ => split
           end;
    intros; try reflexivity; try discriminate; try congruence;
    try (exfalso; tauto);
    try match goal with
        | H : _ <> _ /\ _ <> _ |- _ => destruct H; congruence
        end;
    simpl; intuition discriminate.
Qed.

Lemma startup_gate_witness :
  validate sample_settings <> []
  /\ main sample_settings = [PrintError "OPENAI_API_KEY is required"].
Proof.
  assert (H : validate sample_settings <> []) by discriminate.
  split; [exact H|].
  exact (proj1 (proj1 (proj2 (proj2 (startup_gate sample_settings))) H)).
Defined.

(** * Message intake and status *)

Lemma str_inj (z1 z2 : Z) : str z1 = str z2 -> z1 = z2.
Proof.
  unfold str. intros H. apply DecimalZ.to_int_inj.
  assert (Hsome : Some (Z.to_int z1) = Some (Z.to_int z2)).
  { rewrite <- (NilEmpty.isi (Z.to_int z1)), <- (NilEmpty.isi (Z.to_int z2)).
    rewrite H. reflexivity. }
  injection Hsome as Heq. exact Heq.
Qed.

Lemma table_ids_insert (table : list Message) (row : NewMessage) :
  table_ids (insert_message table row) = table_ids table ++ [nm_discord_id row].
Proof. unfold table_ids, insert_message. rewrite map_app. reflexivity. Qed.

Lemma table_ids_insert_all (rows : list NewMessage) :
  forall table,
    table_ids (insert_all table rows) = table_ids table ++ pending_ids rows.
Proof.
  unfold insert_all.
  induction rows as [|row rows IH]; simpl; intros table.
  - rewrite app_nil_r. reflexivity.
  - rewrite IH, table_ids_insert, <- app_assoc. reflexivity.
Qed.

Lemma stored_false (table : list Message) (id : string) :
  ~ In id (table_ids table) ->
  existsb (fun m => String.eqb (msg_discord_id m) id) table = false.
Proof.
  intros Hnot. destruct (existsb _ table) eqn:E; [|reflexivity].
  exfalso. apply existsb_exists in E. destruct E as (m & Hin & Heq).
  apply String.eqb_eq in Heq. apply Hnot. rewrite <- Heq.
  apply in_map. exact Hin.
Qed.

Lemma flush_distinct (rows : list NewMessage) :
  forall table,
    NoDup (table_ids table ++ pending_ids rows) ->
    flush table rows = Some (insert_all table rows).
Proof.
  induction rows as [|row rows IH]; simpl; intros table Hnd; [reflexivity|].
  rewrite stored_false.
  - apply IH. rewrite table_ids_insert, <- app_assoc. exact Hnd.
  - intros Hin. apply NoDup_remove_2 in Hnd. apply Hnd.
    apply in_or_app. left. exact Hin.
Qed.

Lemma commit_distinct (s : Session) :
  NoDup (table_ids (flushed s)) ->
  commit s = (DbOk, {| s_channels := s_channels s;
                       s_messages := flushed s;
                       s_pending := [] |}).
Proof.
  unfold flushed, commit. intros Hnd.
  rewrite table_ids_insert_all in Hnd.
  rewrite (flush_distinct _ _ Hnd). reflexivity.
Qed.

Lemma find_stored (table : list Message) (id : string) :
  (exists m, find (fun m => String.eqb (msg_discord_id m) id) table = Some m)
  <-> In id (table_ids table).
Proof.
  split.
  - intros (m & Hfind). apply find_some in Hfind. destruct Hfind as [Hin Heq].
    apply String.eqb_eq in Heq. rewrite <- Heq. apply in_map. exact Hin.
  - intros Hin. apply in_map_iff in Hin. destruct Hin as (m & Heq & Hin).
    destruct (find (fun m => String.eqb (msg_discord_id m) id) table)
      as [m'|] eqn:Hfind; [exists m'; reflexivity|].
    pose proof (find_none _ _ Hfind m Hin) as Hne. simpl in Hne.
    rewrite Heq, String.eqb_refl in Hne. discriminate.
Qed.

Lemma existsb_ids (id : string) (ids : list string) :
  existsb (String.eqb id) ids = true <-> In id ids.
Proof.
  rewrite existsb_exists. split.
  - intros (x & Hin & Heq). apply String.eqb_eq in Heq. subst x. exact Hin.
  - intros Hin. exists id. split; [exact Hin | apply String.eqb_refl].
Qed.

(** Ids that no person's message of the fetch carries do not change what
    is to be saved. *)
Lemma to_save_more_ids (ids extra : list string) (msgs : list DiscordMessage) :
  (forall msg, In msg msgs -> dm_author_bot msg = false ->
               ~ In (str (dm_id msg)) extra) ->
  to_save (ids ++ extra) msgs = to_save ids msgs.
Proof.
  intros Hnot. unfold to_save. apply filter_ext_in. intros msg Hin.
  destruct (dm_author_bot msg) eqn:Hbot; [reflexivity|]. simpl.
  f_equal.
  destruct (existsb (String.eqb (str (dm_id msg))) ids) eqn:E.
  - apply existsb_ids. apply in_or_app. left. apply existsb_ids. exact E.
  - destruct (existsb (String.eqb (str (dm_id msg))) (ids ++ extra)) eqn:E2;
      [|reflexivity].
    apply existsb_ids in E2. apply in_app_or in E2.
    destruct E2 as [H|H].
    + apply existsb_ids in H. congruence.
    + exfalso. exact (Hnot msg Hin Hbot H).
Qed.

Lemma save_loop_distinct (db_channel : Channel) (msgs : list DiscordMessage) :
  forall saved_count s,
    NoDup (table_ids (flushed s)) ->
    NoDup (map dm_id (by_person msgs)) ->
    (forall msg, In msg msgs -> dm_author_bot msg = false ->
                 ~ In (str (dm_id msg)) (pending_ids (s_pending s))) ->
    exists s',
      save_loop db_channel msgs saved_count s = (DbOk, s')
      /\ s_channels s' = s_channels s
      /\ flushed s'
         = insert_all (flushed s)
             (map (new_message db_channel)
                (to_save (table_ids (flushed s)) msgs))
      /\ NoDup (table_ids (flushed s')).
Proof.
  induction msgs as [|msg rest IH]; cbn -[Nat.modulo];
    intros k s Hnd Hmsgs Hpend.
  - exists s. repeat split; assumption.
  - assert (Hrest : forall m, In m rest -> dm_author_bot m = false ->
                      ~ In (str (dm_id m)) (pending_ids (s_pending s)))
      by (intros m Hm; apply Hpend; right; exact Hm).
    destruct (dm_author_bot msg) eqn:Hbot; cbn -[Nat.modulo].
    { apply IH; assumption. }
    simpl in Hmsgs. inversion Hmsgs as [|? ? Hfresh Hmsgs']; subst.
    assert (Hids : table_ids (flushed s)
                   = table_ids (s_messages s) ++ pending_ids (s_pending s))
      by (unfold flushed; apply table_ids_insert_all).
    destruct (find (fun m => String.eqb (msg_discord_id m) (str (dm_id msg)))
                (s_messages s)) as [m|] eqn:Hfind.
    + (* already stored *)
      assert (Hin : In (str (dm_id msg)) (table_ids (flushed s))).
      { rewrite Hids. apply in_or_app. left. apply find_stored.
        exists m. exact Hfind. }
      apply existsb_ids in Hin. rewrite Hin. cbn -[Nat.modulo].
      apply IH; assumption.
    + (* a new message *)
      assert (Hout : ~ In (str (dm_id msg)) (table_ids (flushed s))).
      { rewrite Hids. intros Hin. apply in_app_or in Hin.
        destruct Hin as [Hin|Hin].
        - apply find_stored in Hin. destruct Hin as (m & Hm). congruence.
        - exact (Hpend msg (or_introl eq_refl) Hbot Hin). }
      assert (Hex : existsb (String.eqb (str (dm_id msg)))
                      (table_ids (flushed s)) = false).
      { destruct (existsb _ (table_ids (flushed s))) eqn:E; [|reflexivity].
        apply existsb_ids in E. contradiction. }
      rewrite Hex. cbn -[Nat.modulo].
      set (s1 := add (new_message db_channel msg) s).
      assert (Hflushed1 : flushed s1
                = insert_message (flushed s) (new_message db_channel msg)).
      { unfold flushed, insert_all, s1, add. simpl.
        rewrite fold_left_app. reflexivity. }
      assert (Hids1 : table_ids (flushed s1)
                      = table_ids (flushed s) ++ [str (dm_id msg)]).
      { rewrite Hflushed1, table_ids_insert. reflexivity. }
      assert (Hnd1 : NoDup (table_ids (flushed s1))).
      { rewrite Hids1. apply NoDup_app; [exact Hnd | repeat constructor;
          simpl; tauto|].
        intros x Hx [<-|[]]. contradiction. }
      assert (Hother : forall m, In m rest -> dm_author_bot m = false ->
                         ~ In (str (dm_id m)) [str (dm_id msg)]).
      { intros m Hm Hmbot [Heq|[]]. apply str_inj in Heq.
        apply Hfresh. rewrite Heq. apply in_map. unfold by_person.
        apply filter_In. split; [exact Hm|]. rewrite Hmbot. reflexivity. }
      assert (Hsave : to_save (table_ids (flushed s1)) rest
                      = to_save (table_ids (flushed s)) rest)
        by (rewrite Hids1; apply to_save_more_ids; exact Hother).
      destruct ((k + 1) mod 100 =? 0).
      * rewrite (commit_distinct s1 Hnd1).
        set (s2 := {| s_channels := s_channels s1;
                      s_messages := flushed s1;
                      s_pending := [] |}).
        assert (Hflushed2 : flushed s2 = flushed s1) by reflexivity.
        destruct (IH (k + 1) s2) as (s' & Hrun & Hch & Hfl & Hnd').
        { rewrite Hflushed2. exact Hnd1. }
        { exact Hmsgs'. }
        { intros m _ _ []. }
        exists s'. split; [exact Hrun|]. split; [exact Hch|].
        split; [|exact Hnd'].
        rewrite Hfl, Hflushed2, Hsave, Hflushed1. reflexivity.
      * destruct (IH (k + 1) s1) as (s' & Hrun & Hch & Hfl & Hnd').
        { exact Hnd1. }
        { exact Hmsgs'. }
        { intros m Hm Hmbot Hin. unfold s1, add, pending_ids in Hin.
          simpl in Hin. rewrite map_app in Hin. apply in_app_or in Hin.
          destruct Hin as [Hin|Hin].
          - exact (Hrest m Hm Hmbot Hin).
          - exact (Hother m Hm Hmbot Hin). }
        exists s'. split; [exact Hrun|]. split; [exact Hch|].
        split; [|exact Hnd'].
        rewrite Hfl, Hsave, Hflushed1. reflexivity.
Qed.

Lemma commit_nothing (s : Session) :
  s_pending s = [] ->
  commit s = (DbOk, {| s_channels := s_channels s;
                       s_messages := s_messages s;
                       s_pending := [] |}).
Proof. unfold commit. intros ->. reflexivity. Qed.

Lemma to_save_nothing (ids : list string) (msgs : list DiscordMessage) :
  (forall msg, In msg msgs -> dm_author_bot msg = false ->
               In (str (dm_id msg)) ids) ->
  to_save ids msgs = [].
Proof.
  intros Hall. unfold to_save.
  induction msgs as [|msg rest IH]; simpl; [reflexivity|].
  destruct (dm_author_bot msg) eqn:Hbot; simpl.
  - apply IH. intros m Hm. apply Hall. right. exact Hm.
  - rewrite (proj2 (existsb_ids _ _) (Hall msg (or_introl eq_refl) Hbot)).
    simpl. apply IH. intros m Hm. apply Hall. right. exact Hm.
Qed.

Lemma to_save_In (ids : list string) (msgs : list DiscordMessage)
    (msg : DiscordMessage) :
  In msg msgs -> dm_author_bot msg = false ->
  In (str (dm_id msg)) ids
  \/ In (str (dm_id msg))
        (map (fun m => str (dm_id m)) (to_save ids msgs)).
Proof.
  intros Hin Hbot.
  destruct (existsb (String.eqb (str (dm_id msg))) ids) eqn:E.
  - left. apply existsb_ids. exact E.
  - right. apply in_map_iff. exists msg. split; [reflexivity|].
    unfold to_save. apply filter_In. split; [exact Hin|].
    rewrite Hbot, E. reflexivity.
Qed.

Lemma find_channel_set_last_analyzed (channel_id : Z) (db_channel : Channel)
    (now : nat) (s : Session) :
  find_channel channel_id s <> None ->
  find_channel channel_id (set_last_analyzed db_channel now s) <> None.
Proof.
  unfold find_channel, set_last_analyzed. cbn [s_channels].
  induction (s_channels s) as [|c channels IH]; simpl; [tauto|].
  destruct (Z.eqb (ch_id c) (ch_id db_channel)); simpl;
    destruct (String.eqb (ch_discord_id c) (str channel_id));
    try discriminate; try exact IH; tauto.
Qed.

(** The intake of a fetch whose messages by persons have distinct ids, in
    a session without pending rows over a table of distinct ids. *)
Lemma save_messages_distinct (channel_id : Z) (msgs : list DiscordMessage)
    (now : nat) (s : Session) (db_channel : Channel) :
  s_pending s = [] ->
  NoDup (table_ids (s_messages s)) ->
  NoDup (map dm_id (by_person msgs)) ->
  find_channel channel_id s = Some db_channel ->
  save_messages_to_db channel_id msgs now s
  = (DbOk,
     {| s_channels := s_channels (set_last_analyzed db_channel now s);
        s_messages :=
          insert_all (s_messages s)
            (map (new_message db_channel)
               (to_save (table_ids (s_messages s)) msgs));
        s_pending := [] |})
  /\ NoDup (table_ids
              (insert_all (s_messages s)
                 (map (new_message db_channel)
                    (to_save (table_ids (s_messages s)) msgs)))).
Proof.
  intros Hpending Hnd Hmsgs Hfind. unfold save_messages_to_db.
  rewrite Hfind.
  assert (Hflushed : flushed s = s_messages s)
    by (unfold flushed; rewrite Hpending; reflexivity).
  destruct (save_loop_distinct db_channel msgs 0 s)
    as (s1 & Hrun & Hch & Hfl & Hnd1).
  { rewrite Hflushed. exact Hnd. }
  { exact Hmsgs. }
  { intros m _ _. rewrite Hpending. intros []. }
  rewrite Hrun, (commit_distinct s1 Hnd1).
  rewrite commit_nothing by reflexivity.
  rewrite Hflushed in Hfl. rewrite Hfl in Hnd1.
  split; [|exact Hnd1].
  unfold set_last_analyzed. cbn. rewrite Hch, Hfl. reflexivity.
Qed.

(** X23. An intake into a known channel, from a fetch in which no two
    messages written by persons share an id, does not raise and stores
    exactly the messages of the fetch that a person wrote and that were not
    stored yet, in fetch order, with the channel's key; bot messages and
    already stored messages add nothing.  Afterwards every message of the
    fetch written by a person is stored and the stored ids are still
    distinct. *)
Theorem intake_stores_new_messages
    (channel_id : Z) (msgs : list DiscordMessage) (now : nat) (s : Session)
    (db_channel : Channel) :
  s_pending s = [] ->
  NoDup (table_ids (s_messages s)) ->
  NoDup (map dm_id (by_person msgs)) ->
  find_channel channel_id s = Some db_channel ->
  exists s',
    save_messages_to_db channel_id msgs now s = (DbOk, s')
    /\ s_pending s' = []
    /\ s_messages s'
       = insert_all (s_messages s)
           (map (new_message db_channel)
              (to_save (table_ids (s_messages s)) msgs))
    /\ table_ids (s_messages s')
       = table_ids (s_messages s)
         ++ map (fun m => str (dm_id m))
              (to_save (table_ids (s_messages s)) msgs)
    /\ NoDup (table_ids (s_messages s'))
    /\ forall msg, In msg msgs -> dm_author_bot msg = false ->
                   In (str (dm_id msg)) (table_ids (s_messages s')).
Proof.
  intros Hpending Hnd Hmsgs Hfind.
  destruct (save_messages_distinct channel_id msgs now s db_channel
              Hpending Hnd Hmsgs Hfind) as [Hrun Hnd'].
  eexists. split; [exact Hrun|]. cbn [s_pending s_messages].
  assert (Hids : table_ids
                   (insert_all (s_messages s)
                      (map (new_message db_channel)
                         (to_save (table_ids (s_messages s)) msgs)))
                 = table_ids (s_messages s)
                   ++ map (fun m => str (dm_id m))
                        (to_save (table_ids (s_messages s)) msgs)).
  { rewrite table_ids_insert_all. unfold pending_ids. rewrite map_map.
    reflexivity. }
  split; [reflexivity|]. split; [reflexivity|]. split; [exact Hids|].
  split; [exact Hnd'|].
  intros msg Hin Hbot. rewrite Hids. apply in_or_app.
  exact (to_save_In (table_ids (s_messages s)) msgs msg Hin Hbot).
Qed.

Lemma intake_stores_new_messages_witness :
  exists s',
    save_messages_to_db 700 sample_fetch 9 sample_session = (DbOk, s')
    /\ s_pending s' = []
    /\ s_messages s'
       = insert_all (s_messages sample_session)
           (map (new_message sample_channel)
              (to_save (table_ids (s_messages sample_session))
                 sample_fetch))
    /\ table_ids (s_messages s')
       = table_ids (s_messages sample_session)
         ++ map (fun m => str (dm_id m))
              (to_save (table_ids (s_messages sample_session))
                 sample_fetch)
    /\ NoDup (table_ids (s_messages s'))
    /\ forall msg, In msg sample_fetch -> dm_author_bot msg = false ->
                   In (str (dm_id msg)) (table_ids (s_messages s')).
Proof.
  apply (intake_stores_new_messages 700 sample_fetch 9 sample_session
           sample_channel).
  - reflexivity.
  - repeat constructor. simpl. tauto.
  - repeat constructor; simpl; intros H;
      repeat (destruct H as [H|H]; [discriminate|]); exact H.
  - reflexivity.
Defined.

(** X24. The intake is idempotent on the messages table: under the same
    conditions, running it a second time on the same fetch stores nothing
    more. *)
Theorem intake_idempotent
    (channel_id : Z) (msgs : list DiscordMessage) (now now' : nat)
    (s : Session) (db_channel : Channel) :
  s_pending s = [] ->
  NoDup (table_ids (s_messages s)) ->
  NoDup (map dm_id (by_person msgs)) ->
  find_channel channel_id s = Some db_channel ->
  exists s' s'',
    save_messages_to_db channel_id msgs now s = (DbOk, s')
    /\ save_messages_to_db channel_id msgs now' s' = (DbOk, s'')
    /\ s_messages s'' = s_messages s'.
Proof.
  intros Hpending Hnd Hmsgs Hfind.
  destruct (save_messages_distinct channel_id msgs now s db_channel
              Hpending Hnd Hmsgs Hfind) as [Hrun Hnd'].
  set (s' := {| s_channels :=
                  s_channels (set_last_analyzed db_channel now s);
                s_messages :=
                  insert_all (s_messages s)
                    (map (new_message db_channel)
                       (to_save (table_ids (s_messages s)) msgs));
                s_pending := [] |}) in *.
  assert (Hfind' : find_channel channel_id s' <> None).
  { apply (find_channel_set_last_analyzed channel_id db_channel now s).
    rewrite Hfind. discriminate. }
  destruct (find_channel channel_id s') as [db_channel'|] eqn:Hfound;
    [|contradiction].
  destruct (save_messages_distinct channel_id msgs now' s' db_channel'
              eq_refl Hnd' Hmsgs Hfound) as [Hrun' _].
  assert (Hnone : to_save (table_ids (s_messages s')) msgs = []).
  { apply to_save_nothing. intros msg Hin Hbot.
    unfold s'. cbn [s_messages]. rewrite table_ids_insert_all.
    unfold pending_ids. rewrite map_map. apply in_or_app.
    exact (to_save_In (table_ids (s_messages s)) msgs msg Hin Hbot). }
  rewrite Hnone in Hrun'.
  exists s'. eexists. split; [exact Hrun|]. split; [exact Hrun'|].
  reflexivity.
Qed.

Lemma intake_idempotent_witness :
  exists s' s'',
    save_messages_to_db 700 sample_fetch 9 sample_session = (DbOk, s')
    /\ save_messages_to_db 700 sample_fetch 10 s' = (DbOk, s'')
    /\ s_messages s'' = s_messages s'.
Proof.
  apply (intake_idempotent 700 sample_fetch 9 10 sample_session
           sample_channel).
  - reflexivity.
  - repeat constructor. simpl. tauto.
  - repeat constructor; simpl; intros H;
      repeat (destruct H as [H|H]; [discriminate|]); exact H.
  - reflexivity.
Defined.

Lemma stored_true (table : list Message) (id : string) :
  In id (table_ids table) ->
  existsb (fun m => String.eqb (msg_discord_id m) id) table = true.
Proof.
  intros Hin. apply in_map_iff in Hin. destruct Hin as (m & Heq & Hin).
  apply existsb_exists. exists m. split; [exact Hin|].
  apply String.eqb_eq. exact Heq.
Qed.

(** X25. The real-time path does not look a message up before it inserts
    it: in a known channel, a message whose id is not stored yet is stored
    as one new row, and a message whose id is already stored makes the
    commit raise IntegrityError and leaves the table as it was. *)
Theorem single_message_not_deduplicated
    (message : DiscordMessage) (s : Session) (db_channel : Channel) :
  s_pending s = [] ->
  find_channel (dm_channel_id message) s = Some db_channel ->
  (In (str (dm_id message)) (table_ids (s_messages s)) ->
   fst (save_single_message message s) = IntegrityError
   /\ s_messages (snd (save_single_message message s)) = s_messages s)
  /\ (~ In (str (dm_id message)) (table_ids (s_messages s)) ->
      fst (save_single_message message s) = DbOk
      /\ s_messages (snd (save_single_message message s))
         = insert_message (s_messages s) (new_message db_channel message)).
Proof.
  intros Hpending Hfind. unfold save_single_message, commit, add.
  rewrite Hfind, Hpending. cbn [s_messages s_pending app flush].
  split; intros Hin.
  - cbn [new_message nm_discord_id]. rewrite (stored_true _ _ Hin).
    split; reflexivity.
  - cbn [new_message nm_discord_id]. rewrite (stored_false _ _ Hin).
    split; reflexivity.
Qed.

Lemma single_message_not_deduplicated_witness :
  In (str 1001) (table_ids (s_messages sample_session))
  /\ fst (save_single_message
            (sample_discord_message 1001 false "need help with billing")
            sample_session) = IntegrityError
  /\ s_messages
       (snd (save_single_message
               (sample_discord_message 1001 false "need help with billing")
               sample_session))
     = s_messages sample_session.
Proof.
  assert (Hin : In (str 1001) (table_ids (s_messages sample_session)))
    by (left; reflexivity).
  split; [exact Hin|].
  exact (proj1 (single_message_not_deduplicated
                  (sample_discord_message 1001 false "need help with billing")
                  sample_session sample_channel eq_refl eq_refl) Hin).
Defined.

Lemma filter_key_NoDup {A} (key : A -> string) (x : string) (l : list A) :
  NoDup (map key l) ->
  List.length (filter (fun a => String.eqb (key a) x) l) <= 1.
Proof.
  induction l as [|a l IH]; simpl; intros Hnd; [lia|].
  inversion Hnd as [|? ? Ha Hnd']; subst.
  destruct (String.eqb (key a) x) eqn:E; [|exact (IH Hnd')].
  apply String.eqb_eq in E. simpl.
  replace (filter (fun a0 => String.eqb (key a0) x) l) with (@nil A);
    [simpl; lia|].
  symmetry. clear IH Hnd Hnd'. induction l as [|b l IHl]; simpl;
    [reflexivity|].
  destruct (String.eqb (key b) x) eqn:Eb.
  - exfalso. apply String.eqb_eq in Eb. apply Ha. left. congruence.
  - apply IHl. intros H. apply Ha. right. exact H.
Qed.

Lemma most_recent_from (channels : list Channel) :
  forall best,
    fold_left (fun best c =>
                 match ch_last_analyzed c, best with
                 | Some t, Some b => Some (Nat.max b t)
                 | Some t, None => Some t
                 | None, _ => best
                 end) channels best = None
    <-> best = None
        /\ filter (fun c => match ch_last_analyzed c with
                            | Some _ => true
                            | None => false
                            end) channels = [].
Proof.
  induction channels as [|c channels IH]; simpl; intros best.
  - tauto.
  - rewrite IH. destruct (ch_last_analyzed c) as [t|].
    + destruct best; split; intros [H1 H2]; discriminate.
    + tauto.
Qed.

(** X26. [analyze_status] selects the channels whose discord id equals
    the guild's discord id, not the channels that belong to the guild: with
    channel ids distinct in the table it reports on at most one channel.
    The analysed count never exceeds the reported total, and the last
    analysis is shown exactly when that count is not zero. *)
Theorem status_counts_one_channel (guild_id : Z) (s : Session) :
  NoDup (map ch_discord_id (s_channels s)) ->
  st_total (analyze_status guild_id s) <= 1
  /\ st_analyzed (analyze_status guild_id s)
     <= st_total (analyze_status guild_id s)
  /\ st_total (analyze_status guild_id s)
     = List.length
         (filter (fun c => String.eqb (ch_discord_id c) (str guild_id))
            (s_channels s))
  /\ (st_most_recent (analyze_status guild_id s) = None
      <-> st_analyzed (analyze_status guild_id s) = 0).
Proof.
  intros Hnd. unfold analyze_status.
  cbn [st_total st_analyzed st_most_recent].
  split; [exact (filter_key_NoDup ch_discord_id (str guild_id) _ Hnd)|].
  split; [apply filter_length_le|]. split; [reflexivity|].
  unfold most_recent. rewrite most_recent_from. split.
  - intros [_ ->]. reflexivity.
  - intros H. split; [reflexivity|]. apply length_zero_iff_nil. exact H.
Qed.

Lemma status_counts_one_channel_witness :
  NoDup (map ch_discord_id (s_channels guild_session))
  /\ Forall (fun c => ch_guild_id c = 1%Z) (s_channels guild_session)
  /\ analyze_status 900 guild_session
     = {| st_analyzed := 0; st_total := 0; st_most_recent := None |}
  /\ st_total (analyze_status 900 guild_session) <= 1.
Proof.
  assert (H : NoDup (map ch_discord_id (s_channels guild_session))).
  { repeat constructor; simpl; intros Hin;
      repeat (destruct Hin as [Hin|Hin]; [discriminate|]); exact Hin. }
  split; [exact H|]. split; [repeat constructor|]. split; [reflexivity|].
  exact (proj1 (status_counts_one_channel 900 guild_session H)).
Defined.

(** * Aggregation in binary64: the candidates and the table *)

Section F64Facts.
Import PrimFloat.
Import F64.

Lemma data_of_snoc_f64 (records : list Analysis) (a : Analysis) :
  data_of (records ++ [a]) = add_analysis a (data_of records).
Proof. unfold data_of. rewrite fold_left_app. reflexivity. Qed.

Lemma data_of_total_f64 (records : list Analysis) :
  ad_total_score (data_of records) = score_sum records.
Proof.
  induction records as [|a records IH] using rev_ind; [reflexivity|].
  rewrite data_of_snoc_f64. unfold score_sum. rewrite fold_left_app. simpl.
  fold (score_sum records). rewrite <- IH. reflexivity.
Qed.

Lemma data_of_count_f64 (records : list Analysis) :
  ad_message_count (data_of records) = List.length records.
Proof.
  induction records as [|a records IH] using rev_ind; [reflexivity|].
  rewrite data_of_snoc_f64, length_app. simpl. rewrite IH. reflexivity.
Qed.

Lemma records_of_snoc_f64 (author : string) (seen : list Analysis)
    (a : Analysis) :
  records_of author (seen ++ [a])
  = records_of author seen
    ++ match a_author a with
       | Some x => if String.eqb x author then [a] else []
       | None => []
       end.
Proof.
  unfold records_of. rewrite filter_app. simpl.
  destruct (a_author a) as [x|]; [|reflexivity].
  destruct (String.eqb x author); reflexivity.
Qed.

Lemma grouped_step_f64 (seen : list Analysis) (d : dict AuthorData)
    (a : Analysis) (author : string) :
  grouped seen d -> a_author a = Some author ->
  grouped (seen ++ [a])
    (dict_set d author
       (add_analysis a (get (dict_get d author) empty_author_data))).
Proof.
  intros [Hnd Hget] Ha. split; [apply dict_set_NoDup; exact Hnd|].
  intros y. rewrite dict_get_set, records_of_snoc_f64, Ha.
  destruct (String.eqb author y) eqn:E.
  - apply String.eqb_eq in E. subst y.
    rewrite Hget.
    destruct (records_of author seen) as [|r rs] eqn:Hr; simpl.
    + reflexivity.
    + rewrite <- data_of_snoc_f64. reflexivity.
  - rewrite app_nil_r. apply Hget.
Qed.

Lemma group_by_author_grouped_f64 (rest : list Analysis) :
  forall seen d d',
    grouped seen d -> group_by_author rest d = Ok d' ->
    grouped (seen ++ rest) d'.
Proof.
  induction rest as [|a rest IH]; simpl; intros seen d d' Hg Hrun.
  - injection Hrun as <-. rewrite app_nil_r. exact Hg.
  - destruct (a_author a) as [author|] eqn:Ha; [|discriminate].
    replace (seen ++ a :: rest) with ((seen ++ [a]) ++ rest)
      by (rewrite <- app_assoc; reflexivity).
    eapply IH; [|exact Hrun]. apply grouped_step_f64; assumption.
Qed.

Lemma grouped_nil_f64 : grouped [] [].
Proof. split; [constructor|]. intros author. reflexivity. Qed.

Lemma grouped_item_f64 (analyses : list Analysis) (d : dict AuthorData)
    (author : string) (data : AuthorData) :
  grouped analyses d ->
  (In (author, data) d <->
   records_of author analyses <> []
   /\ data = data_of (records_of author analyses)).
Proof.
  intros [Hnd Hget]. split.
  - intros Hin. apply dict_get_In in Hin; [|exact Hnd].
    rewrite Hget in Hin.
    destruct (records_of author analyses) as [|r rs]; [discriminate|].
    injection Hin as <-. split; [discriminate | reflexivity].
  - intros [Hne ->]. apply dict_get_Some_In. rewrite Hget.
    destruct (records_of author analyses); [contradiction | reflexivity].
Qed.

Lemma select_candidates_result_f64 (now : nat) (items : dict AuthorData) :
  forall acc rows cands rows',
    select_candidates now items acc rows = (Ok cands, rows') ->
    cands = acc ++ map candidate_of (filter qualifies items)
    /\ rows' = merged_rows now (filter qualifies items) rows.
Proof.
  induction items as [|[author data] items IH];
    intros acc rows cands rows' Hrun.
  - injection Hrun as <- <-. rewrite app_nil_r. split; reflexivity.
  - cbn [select_candidates] in Hrun. cbn [filter].
    destruct (ad_message_count data) as [|n] eqn:Hn; [discriminate|].
    destruct (qualifies (author, data)) eqn:Hq;
      unfold qualifies in Hq; cbn [fst snd] in Hq; rewrite Hn in Hq;
      rewrite Hq in Hrun; [|exact (IH _ _ _ _ Hrun)].
    destruct (IH _ _ _ _ Hrun) as [-> ->].
    unfold merged_rows, candidate_of. cbn [map fold_left fst snd c_score].
    rewrite ?Hn, <- app_assoc. split; reflexivity.
Qed.

(** A returned aggregation: the groups of the records, one candidate per
    group above the threshold, and the table after their merges. *)
Lemma aggregate_analyses_result_f64 (now : nat) (analyses : list Analysis)
    (rows rows' : list PotentialCustomer) (res : AnalysisResult) :
  _aggregate_analyses now analyses rows = (Ok res, rows') ->
  exists d,
    grouped analyses d
    /\ r_potential_customers res
       = sorted_reverse score_gt (map candidate_of (filter qualifies d))
    /\ rows' = merged_rows now (filter qualifies d) rows.
Proof.
  unfold _aggregate_analyses. intros Hrun.
  destruct (group_by_author analyses []) as [d|e] eqn:Hgroup;
    [|discriminate].
  exists d.
  split; [exact (group_by_author_grouped_f64 analyses [] [] d grouped_nil_f64
                   Hgroup)|].
  destruct (select_candidates now d [] rows) as [[cands|e] rows1] eqn:Hsel;
    [|discriminate].
  injection Hrun as <- <-.
  destruct (select_candidates_result_f64 now d [] rows cands rows1 Hsel)
    as [-> ->].
  split; reflexivity.
Qed.

(** A returned candidate is the candidate of its author's group, and the
    group passes the threshold. *)
Lemma aggregate_candidate_item_f64 (now : nat) (analyses : list Analysis)
    (rows rows' : list PotentialCustomer) (res : AnalysisResult)
    (c : Candidate) :
  _aggregate_analyses now analyses rows = (Ok res, rows') ->
  In c (r_potential_customers res) ->
  records_of (c_username c) analyses <> []
  /\ c = candidate_of
           (c_username c, data_of (records_of (c_username c) analyses))
  /\ qualifies (c_username c, data_of (records_of (c_username c) analyses))
     = true.
Proof.
  intros Hrun Hc.
  destruct (aggregate_analyses_result_f64 now analyses rows rows' res Hrun)
    as (d & Hgrouped & Heq & _).
  rewrite Heq in Hc. apply sorted_reverse_In in Hc. apply in_map_iff in Hc.
  destruct Hc as ([k data] & <- & Hitem). apply filter_In in Hitem.
  destruct Hitem as [Hitem Hq].
  apply (grouped_item_f64 analyses d k data Hgrouped) in Hitem.
  destruct Hitem as [Hne ->]. simpl. repeat split; assumption.
Qed.

(** C5, amended.  Every candidate the aggregator returns belongs to an
    author with at least one record; its score is the average of the
    author's scores as the code computes it in binary64 (the scores added
    in record order to 0, the sum divided by the number of records, every
    operation rounded), and that computed average is strictly greater
    than 0.5. *)
Theorem computed_average_above_threshold
    (now : nat) (analyses : list Analysis)
    (rows rows' : list PotentialCustomer)
    (res : AnalysisResult) (c : Candidate) :
  _aggregate_analyses now analyses rows = (Ok res, rows') ->
  In c (r_potential_customers res) ->
  records_of (c_username c) analyses <> []
  /\ c_score c = average_score (c_username c) analyses
  /\ ltb 0.5%float (average_score (c_username c) analyses) = true.
Proof.
  intros Hrun Hc.
  destruct (aggregate_candidate_item_f64 now analyses rows rows' res c
              Hrun Hc) as (Hne & Heq & Hq).
  split; [exact Hne|].
  unfold qualifies in Hq. simpl in Hq.
  rewrite data_of_total_f64, data_of_count_f64 in Hq.
  split; [|exact Hq].
  rewrite Heq at 1. cbn [candidate_of c_score fst snd].
  rewrite data_of_total_f64, data_of_count_f64. reflexivity.
Qed.

Lemma computed_average_above_threshold_witness :
  In (candidate_of ("alice", data_of (records_of "alice" sample_entries)))
     (candidates (fst (_aggregate_analyses 1 sample_entries [])))
  /\ c_score
       (candidate_of ("alice", data_of (records_of "alice" sample_entries)))
     = average_score "alice" sample_entries
  /\ ltb 0.5%float (average_score "alice" sample_entries) = true.
Proof.
  destruct (_aggregate_analyses 1 sample_entries []) as [out rows'] eqn:Hrun.
  assert (Hout : exists res, out = Ok res /\
            In (candidate_of
                  ("alice", data_of (records_of "alice" sample_entries)))
               (r_potential_customers res)).
  { vm_compute in Hrun. injection Hrun as <- _. eexists.
    split; [reflexivity|]. vm_compute. left. reflexivity. }
  destruct Hout as (res & -> & Hin). simpl. split; [exact Hin|].
  exact (proj2 (computed_average_above_threshold 1 sample_entries [] rows'
                  res _ Hrun Hin)).
Defined.

(** C5 as stated fails: the five scores 0.29, 0.81, 0.85, 0.37 and 0.18 of
    one author have the exact average 1/2, which is not above 0.5, and the
    aggregator returns the author as a candidate, with the computed
    average 0.5000000000000001 as score. *)
Lemma exact_average_at_threshold :
  map (fun c => (c_username c, c_score c))
    (candidates (fst (_aggregate_analyses 1 eve_entries [])))
  = [("eve", 0.5000000000000001%float)]
  /\ (exact_average "eve" eve_entries == 1 # 2)%Q.
Proof. split; vm_compute; reflexivity. Qed.

(** X10. When aggregation returns, an author is among the candidates
    exactly when the author has at least one record and the average of
    their scores, as computed in binary64, is above 0.5: no author whose
    computed average passes the test is left out. *)
Theorem candidates_complete
    (now : nat) (analyses : list Analysis)
    (rows rows' : list PotentialCustomer)
    (res : AnalysisResult) (author : string) :
  _aggregate_analyses now analyses rows = (Ok res, rows') ->
  (In author (map c_username (r_potential_customers res))
   <-> records_of author analyses <> []
       /\ ltb 0.5%float (average_score author analyses) = true).
Proof.
  intros Hrun.
  destruct (aggregate_analyses_result_f64 now analyses rows rows' res Hrun)
    as (d & Hgrouped & Heq & _).
  split.
  - intros Hin. apply in_map_iff in Hin. destruct Hin as (c & <- & Hc).
    destruct (aggregate_candidate_item_f64 now analyses rows rows' res c
                Hrun Hc) as (Hne & _ & Hq).
    split; [exact Hne|].
    unfold qualifies in Hq. simpl in Hq.
    rewrite data_of_total_f64, data_of_count_f64 in Hq. exact Hq.
  - intros [Hne Havg]. rewrite Heq.
    apply in_map_iff.
    exists (candidate_of (author, data_of (records_of author analyses))).
    split; [reflexivity|]. apply sorted_reverse_In. apply in_map.
    apply filter_In. split.
    + apply (grouped_item_f64 analyses d author _ Hgrouped). split;
        [exact Hne | reflexivity].
    + unfold qualifies. simpl.
      rewrite data_of_total_f64, data_of_count_f64. exact Havg.
Qed.

Lemma candidates_complete_witness :
  (exists res, fst (_aggregate_analyses 1 eve_entries []) = Ok res)
  /\ (In "eve"
        (map c_username (candidates (fst (_aggregate_analyses 1 eve_entries []))))
      <-> records_of "eve" eve_entries <> []
          /\ ltb 0.5%float (average_score "eve" eve_entries) = true).
Proof.
  destruct (_aggregate_analyses 1 eve_entries []) as [out rows'] eqn:Hrun.
  assert (Hout : exists res, out = Ok res).
  { vm_compute in Hrun. injection Hrun as <- _. eexists. reflexivity. }
  destruct Hout as (res & ->). simpl.
  split; [exists res; reflexivity|].
  exact (candidates_complete 1 eve_entries [] rows' res "eve" Hrun).
Defined.

(** ** The table after the merges *)


Lemma update_own_id_f64 (username : string) (data : AuthorData)
    (score : float) (now : nat) (rows : list PotentialCustomer) :
  Forall own_id rows ->
  Forall own_id (_update_potential_customer username data score now rows).
Proof.
  intros Hown. unfold _update_potential_customer.
  destruct (find (by_username username) rows).
  - induction Hown as [|r rows Hr Hown IH]; simpl; [constructor|].
    destruct (by_username username r); constructor;
      solve [assumption | exact Hr].
  - destruct (existsb _ rows); [exact Hown|].
    apply Forall_app. split; [exact Hown|].
    constructor; [reflexivity | constructor].
Qed.



Lemma merged_rows_own_id (now : nat) (items : dict AuthorData) :
  forall rows, Forall own_id rows -> Forall own_id (merged_rows now items rows).
Proof.
  unfold merged_rows.
  induction items as [|item items IH]; simpl; intros rows Hown;
    [exact Hown|].
  apply IH. apply update_own_id_f64. exact Hown.
Qed.





End F64Facts.
